(** * pasta.base.annotate: annotating a Python syntax tree with its formatting

    A shallow embedding of [pasta/base/annotate.py].  The visitor is a Python
    object whose methods mutate the visitor ([_stack], [_indent],
    [_indent_diff]), the token generator it owns, and the nodes it walks; here
    every method is a function in a state-and-exception monad over the record
    [AstAnnotator].  A raised exception leaves the state as it was when the
    exception was raised, as in Python.

    The modules [pasta.base.token_generator], [pasta.base.ast_utils] and
    [pasta.base.ast_constants] are not part of the sources: the token
    generator is an interface the development is parametric in, the property
    store of [ast_utils] is a finite map keyed by node identity, and the token
    table of [ast_constants] is a parameter. *)

From stdpp Require Import gmap strings.
From Stdlib Require Import ZArith Ascii DecimalString.

#[local] Set Warnings "-register-all".
#[local] Open Scope string_scope.
#[local] Open Scope Z_scope.

(** ** Python objects *)

(** The objects found in the fields of a syntax tree.  A node is an object
    with an identity [nid] (what Python's [is] compares), a class name, its
    [_fields] in order, and its [_attributes] ([lineno], [col_offset]).
    [VFloat m e] is the finite float [m * 2^e], [VComplex re im] a complex
    number whose parts are such pairs. *)
Inductive value : Type :=
| VNone
| VBool (b : bool)
| VInt (z : Z)
| VFloat (m e : Z)
| VComplex (re im : Z * Z)
| VStr (s : string)
| VList (l : list value)
| VNode (n : node)
with node : Type :=
| AST (nid : nat) (cls : string) (fields : list (string * value))
      (attributes : list (string * value)).

Definition nid (n : node) : nat := let 'AST i _ _ _ := n in i.
Definition cls (n : node) : string := let 'AST _ c _ _ := n in c.
Definition fields (n : node) : list (string * value) := let 'AST _ _ f _ := n in f.
Definition attributes (n : node) : list (string * value) := let 'AST _ _ _ a := n in a.

(** [a is b] on nodes. *)
Definition node_is (a b : node) : bool := Nat.eqb (nid a) (nid b).

(** [isinstance(v, ast.<c>)] and [isinstance(v, ast.AST)]. *)
Definition isinstance (v : value) (c : string) : bool :=
  match v with VNode n => String.eqb (cls n) c | _ => false end.

Definition isinstance_AST (v : value) : bool :=
  match v with VNode _ => true | _ => false end.

(** Truth value of an object, as [if v:] tests it. *)
Definition truthy (v : value) : bool :=
  match v with
  | VNone => false
  | VBool b => b
  | VInt z => negb (z =? 0)
  | VFloat m _ => negb (m =? 0)
  | VComplex re im => negb ((fst re =? 0) && (fst im =? 0))
  | VStr s => negb (String.eqb s EmptyString)
  | VList l => match l with [] => false | _ => true end
  | VNode _ => true
  end.

Fixpoint assoc (k : string) (l : list (string * value)) : option value :=
  match l with
  | [] => None
  | (k', v) :: l' => if String.eqb k k' then Some v else assoc k l'
  end.

(** ** Exceptions *)

(** The classes of the exceptions that can reach [visit]: the built-in ones
    the code names or raises, a class derived from one of them, or another
    class derived from [Exception]. *)
Inductive exc_type : Type :=
| TypeError | ValueError | IndexError | KeyError
| AttributeError | AssertionError | RuntimeError
| Subclass (base : exc_type) (name : string)
| OtherError (name : string).

(** An [AnnotationError] is built from a message, from the arguments of the
    format ["Expected %r but found %r\nline %d: %s"] of [token], or from the
    exception [visit] caught. *)
Inductive exn : Type :=
| PyExc (t : exc_type)
| AnnotationError (arg : annotation_arg)
with annotation_arg : Type :=
| Message (s : string)
| Expected (token_val : value) (src : string) (lineno : Z) (line : string)
| Caught (e : exn).

Inductive outcome (A : Type) : Type :=
| Ok (a : A)
| Raise (e : exn).
Arguments Ok {A} a.
Arguments Raise {A} e.

(** [issubclass(t, (TypeError, ValueError, IndexError, KeyError))]. *)
Fixpoint caught_class (t : exc_type) : bool :=
  match t with
  | TypeError | ValueError | IndexError | KeyError => true
  | Subclass base _ => caught_class base
  | _ => false
  end.

(** The exceptions [except (TypeError, ValueError, IndexError, KeyError)]
    catches; [AnnotationError] derives from [Exception]. *)
Definition caught_by_visit (e : exn) : bool :=
  match e with
  | PyExc t => caught_class t
  | AnnotationError _ => false
  end.

(** ** Tokens and the token generator *)

Record Token : Type := {
  type : nat;
  src : string;
  start : Z * Z;
  end_ : Z * Z;
  line : string;
}.

(** The interface of [token_generator.TokenGenerator] the annotator uses.
    [TG] is the generator's state.  Every consuming call returns the new
    state and may raise.

    Modelled from the spec: [pasta.base.token_generator] is missing; [peek]
    "returns the next token without consuming", so it is a function of the
    state alone, and it yields [None] at the end of the input, which
    [optional_token] tests for.  [scope] is a context manager, here its entry
    and its exit. *)
Record TokenGenerator (TG : Type) : Type := {
  lines : TG -> list string;
  _loc : TG -> Z * Z;
  peek : TG -> option Token;
  next : TG -> outcome (option Token) * TG;
  next_name : TG -> outcome (option Token) * TG;
  next_of_type : nat -> TG -> outcome (option Token) * TG;
  str : TG -> outcome string * TG;
  whitespace : option Z -> TG -> outcome string * TG;
  block_whitespace : string -> TG -> outcome string * TG;
  hint_open : TG -> outcome unit * TG;
  hint_closed : TG -> outcome unit * TG;
  scope_enter : node -> TG -> outcome unit * TG;
  scope_exit : node -> TG -> outcome unit * TG;
  NUMBER : nat;
}.
Arguments lines {TG} _ _.
Arguments _loc {TG} _ _.
Arguments peek {TG} _ _.
Arguments next {TG} _ _.
Arguments next_name {TG} _ _.
Arguments next_of_type {TG} _ _ _.
Arguments str {TG} _ _.
Arguments whitespace {TG} _ _ _.
Arguments block_whitespace {TG} _ _ _.
Arguments hint_open {TG} _ _.
Arguments hint_closed {TG} _ _.
Arguments scope_enter {TG} _ _ _.
Arguments scope_exit {TG} _ _ _.
Arguments NUMBER {TG} _.

(** ** The annotator's state *)

(** [AstAnnotator.__init__] sets [tokens], [_indent], [_indent_diff] and
    (through [BaseVisitor.__init__]) [_stack].

    Modelled from the spec: [pasta.base.ast_utils] is missing; its properties
    are the "side table, keyed by (node identity, attribute name)", here
    [props].  [attrs] holds the attributes assigned on node objects while
    annotating ([is_continued]). *)
Record AstAnnotator (TG : Type) : Type := {
  tokens : TG;
  _indent : string;
  _indent_diff : string;
  _stack : list node;
  props : gmap (nat * string) value;
  attrs : gmap (nat * string) value;
}.
Arguments tokens {TG} _.
Arguments _indent {TG} _.
Arguments _indent_diff {TG} _.
Arguments _stack {TG} _.
Arguments props {TG} _.
Arguments attrs {TG} _.

Definition M (TG A : Type) : Type := AstAnnotator TG -> outcome A * AstAnnotator TG.

Definition ret {TG A} (a : A) : M TG A := fun s => (Ok a, s).

Definition raise {TG A} (e : exn) : M TG A := fun s => (Raise e, s).

Definition bind {TG A B} (m : M TG A) (k : A -> M TG B) : M TG B :=
  fun s =>
    match m s with
    | (Ok a, s') => k a s'
    | (Raise e, s') => (Raise e, s')
    end.

Declare Scope py_scope.
Delimit Scope py_scope with py.
Notation "'let*' x ':=' m 'in' k" := (bind m (fun x => k))
  (at level 10, x name, m at level 100, k at level 200) : py_scope.
Notation "m '>>' k" := (bind m (fun _ => k))
  (at level 100, k at level 200, right associativity) : py_scope.
#[local] Open Scope py_scope.

(** ** Operations on Python objects *)

Definition of_nat (i : nat) : string := NilEmpty.string_of_uint (Nat.to_uint i).

(** [s in t] for strings: [s] occurs in [t]. *)
Definition str_in (s t : string) : bool :=
  match String.index 0 s t with Some _ => true | None => false end.

(** The string [' \t']: a space and a tab. *)
Definition blank : string :=
  String (ascii_of_nat 32) (String (ascii_of_nat 9) EmptyString).

(** [''.join(itertools.takewhile(lambda s: s in ' \t', line))]. *)
Fixpoint takewhile_blank (line : string) : string :=
  match line with
  | String c rest =>
      if str_in (String c EmptyString) blank
      then String c (takewhile_blank rest)
      else EmptyString
  | EmptyString => EmptyString
  end.

(** [s[n:]]. *)
Definition str_from (n : nat) (s : string) : string :=
  String.substring n (String.length s - n) s.

(** [s.split(sep)] for a one-character separator. *)
Fixpoint split_on (sep : ascii) (s : string) : list string :=
  match s with
  | EmptyString => [EmptyString]
  | String c rest =>
      if Ascii.eqb c sep then EmptyString :: split_on sep rest
      else match split_on sep rest with
           | p :: ps => String c p :: ps
           | [] => [String c EmptyString]
           end
  end.

(** [l[i]] on a Python list: negative indices count from the end. *)
Definition py_index {A} (l : list A) (i : Z) : option A :=
  let n := Z.of_nat (length l) in
  if (0 <=? i) && (i <? n) then l !! Z.to_nat i
  else if (- n <=? i) && (i <? 0) then l !! Z.to_nat (n + i)
  else None.

Section Annotate.

Context {TG : Type}.

(** [self.tokens]' class. *)
Variable tg : TokenGenerator TG.

(** [ast_constants.NODE_TYPE_TO_TOKENS]: the tokens of an operator class, by
    class name; [None] for a class that is not a key. *)
Variable NODE_TYPE_TO_TOKENS : string -> option (list string).

(** [ast_utils.find_starargs]: the position of [*args] in a call. *)
Variable find_starargs : node -> outcome value.

#[local] Abbreviation M := (M TG).
#[local] Abbreviation AstAnnotator := (AstAnnotator TG).

(** *** State access *)

Definition get : M AstAnnotator := fun s => (Ok s, s).

Definition set_tokens (t : TG) (s : AstAnnotator) : AstAnnotator :=
  {| tokens := t; _indent := _indent s; _indent_diff := _indent_diff s;
     _stack := _stack s; props := props s; attrs := attrs s |}.

Definition set_indent (i d : string) (s : AstAnnotator) : AstAnnotator :=
  {| tokens := tokens s; _indent := i; _indent_diff := d;
     _stack := _stack s; props := props s; attrs := attrs s |}.

Definition set_stack (st : list node) (s : AstAnnotator) : AstAnnotator :=
  {| tokens := tokens s; _indent := _indent s; _indent_diff := _indent_diff s;
     _stack := st; props := props s; attrs := attrs s |}.

Definition set_props (p : gmap (nat * string) value) (s : AstAnnotator) : AstAnnotator :=
  {| tokens := tokens s; _indent := _indent s; _indent_diff := _indent_diff s;
     _stack := _stack s; props := p; attrs := attrs s |}.

Definition set_attrs (a : gmap (nat * string) value) (s : AstAnnotator) : AstAnnotator :=
  {| tokens := tokens s; _indent := _indent s; _indent_diff := _indent_diff s;
     _stack := _stack s; props := props s; attrs := a |}.

Definition modify (f : AstAnnotator -> AstAnnotator) : M unit :=
  fun s => (Ok tt, f s).

(** A call [self.tokens.<op>(...)]. *)
Definition on_tokens {A} (op : TG -> outcome A * TG) : M A :=
  fun s => let '(r, t) := op (tokens s) in (r, set_tokens t s).

(** *** ast_utils *)

(** Modelled from the spec: [ast_utils.setup_props] is missing; the side
    table needs no set-up, and existing properties are kept. *)
Definition setup_props (n : node) : M unit := ret tt.

(** Modelled from the spec: [ast_utils.prop] is missing; it reads the
    property, [None] when it was never set. *)
Definition prop (n : node) (name : string) : M value :=
  fun s => (Ok (default VNone (props s !! (nid n, name))), s).

(** Modelled from the spec: [ast_utils.setprop] is missing; it stores the
    value under (node, name). *)
Definition setprop (n : node) (name : string) (v : value) : M unit :=
  modify (fun s => set_props (<[(nid n, name) := v]> (props s)) s).

(** Modelled from the spec: [ast_utils.appendprop] is missing; it appends to
    the text recorded under (node, name), the empty text when none is. *)
Definition appendprop (n : node) (name : string) (v : string) : M unit :=
  modify (fun s =>
    let old := match props s !! (nid n, name) with
               | Some (VStr o) => o
               | _ => EmptyString
               end in
    set_props (<[(nid n, name) := VStr (old +:+ v)]> (props s)) s).

(** *** Attribute access on nodes *)

(** The attribute [name] of node [n] in state [s]: one assigned while
    annotating, else a field, else one of [_attributes]. *)
Definition lookup_attr (s : AstAnnotator) (n : node) (name : string) : option value :=
  match attrs s !! (nid n, name) with
  | Some v => Some v
  | None =>
      match assoc name (fields n) with
      | Some v => Some v
      | None => assoc name (attributes n)
      end
  end.

(** [node.name]. *)
Definition getattr (n : node) (name : string) : M value :=
  fun s =>
    match lookup_attr s n name with
    | Some v => (Ok v, s)
    | None => (Raise (PyExc AttributeError), s)
    end.

(** [getattr(node, name, d)]. *)
Definition getattr_default (n : node) (name : string) (d : value) : M value :=
  fun s => (Ok (default d (lookup_attr s n name)), s).

(** [hasattr(node, name)]. *)
Definition hasattr (n : node) (name : string) : M bool :=
  fun s => (Ok (bool_decide (is_Some (lookup_attr s n name))), s).

(** [node.name = v]. *)
Definition setattr (n : node) (name : string) (v : value) : M unit :=
  modify (fun s => set_attrs (<[(nid n, name) := v]> (attrs s)) s).

(** [v.name] for an arbitrary object: only nodes have attributes here. *)
Definition getattr_value (v : value) (name : string) : M value :=
  match v with
  | VNode n => getattr n name
  | _ => raise (PyExc AttributeError)
  end.

(** [len(v)]. *)
Definition py_len (v : value) : M Z :=
  match v with
  | VList l => ret (Z.of_nat (length l))
  | VStr s => ret (Z.of_nat (String.length s))
  | _ => raise (PyExc TypeError)
  end.

(** The elements [for x in v] iterates over. *)
Definition py_iter (v : value) : M (list value) :=
  match v with
  | VList l => ret l
  | VStr s => ret ((fun c => VStr (String c EmptyString)) <$> String.list_ascii_of_string s)
  | _ => raise (PyExc TypeError)
  end.

(** [v[i]]. *)
Definition py_getitem (v : value) (i : Z) : M value :=
  match v with
  | VList l =>
      match py_index l i with
      | Some x => ret x
      | None => raise (PyExc IndexError)
      end
  | VStr s =>
      match py_index (String.list_ascii_of_string s) i with
      | Some c => ret (VStr (String c EmptyString))
      | None => raise (PyExc IndexError)
      end
  | _ => raise (PyExc TypeError)
  end.

(** [v.src] for the result of a token generator call. *)
Definition token_src (t : option Token) : M string :=
  match t with
  | Some tok => ret (src tok)
  | None => raise (PyExc AttributeError)
  end.

(** [for i, x in enumerate(l): body(i, x)]. *)
Fixpoint for_enumerate_from {A} (i : nat) (l : list A) (body : nat -> A -> M unit) : M unit :=
  match l with
  | [] => ret tt
  | x :: l' => body i x >> for_enumerate_from (S i) l' body
  end.

Definition for_enumerate {A} (l : list A) (body : nat -> A -> M unit) : M unit :=
  for_enumerate_from 0%nat l body.

(** [for x in l: body(x)]. *)
Definition for_each {A} (l : list A) (body : A -> M unit) : M unit :=
  for_enumerate l (fun _ => body).


(** *** Comparisons *)

(** [a is b].  Nodes are compared by identity; [None], [True] and [False]
    are singletons; numbers and strings, which the tree holds as field
    values only, are compared by value. *)
Definition py_is (a b : value) : bool :=
  match a, b with
  | VNode x, VNode y => node_is x y
  | VNone, VNone => true
  | VBool x, VBool y => Bool.eqb x y
  | VInt x, VInt y => x =? y
  | VStr x, VStr y => String.eqb x y
  | _, _ => false
  end.

(** [a == b]: [ast.AST] defines no [__eq__], so nodes compare by identity. *)
Definition py_eq (a b : value) : bool := py_is a b.

(** [token.src != token_val] is false only for the same string. *)
Definition src_eq (src : string) (token_val : value) : bool :=
  match token_val with
  | VStr s => String.eqb src s
  | _ => false
  end.

(** [v - 1]. *)
Definition py_sub1 (v : value) : M Z :=
  match v with
  | VInt z => ret (z - 1)
  | VBool b => ret ((if b then 1 else 0) - 1)
  | _ => raise (PyExc TypeError)
  end.

(** ** AstAnnotator: the driver *)

(** [AstAnnotator.ws]: parse some whitespace from the source tokens. *)
Definition ws (max_lines : option Z) : M string :=
  on_tokens (whitespace tg max_lines).

(** [BaseVisitor.ws_oneline]. *)
Definition ws_oneline : M string := ws (Some 1).

(** [AstAnnotator.token]: parse a single token with exactly the given
    value. *)
Definition token (token_val : value) : M string :=
  let* token := on_tokens (next tg) in
  match token with
  | None => raise (PyExc AttributeError)
  | Some token =>
      if negb (src_eq (src token) token_val) then
        raise (AnnotationError
                 (Expected token_val (src token) (fst (start token)) (line token)))
      else
        (if str_in (src token) "({[" then on_tokens (hint_open tg)
         else if str_in (src token) ")}]" then on_tokens (hint_closed tg)
         else ret tt) >>
        ret (src token)
  end.

(** [AstAnnotator.optional_token]: try to parse a token and attach it to the
    node. *)
Definition optional_token (node : node) (attr_name : string) (token_val : string)
  : M unit :=
  let* s := get in
  match peek tg (tokens s) with
  | Some token =>
      if String.eqb (src token) token_val then
        on_tokens (next tg) >>
        let* w := ws None in
        appendprop node attr_name (src token +:+ w)
      else ret tt
  | None => ret tt
  end.

(** The entries of an [attr_vals] list: an object of the tree (a string
    stands for the token to match), or one of the parsing functions the
    visit methods pass: [self.ws] and [lambda: self.ws(max_lines=n)],
    [self.ws_oneline], [lambda: self.tokens.next_of_type(t).src],
    [self.tokens.str]. *)
Inductive attr_val : Type :=
| Tok (v : value)
| Fws (max_lines : option Z)
| Fws_oneline
| Fnext_of_type_src (t : nat)
| Fstr.

(** One step of the loop of [attr]: a string is matched as a token, anything
    else is called; calling an object of the tree fails. *)
Definition attr_part (attr_val : attr_val) : M string :=
  match attr_val with
  | Tok (VStr s) => token (VStr s)
  | Tok _ => raise (PyExc TypeError)
  | Fws max_lines => ws max_lines
  | Fws_oneline => ws_oneline
  | Fnext_of_type_src t =>
      let* tok := on_tokens (next_of_type tg t) in
      token_src tok
  | Fstr => on_tokens (str tg)
  end.

Fixpoint attr_parts (attr_vals : list attr_val) : M (list string) :=
  match attr_vals with
  | [] => ret []
  | attr_val :: rest =>
      let* part := attr_part attr_val in
      let* parts := attr_parts rest in
      ret (part :: parts)
  end.

(** The loop over [deps] of [attr]. *)
Definition snapshot_deps (node : node) (deps : list string) : M unit :=
  for_each deps (fun dep =>
    let* v := getattr_default node dep VNone in
    setprop node (dep +:+ "__src") v).

(** [AstAnnotator.attr]: parses some source and sets an attribute on the
    given node.  [deps] is [[]] for [None]; [default] is unused. *)
Definition attr (node : node) (attr_name : string) (attr_vals : list attr_val)
    (deps : list string) : M unit :=
  snapshot_deps node deps >>
  let* attr_parts := attr_parts attr_vals in
  setprop node attr_name (VStr (String.concat EmptyString attr_parts)).

(** [BaseVisitor.prefix] and [BaseVisitor.suffix]. *)
Definition prefix (node : node) : M unit :=
  attr node "prefix" [Fws None] [].

Definition suffix (node : node) (max_lines : option Z) : M unit :=
  attr node "suffix" [Fws max_lines] [].

(** [with self.scope(node): body], for [AstAnnotator.scope], which returns
    [self.tokens.scope(node)].  An exception in [body] propagates. *)
Definition scope (node : node) (body : M unit) : M unit :=
  on_tokens (scope_enter tg node) >>
  body >>
  on_tokens (scope_exit tg node).

Definition indent_error : exn :=
  AnnotationError (Message
    "Indent detection failed; inner indentation level is not more than the outer indentation.").

(** [AstAnnotator.indented]: annotate children with their indentation level
    and iterate over them.  The method is a generator, consumed by
    [for stmt in self.indented(node, attr): body(stmt)]; [body] is the body
    of that loop. *)
Definition indented (node : node) (children_attr : string) (body : value -> M unit)
  : M unit :=
  let* children := getattr node children_attr in
  let* s := get in
  let cur_loc := _loc tg (tokens s) in
  let* next_loc :=
    match peek tg (tokens s) with
    | Some tok => ret (start tok)
    | None => raise (PyExc AttributeError)
    end in
  let* n := py_len children in
  if (n =? 1) && (fst cur_loc =? fst next_loc) then
    let* child := py_getitem children 0 in
    body child
  else
    let prev_indent := _indent s in
    let prev_indent_diff := _indent_diff s in
    let* child0 := py_getitem children 0 in
    let* lineno := getattr_value child0 "lineno" in
    let* i := py_sub1 lineno in
    let* line :=
      match py_index (lines tg (tokens s)) i with
      | Some l => ret l
      | None => raise (PyExc IndexError)
      end in
    let new_indent := takewhile_blank line in
    if negb (String.prefix prev_indent new_indent)
       || (String.length new_indent <=? String.length prev_indent)%nat
    then raise indent_error
    else
      modify (set_indent new_indent
                (str_from (String.length prev_indent) new_indent)) >>
      let* l := py_iter children in
      for_each l body >>
      let* s' := get in
      let* block_suffix := on_tokens (block_whitespace tg (_indent s')) in
      setprop node ("block_suffix_" +:+ children_attr) (VStr block_suffix) >>
      modify (set_indent prev_indent prev_indent_diff).

(** [AstAnnotator.check_is_elif]: true iff the If node is an [elif] in the
    source. *)
Definition check_is_elif (node : value) : M bool :=
  let* next_tok := on_tokens (next_name tg) in
  if isinstance node "If" then
    let* src := token_src next_tok in
    ret (String.eqb src "elif")
  else ret false.

(** [AstAnnotator.check_is_continued_with]: true iff the With node is a
    continued [with] in the source. *)
Definition check_is_continued_with (node : value) : M bool :=
  if isinstance node "With" then
    let* s := get in
    let* src := token_src (peek tg (tokens s)) in
    ret (String.eqb src ",")
  else ret false.

(** *** Decorating nodes with prefix and suffix *)

Definition _gen_wrapper (f : node -> M unit) (scope_ prefix_ suffix_ : bool)
    (max_suffix_lines : option Z) (node : node) : M unit :=
  let wrapped :=
    (if prefix_ then prefix node else ret tt) >>
    f node >>
    (if suffix_ then suffix node max_suffix_lines else ret tt) in
  if scope_ then scope node wrapped else wrapped.

Definition expression (f : node -> M unit) : node -> M unit :=
  _gen_wrapper f true true true (Some 0).

Definition space_around (f : node -> M unit) : node -> M unit :=
  _gen_wrapper f false true true None.

Definition space_left (f : node -> M unit) : node -> M unit :=
  _gen_wrapper f false true false None.

Definition statement (f : node -> M unit) : node -> M unit :=
  _gen_wrapper f false true true (Some 1).

Definition block_statement (f : node -> M unit) : node -> M unit :=
  _gen_wrapper f false true false None.

(** ** BaseVisitor: the order in which nodes and tokens appear *)

Section Visitors.

(** [self.visit], the method the visit methods recurse through. *)
Variable visit : node -> M unit.

(** [self.visit(v)] for an object of the tree.  A property cannot be set on
    an object that is not a node. *)
Definition visit_value (v : value) : M unit :=
  match v with
  | VNode n => visit n
  | _ => raise (PyExc AttributeError)
  end.

(** [self.visit(node.<name>)]. *)
Definition visit_attr (node : node) (name : string) : M unit :=
  let* v := getattr node name in
  visit_value v.

(** [for x in node.<name>: self.visit(x)]. *)
Definition visit_each (node : node) (name : string) : M unit :=
  let* v := getattr node name in
  let* l := py_iter v in
  for_each l visit_value.

(** [if node.<name>: body]. *)
Definition if_attr (node : node) (name : string) (body : M unit) : M unit :=
  let* v := getattr node name in
  if truthy v then body else ret tt.

(** [self.token(v)] as a statement. *)
Definition do_token (token_val : value) : M unit :=
  token token_val >> ret tt.

(** [NODE_TYPE_TO_TOKENS[type(v)][0]]. *)
Definition node_type_token (v : value) : M string :=
  match v with
  | VNode n =>
      match NODE_TYPE_TO_TOKENS (cls n) with
      | Some (t :: _) => ret t
      | Some [] => raise (PyExc IndexError)
      | None => raise (PyExc KeyError)
      end
  | _ => raise (PyExc KeyError)
  end.

(** The slot [[self.ws, ':', self.ws_oneline]] that opens a block. *)
Definition open_block_vals : list attr_val := [Fws None; Tok (VStr ":"); Fws_oneline].

(** The list [[self.ws, tok, self.ws]]. *)
Definition ws_tok_ws (tok : string) : list attr_val := [Fws None; Tok (VStr tok); Fws None].

(** [ast.NodeVisitor.generic_visit]. *)
Definition generic_visit (node : node) : M unit :=
  for_each (fields node) (fun field =>
    let* value := getattr node (fst field) in
    match value with
    | VList l =>
        for_each l (fun item =>
          match item with
          | VNode n => visit n
          | _ => ret tt
          end)
    | VNode n => visit n
    | _ => ret tt
    end).

(** *** Block statements *)

Definition visit_Module : node -> M unit :=
  block_statement (fun node =>
    generic_visit node >>
    attr node "suffix" [Fws None] []).

(** The statement [if node.orelse: ...] that ends [visit_If]. *)
Definition visit_If_orelse (node : node) : M unit :=
  let* orelse := getattr node "orelse" in
  if truthy orelse then
    let* n := py_len orelse in
    let* chained :=
      if n =? 1 then
        let* orelse0 := py_getitem orelse 0 in
        if isinstance orelse0 "If" then check_is_elif orelse0 else ret false
      else ret false in
    if chained then
      let* orelse0 := py_getitem orelse 0 in
      match orelse0 with
      | VNode n0 => setprop n0 "is_elif" (VBool true) >> visit n0
      | _ => raise (PyExc AttributeError)
      end
    else
      attr node "elseprefix" [Fws None] [] >>
      do_token (VStr "else") >>
      attr node "open_else" open_block_vals [] >>
      indented node "orelse" visit_value
  else ret tt.

Definition visit_If : node -> M unit :=
  block_statement (fun node =>
    let* is_elif := prop node "is_elif" in
    let tok := if truthy is_elif then "elif" else "if" in
    attr node "open_if" [Tok (VStr tok); Fws None] [] >>
    visit_attr node "test" >>
    attr node "open_block" open_block_vals [] >>
    indented node "body" visit_value >>
    visit_If_orelse node).

Definition else_vals : list attr_val :=
  [Fws None; Tok (VStr "else"); Fws None; Tok (VStr ":"); Fws_oneline].

Definition visit_While : node -> M unit :=
  block_statement (fun node =>
    attr node "while_keyword" [Tok (VStr "while"); Fws None] [] >>
    visit_attr node "test" >>
    attr node "open_block" open_block_vals [] >>
    indented node "body" visit_value >>
    if_attr node "orelse" (
      attr node "else" else_vals [] >>
      indented node "orelse" visit_value)).

Definition visit_For : node -> M unit :=
  block_statement (fun node =>
    attr node "for_keyword" [Tok (VStr "for"); Fws None] [] >>
    visit_attr node "target" >>
    attr node "for_in" (ws_tok_ws "in") [] >>
    visit_attr node "iter" >>
    attr node "open_block" open_block_vals [] >>
    indented node "body" visit_value >>
    if_attr node "orelse" (
      attr node "else" else_vals [] >>
      indented node "orelse" visit_value)).

Definition visit_With_3 (node : node) : M unit :=
  do_token (VStr "with") >>
  let* items := getattr node "items" in
  let* l := py_iter items in
  for_enumerate l (fun i withitem =>
    visit_value withitem >>
    let* items := getattr node "items" in
    let* n := py_len items in
    if negb (Z.of_nat i =? n - 1) then do_token (VStr ",") else ret tt) >>
  attr node "with_body_open" [Tok (VStr ":"); Fws_oneline] [] >>
  indented node "body" visit_value.

(** The statement [if not getattr(node, 'is_continued', False): ...] of
    [visit_With]. *)
Definition visit_With_keyword (node : node) : M unit :=
  let* is_continued := getattr_default node "is_continued" (VBool false) in
  if negb (truthy is_continued)
  then attr node "with" [Tok (VStr "with"); Fws None] []
  else ret tt.

(** The statement [if len(node.body) == 1 and
    self.check_is_continued_with(node.body[0]): ... else: ...] of
    [visit_With]. *)
Definition visit_With_open (node : node) : M unit :=
  let* body := getattr node "body" in
  let* n := py_len body in
  let* continued :=
    if n =? 1 then
      let* body0 := py_getitem body 0 in
      check_is_continued_with body0
    else ret false in
  if continued then
    let* body0 := py_getitem body 0 in
    match body0 with
    | VNode n0 => setattr n0 "is_continued" (VBool true)
    | _ => raise (PyExc AttributeError)
    end >>
    attr node "with_comma" (ws_tok_ws ",") []
  else
    attr node "open_block" open_block_vals [].

Definition visit_With : node -> M unit :=
  block_statement (fun node =>
    let* has_items := hasattr node "items" in
    if has_items then visit_With_3 node
    else
      visit_With_keyword node >>
      visit_attr node "context_expr" >>
      if_attr node "optional_vars" (
        attr node "with_as" (ws_tok_ws "as") [] >>
        visit_attr node "optional_vars") >>
      visit_With_open node >>
      indented node "body" visit_value).

Definition visit_withitem : node -> M unit :=
  space_around (fun node =>
    visit_attr node "context_expr" >>
    if_attr node "optional_vars" (
      attr node "as" (ws_tok_ws "as") [] >>
      visit_attr node "optional_vars")).

Definition visit_ClassDef : node -> M unit :=
  block_statement (fun node =>
    let* decorator_list := getattr node "decorator_list" in
    let* l := py_iter decorator_list in
    for_enumerate l (fun i decorator =>
      attr node ("decorator_prefix_" +:+ of_nat i) [Fws None; Tok (VStr "@")] [] >>
      visit_value decorator >>
      attr node ("decorator_suffix_" +:+ of_nat i) [Fws None] []) >>
    let* name := getattr node "name" in
    attr node "class_def" [Tok (VStr "class"); Fws None; Tok name; Fws None] ["name"] >>
    let* bases := getattr node "bases" in
    (if truthy bases then do_token (VStr "(")
     else optional_token node "open_bases" "(") >>
    let* l := py_iter bases in
    for_enumerate l (fun i base =>
      visit_value base >>
      attr node ("base_suffix_" +:+ of_nat i) [Fws None] [] >>
      let* bases := getattr node "bases" in
      let* last := py_getitem bases (-1) in
      if negb (py_eq base last) then do_token (VStr ",") else ret tt) >>
    let* bases := getattr node "bases" in
    (if truthy bases then
       optional_token node "bases_extracomma" "," >>
       do_token (VStr ")")
     else optional_token node "close_bases" ")") >>
    attr node "open_block" open_block_vals [] >>
    indented node "body" visit_value).

Definition visit_FunctionDef : node -> M unit :=
  block_statement (fun node =>
    let* decorator_list := getattr node "decorator_list" in
    let* l := py_iter decorator_list in
    for_enumerate l (fun i decorator =>
      attr node ("decorator_symbol_" +:+ of_nat i) (ws_tok_ws "@") [] >>
      visit_value decorator >>
      attr node ("decorator_suffix_" +:+ of_nat i) [Fws_oneline] []) >>
    let* name := getattr node "name" in
    attr node "function_def"
      [Fws None; Tok (VStr "def"); Fws None; Tok name; Fws None; Tok (VStr "(")]
      ["name"] >>
    visit_attr node "args" >>
    attr node "function_def_close" (ws_tok_ws ")") [] >>
    let* returns := getattr_default node "returns" VNone in
    (if truthy returns then
       attr node "returns_prefix" (ws_tok_ws "->") ["returns"] >>
       visit_attr node "returns"
     else ret tt) >>
    attr node "open_block" open_block_vals [] >>
    indented node "body" visit_value).

Definition try_vals : list attr_val :=
  [Tok (VStr "try"); Fws None; Tok (VStr ":"); Fws_oneline].

Definition ws_keyword_block (kw : string) : list attr_val :=
  [Fws None; Tok (VStr kw); Fws None; Tok (VStr ":"); Fws_oneline].

Definition visit_TryFinally : node -> M unit :=
  block_statement (fun node =>
    let* body := getattr node "body" in
    let* body0 := py_getitem body 0 in
    (if negb (isinstance body0 "TryExcept")
     then attr node "open_try" try_vals []
     else ret tt) >>
    visit_each node "body" >>
    attr node "open_finally" (ws_keyword_block "finally") [] >>
    indented node "finalbody" visit_value).

Definition visit_TryExcept : node -> M unit :=
  block_statement (fun node =>
    attr node "open_try" try_vals [] >>
    visit_each node "body" >>
    visit_each node "handlers" >>
    if_attr node "orelse" (
      attr node "open_else" (ws_keyword_block "else") [] >>
      indented node "orelse" visit_value)).

Definition visit_Try : node -> M unit :=
  block_statement (fun node =>
    attr node "open_try" (ws_keyword_block "try") [] >>
    visit_each node "body" >>
    visit_each node "handlers" >>
    if_attr node "orelse" (
      attr node "open_else" (ws_keyword_block "else") [] >>
      indented node "orelse" visit_value) >>
    if_attr node "finalbody" (
      attr node "open_finally" (ws_keyword_block "finally") [] >>
      indented node "finalbody" visit_value)).

Definition visit_ExceptHandler : node -> M unit :=
  block_statement (fun node =>
    do_token (VStr "except") >>
    if_attr node "type" (visit_attr node "type") >>
    let* type := getattr node "type" in
    (if truthy type then
       if_attr node "name" (attr node "as" (ws_tok_ws "as") [])
     else ret tt) >>
    if_attr node "name" (
      let* name := getattr node "name" in
      if isinstance_AST name then visit_value name else do_token name) >>
    attr node "open_block" open_block_vals [] >>
    indented node "body" visit_value).

Definition visit_Raise_3 (node : node) : M unit :=
  let* exc := getattr node "exc" in
  if truthy exc then
    attr node "open_raise" [Tok (VStr "raise"); Fws None] [] >>
    visit_attr node "exc" >>
    if_attr node "cause" (
      attr node "cause_prefix" (ws_tok_ws "from") [] >>
      visit_attr node "cause")
  else do_token (VStr "raise").

Definition visit_Raise : node -> M unit :=
  statement (fun node =>
    let* has_cause := hasattr node "cause" in
    if has_cause then visit_Raise_3 node
    else
      do_token (VStr "raise") >>
      if_attr node "type" (visit_attr node "type") >>
      if_attr node "inst" (
        attr node "inst_prefix" (ws_tok_ws ",") [] >>
        visit_attr node "inst") >>
      if_attr node "tback" (
        attr node "tback_prefix" (ws_tok_ws ",") [] >>
        visit_attr node "tback")).

(** *** Statements *)

Definition visit_Assert : node -> M unit :=
  statement (fun node =>
    do_token (VStr "assert") >>
    visit_attr node "test" >>
    if_attr node "msg" (
      do_token (VStr ",") >>
      visit_attr node "msg")).

Definition visit_Assign : node -> M unit :=
  statement (fun node =>
    let* targets := getattr node "targets" in
    let* l := py_iter targets in
    for_enumerate l (fun i target =>
      visit_value target >>
      attr node ("equal_" +:+ of_nat i) (ws_tok_ws "=") []) >>
    visit_attr node "value").

Definition visit_AugAssign : node -> M unit :=
  statement (fun node =>
    visit_attr node "target" >>
    let* op := getattr node "op" in
    let* t := node_type_token op in
    let op_token := t +:+ "=" in
    attr node "operator" (ws_tok_ws op_token) [] >>
    visit_attr node "value").

Definition visit_Break : node -> M unit :=
  statement (fun node => do_token (VStr "break")).

Definition visit_Continue : node -> M unit :=
  statement (fun node => do_token (VStr "continue")).

(** [for i, x in enumerate(node.<name>): self.visit(x); if x is not
    node.<name>[-1]: self.attr(node, slot % i, [self.ws, ',', self.ws])];
    [visit_Import] writes the test with [!=], which is [is not] on nodes. *)
Definition visit_comma_separated (node : node) (name : string) (slot : string) : M unit :=
  let* v := getattr node name in
  let* l := py_iter v in
  for_enumerate l (fun i x =>
    visit_value x >>
    let* v := getattr node name in
    let* last := py_getitem v (-1) in
    if negb (py_is x last)
    then attr node (slot +:+ of_nat i) (ws_tok_ws ",") []
    else ret tt).

Definition visit_Delete : node -> M unit :=
  statement (fun node =>
    attr node "del" [Tok (VStr "del"); Fws None] [] >>
    visit_comma_separated node "targets" "comma_").

Definition visit_Exec : node -> M unit :=
  statement (fun node =>
    attr node "exec" [Tok (VStr "exec"); Fws None] [] >>
    visit_attr node "body" >>
    if_attr node "globals" (
      attr node "in_globals" (ws_tok_ws "in") [] >>
      visit_attr node "globals" >>
      if_attr node "locals" (
        attr node "in_locals" (ws_tok_ws ",") [] >>
        visit_attr node "locals"))).

Definition visit_Expr : node -> M unit :=
  statement (fun node => visit_attr node "value").

(** The list [identifiers] of [visit_Global] and [visit_Nonlocal]. *)
Definition identifiers (names : list value) : list attr_val :=
  match names with
  | [] => []
  | first :: _ =>
      mjoin ((fun ident =>
                ((if negb (py_eq ident first)
                  then [Fws None; Tok (VStr ",")] else [])
                 ++ [Fws None; Tok ident])%list) <$> names)
  end.

Definition visit_Global : node -> M unit :=
  statement (fun node =>
    do_token (VStr "global") >>
    let* names := getattr node "names" in
    let* l := py_iter names in
    attr node "names" (identifiers l) []).

Definition visit_Import : node -> M unit :=
  statement (fun node =>
    attr node "open_import" [Tok (VStr "import"); Fws None] [] >>
    visit_comma_separated node "names" "alias_sep_").

(** [[self.ws, part, self.ws, '.']] for every part but the last, then
    [[self.ws, parts[-1]]]. *)
Fixpoint dotted_pattern (parts : list string) : list attr_val :=
  match parts with
  | [] => []
  | [last] => [Fws None; Tok (VStr last)]
  | part :: rest =>
      ([Fws None; Tok (VStr part); Fws None; Tok (VStr ".")] ++ dotted_pattern rest)%list
  end.

(** [v.split('.')]. *)
Definition py_split_dot (v : value) : M (list string) :=
  match v with
  | VStr s => ret (split_on "." s)
  | _ => raise (PyExc AttributeError)
  end.

(** [l * v] for a list [l]. *)
Definition py_repeat {A} (l : list A) (v : value) : M (list A) :=
  match v with
  | VInt z => ret (mjoin (replicate (Z.to_nat z) l))
  | VBool b => ret (if b then l else [])
  | _ => raise (PyExc TypeError)
  end.

Definition visit_ImportFrom : node -> M unit :=
  statement (fun node =>
    do_token (VStr "from") >>
    attr node "module_prefix" [Fws None] [] >>
    let* level := getattr node "level" in
    let* dots := py_repeat [Tok (VStr "."); Fws None] level in
    let* module := getattr node "module" in
    let* module_pattern :=
      if truthy module then
        let* parts := py_split_dot module in
        ret (dots ++ dotted_pattern parts)%list
      else ret dots in
    attr node "module" module_pattern ["level"; "module"] >>
    attr node "module_suffix" [Fws None] [] >>
    do_token (VStr "import") >>
    let* names := getattr node "names" in
    let* l := py_iter names in
    for_each l (fun alias =>
      visit_value alias >>
      let* names := getattr node "names" in
      let* last := py_getitem names (-1) in
      if negb (py_eq alias last) then do_token (VStr ",") else ret tt)).

Definition visit_Nonlocal : node -> M unit :=
  statement (fun node =>
    do_token (VStr "nonlocal") >>
    let* names := getattr node "names" in
    let* l := py_iter names in
    attr node "names" (identifiers l) []).

Definition visit_Pass : node -> M unit :=
  statement (fun node => do_token (VStr "pass")).

Definition visit_Print : node -> M unit :=
  statement (fun node =>
    attr node "print_open" [Tok (VStr "print"); Fws None] [] >>
    if_attr node "dest" (
      attr node "redirection" [Tok (VStr ">>"); Fws None] [] >>
      visit_attr node "dest" >>
      let* values := getattr node "values" in
      if truthy values then attr node "values_prefix" (ws_tok_ws ",") []
      else
        let* nl := getattr node "nl" in
        if negb (truthy nl)
        then attr node "trailing_comma" [Fws None; Tok (VStr ",")] []
        else ret tt) >>
    let* values := getattr node "values" in
    let* l := py_iter values in
    for_enumerate l (fun i value =>
      visit_value value >>
      let* values := getattr node "values" in
      let* last := py_getitem values (-1) in
      if negb (py_is value last)
      then attr node ("comma_" +:+ of_nat i) (ws_tok_ws ",") []
      else
        let* nl := getattr node "nl" in
        if negb (truthy nl)
        then attr node "trailing_comma" [Fws None; Tok (VStr ",")] []
        else ret tt)).

Definition visit_Return : node -> M unit :=
  statement (fun node =>
    do_token (VStr "return") >>
    if_attr node "value" (visit_attr node "value")).

Definition visit_Yield : node -> M unit :=
  statement (fun node =>
    do_token (VStr "yield") >>
    if_attr node "value" (visit_attr node "value")).

(** *** Expressions *)

Definition visit_Attribute : node -> M unit :=
  expression (fun node =>
    visit_attr node "value" >>
    attr node "dot" (ws_tok_ws ".") [] >>
    let* a := getattr node "attr" in
    do_token a).

Definition visit_BinOp : node -> M unit :=
  expression (fun node =>
    visit_attr node "left" >>
    visit_attr node "op" >>
    visit_attr node "right").

Definition visit_BoolOp : node -> M unit :=
  expression (fun node =>
    let* op := getattr node "op" in
    let* op_symbol := node_type_token op in
    let* values := getattr node "values" in
    let* l := py_iter values in
    for_enumerate l (fun i value =>
      visit_value value >>
      let* values := getattr node "values" in
      let* last := py_getitem values (-1) in
      if negb (py_is value last)
      then attr node ("op_" +:+ of_nat i) (ws_tok_ws op_symbol) ["op"]
      else ret tt)).

(** [1 if node.<name> else 0]. *)
Definition one_if (node : node) (name : string) : M Z :=
  let* v := getattr node name in
  ret (if truthy v then 1 else 0).

(** [len(node.<name>)]. *)
Definition len_attr (node : node) (name : string) : M Z :=
  let* v := getattr node name in
  py_len v.

(** The [while i < kw_end] loop of [visit_Call], for its [count] remaining
    iterations. *)
Fixpoint visit_Call_keywords (count : nat) (node : node) (i : nat) (kw_idx : Z)
    (num_items : Z) (starargs_idx : value) : M unit :=
  match count with
  | O => ret tt
  | S count' =>
      let* kw_idx' :=
        if py_eq (VInt (Z.of_nat i)) starargs_idx then
          attr node "starargs_prefix" [Fws None; Tok (VStr "*")] [] >>
          visit_attr node "starargs" >>
          ret kw_idx
        else
          let* keywords := getattr node "keywords" in
          let* kw := py_getitem keywords kw_idx in
          visit_value kw >>
          ret (kw_idx + 1) in
      (if Z.of_nat i <? num_items - 1
       then attr node ("comma_" +:+ of_nat i) (ws_tok_ws ",") []
       else ret tt) >>
      visit_Call_keywords count' node (S i) kw_idx' num_items starargs_idx
  end.

Definition visit_Call : node -> M unit :=
  expression (fun node =>
    visit_attr node "func" >>
    attr node "open_call" (ws_tok_ws "(") [] >>
    let* n_args := len_attr node "args" in
    let* n_keywords := len_attr node "keywords" in
    let* n_starargs := one_if node "starargs" in
    let* n_kwargs := one_if node "kwargs" in
    let num_items := n_args + n_keywords + n_starargs + n_kwargs in
    let* args := getattr node "args" in
    let* l := py_iter args in
    for_enumerate l (fun i arg =>
      visit_value arg >>
      if Z.of_nat i <? num_items - 1
      then attr node ("comma_" +:+ of_nat i) (ws_tok_ws ",") []
      else ret tt) >>
    let* starargs_idx := (fun s => (find_starargs node, s)) in
    let* n_args := len_attr node "args" in
    let* n_keywords := len_attr node "keywords" in
    let* n_starargs := one_if node "starargs" in
    let kw_end := n_args + n_keywords + n_starargs in
    visit_Call_keywords (Z.to_nat (kw_end - Z.of_nat (length l))) node (length l) 0
      num_items starargs_idx >>
    if_attr node "kwargs" (
      attr node "kwargs_prefix" (ws_tok_ws "**") [] >>
      visit_attr node "kwargs") >>
    attr node "arguments_suffix" [Fws None] [] >>
    (if 0 <? num_items then optional_token node "extracomma" "," else ret tt) >>
    attr node "close_call" [Fws None; Tok (VStr ")")] []).

(** [zip(a, b)]. *)
Fixpoint zip2 {A B} (a : list A) (b : list B) : list (A * B) :=
  match a, b with
  | x :: a', y :: b' => (x, y) :: zip2 a' b'
  | _, _ => []
  end.

Definition visit_Compare : node -> M unit :=
  expression (fun node =>
    visit_attr node "left" >>
    let* ops := getattr node "ops" in
    let* lo := py_iter ops in
    let* comparators := getattr node "comparators" in
    let* lc := py_iter comparators in
    for_each (zip2 lo lc) (fun oc =>
      visit_value (fst oc) >>
      visit_value (snd oc))).

Definition visit_Dict : node -> M unit :=
  expression (fun node =>
    do_token (VStr "{") >>
    let* n := len_attr node "keys" in
    let* keys := getattr node "keys" in
    let* lk := py_iter keys in
    let* values := getattr node "values" in
    let* lv := py_iter values in
    for_enumerate (zip2 lk lv) (fun i kv =>
      visit_value (fst kv) >>
      attr node ("key_val_sep_" +:+ of_nat i) (ws_tok_ws ":") [] >>
      visit_value (snd kv) >>
      let* values := getattr node "values" in
      let* last := py_getitem values (-1) in
      if negb (py_is (snd kv) last)
      then attr node ("comma_" +:+ of_nat i) (ws_tok_ws ",") []
      else ret tt) >>
    optional_token node "extracomma" "," >>
    attr node "close_prefix" [Fws None; Tok (VStr "}")] []).

(** [for i, comp in enumerate(node.generators)] of the comprehensions. *)
Definition visit_generators (node : node) : M unit :=
  let* generators := getattr node "generators" in
  let* l := py_iter generators in
  for_enumerate l (fun i comp =>
    attr node ("for_" +:+ of_nat i) (ws_tok_ws "for") [] >>
    visit_value comp).

Definition visit_DictComp : node -> M unit :=
  expression (fun node =>
    attr node "open_dict" [Tok (VStr "{"); Fws None] [] >>
    visit_attr node "key" >>
    attr node "key_val_sep" (ws_tok_ws ":") [] >>
    visit_attr node "value" >>
    visit_generators node >>
    attr node "close_dict" [Fws None; Tok (VStr "}")] []).

Definition _comp_exp (node : node) (open_brace close_brace : option string) : M unit :=
  match open_brace with
  | Some b => if truthy (VStr b)
              then attr node "compexp_open" [Tok (VStr b); Fws None] []
              else ret tt
  | None => ret tt
  end >>
  visit_attr node "elt" >>
  visit_generators node >>
  match close_brace with
  | Some b => if truthy (VStr b)
              then attr node "compexp_close" [Fws None; Tok (VStr b)] []
              else ret tt
  | None => ret tt
  end.

Definition visit_GeneratorExp : node -> M unit :=
  expression (fun node => _comp_exp node None None).

Definition visit_IfExp : node -> M unit :=
  expression (fun node =>
    visit_attr node "body" >>
    attr node "if" (ws_tok_ws "if") [] >>
    visit_attr node "test" >>
    attr node "else" (ws_tok_ws "else") [] >>
    visit_attr node "orelse").

Definition visit_Lambda : node -> M unit :=
  expression (fun node =>
    attr node "lambda_def" [Tok (VStr "lambda"); Fws None] [] >>
    visit_attr node "args" >>
    attr node "open_lambda" (ws_tok_ws ":") [] >>
    visit_attr node "body").

(** The elements of a list, set or tuple display, and the optional trailing
    comma when there is an element. *)
Definition visit_elts (node : node) : M unit :=
  visit_comma_separated node "elts" "comma_" >>
  if_attr node "elts" (optional_token node "extracomma" ",").

Definition visit_List : node -> M unit :=
  expression (fun node =>
    attr node "list_open" [Tok (VStr "["); Fws None] [] >>
    visit_elts node >>
    attr node "list_close" [Fws None; Tok (VStr "]")] []).

Definition visit_ListComp : node -> M unit :=
  expression (fun node => _comp_exp node (Some "[") (Some "]")).

Definition visit_Name : node -> M unit :=
  expression (fun node =>
    let* id := getattr node "id" in
    do_token id).

(** [str(v)], for the values of a [NameConstant]; other objects print their
    class. *)
Definition py_str (v : value) : string :=
  match v with
  | VNone => "None"
  | VBool true => "True"
  | VBool false => "False"
  | VInt z => if z <? 0 then "-" +:+ of_nat (Z.to_nat (- z)) else of_nat (Z.to_nat z)
  | VStr s => s
  | VFloat _ _ => "<float>"
  | VComplex _ _ => "<complex>"
  | VList _ => "<list>"
  | VNode n => "<_ast." +:+ cls n +:+ " object>"
  end.

Definition visit_NameConstant : node -> M unit :=
  expression (fun node =>
    let* value := getattr node "value" in
    do_token (VStr (py_str value))).

Definition visit_Repr : node -> M unit :=
  expression (fun node =>
    attr node "repr_open" [Tok (VStr "repr"); Fws None; Tok (VStr "(")] [] >>
    visit_attr node "value" >>
    attr node "repr_close" [Fws None; Tok (VStr ")")] []).

Definition visit_Set : node -> M unit :=
  expression (fun node =>
    attr node "set_open" [Tok (VStr "{"); Fws None] [] >>
    visit_elts node >>
    attr node "set_close" [Fws None; Tok (VStr "}")] []).

Definition visit_SetComp : node -> M unit :=
  expression (fun node => _comp_exp node (Some "{") (Some "}")).

Definition visit_Subscript : node -> M unit :=
  expression (fun node =>
    visit_attr node "value" >>
    visit_attr node "slice").

Definition visit_Tuple : node -> M unit :=
  expression (fun node => visit_elts node).

Definition visit_UnaryOp : node -> M unit :=
  expression (fun node =>
    visit_attr node "op" >>
    visit_attr node "operand").

(** *** Operators and tokens *)

(** The body the operator methods share:
    [self.token(ast_constants.NODE_TYPE_TO_TOKENS[type(node)][0])]. *)
Definition visit_operator : node -> M unit :=
  space_around (fun node =>
    let* t := node_type_token (VNode node) in
    do_token (VStr t)).

Definition visit_IsNot : node -> M unit :=
  space_around (fun node =>
    attr node "content" [Tok (VStr "is"); Fws None; Tok (VStr "not")] []).

Definition visit_NotIn : node -> M unit :=
  space_around (fun node =>
    attr node "content" [Tok (VStr "not"); Fws None; Tok (VStr "in")] []).

(** *** Nodes which are neither statements nor expressions *)

Definition visit_alias : node -> M unit :=
  space_left (fun node =>
    let* name := getattr node "name" in
    let* parts := py_split_dot name in
    attr node "name" (dotted_pattern parts) ["name"] >>
    let* asname := getattr node "asname" in
    if negb (py_is asname VNone) then
      attr node "asname" (ws_tok_ws "as") [] >>
      let* asname := getattr node "asname" in
      do_token asname
    else ret tt).

Definition visit_arg : node -> M unit :=
  space_around (fun node =>
    let* arg := getattr node "arg" in
    do_token arg >>
    let* annotation := getattr node "annotation" in
    if negb (py_is annotation VNone) then
      attr node "annotation_prefix" (ws_tok_ws ":") [] >>
      visit_attr node "annotation"
    else ret tt).

(** [self.visit(v) if isinstance(v, ast.AST) else (self.token(v);
    self.attr(node, suffix, [self.ws]))], for [vararg] and [kwarg]. *)
Definition visit_or_token (node : node) (name suffix_name : string) : M unit :=
  let* v := getattr node name in
  if isinstance_AST v then visit_value v
  else
    do_token v >>
    attr node suffix_name [Fws None] [].

Definition visit_arguments : node -> M unit :=
  space_around (fun node =>
    let* n_args := len_attr node "args" in
    let* n_vararg := one_if node "vararg" in
    let* n_kwarg := one_if node "kwarg" in
    let total_args := n_args + n_vararg + n_kwarg in
    let* defaults := getattr node "defaults" in
    let* args := getattr node "args" in
    let* largs := py_iter args in
    let* n_defaults := if truthy defaults then py_len defaults else ret 0 in
    let cut := (length largs - Z.to_nat n_defaults)%nat in
    let positional := if truthy defaults then take cut largs else largs in
    let keyword := if truthy defaults then drop cut largs else largs in
    for_enumerate positional (fun i arg =>
      visit_value arg >>
      let arg_i := S i in
      if Z.of_nat arg_i <? total_args
      then attr node ("comma_" +:+ of_nat arg_i) (ws_tok_ws ",") []
      else ret tt) >>
    let* defaults := getattr node "defaults" in
    let* ldefaults := py_iter defaults in
    let pairs := zip2 keyword ldefaults in
    for_enumerate pairs (fun i arg_default =>
      visit_value (fst arg_default) >>
      attr node ("default_" +:+ of_nat i) (ws_tok_ws "=") [] >>
      visit_value (snd arg_default) >>
      let arg_i := (length positional + S i)%nat in
      if Z.of_nat arg_i <? total_args
      then attr node ("comma_" +:+ of_nat arg_i) (ws_tok_ws ",") []
      else ret tt) >>
    if_attr node "vararg" (
      attr node "vararg_prefix" (ws_tok_ws "*") [] >>
      visit_or_token node "vararg" "vararg_suffix" >>
      let arg_i := (length positional + length pairs + 1)%nat in
      if Z.of_nat arg_i <? total_args then do_token (VStr ",") else ret tt) >>
    if_attr node "kwarg" (
      attr node "kwarg_prefix" (ws_tok_ws "**") [] >>
      visit_or_token node "kwarg" "kwarg_suffix") >>
    let* vararg := getattr node "vararg" in
    let* kwarg := getattr node "kwarg" in
    if truthy (VList positional) || truthy (VList keyword)
       || truthy vararg || truthy kwarg
    then optional_token node "extracomma" ","
    else ret tt).

Definition visit_comprehension : node -> M unit :=
  space_around (fun node =>
    visit_attr node "target" >>
    attr node "in" (ws_tok_ws "in") [] >>
    visit_attr node "iter" >>
    let* ifs := getattr node "ifs" in
    let* l := py_iter ifs in
    for_enumerate l (fun i if_expr =>
      attr node ("if_" +:+ of_nat i) (ws_tok_ws "if") [] >>
      visit_value if_expr)).

Definition visit_keyword : node -> M unit :=
  space_around (fun node =>
    let* arg := getattr node "arg" in
    do_token arg >>
    attr node "eq" [Fws None; Tok (VStr "=")] [] >>
    visit_attr node "value").

(** [len(self._stack) > 1 and not isinstance(self._stack[-2], ast.ExtSlice)];
    the end of the list is the top of the stack. *)
Definition not_in_ExtSlice : M bool :=
  let* s := get in
  ret match rev (_stack s) with
      | _ :: parent :: _ => negb (isinstance (VNode parent) "ExtSlice")
      | _ => false
      end.

Definition visit_Index : node -> M unit :=
  space_left (fun node =>
    let* b := not_in_ExtSlice in
    (if b then attr node "index_open" [Tok (VStr "["); Fws None] [] else ret tt) >>
    visit_attr node "value" >>
    let* b := not_in_ExtSlice in
    if b then attr node "index_close" [Fws None; Tok (VStr "]")] [] else ret tt).

Definition visit_ExtSlice : node -> M unit :=
  space_left (fun node =>
    do_token (VStr "[") >>
    visit_comma_separated node "dims" "dim_sep_" >>
    do_token (VStr "]")).

Definition visit_Slice : node -> M unit :=
  space_left (fun node =>
    let* b := not_in_ExtSlice in
    (if b then attr node "index_open" [Tok (VStr "["); Fws None] [] else ret tt) >>
    if_attr node "lower" (visit_attr node "lower") >>
    attr node "lowerspace" (ws_tok_ws ":") [] >>
    if_attr node "upper" (visit_attr node "upper") >>
    if_attr node "step" (
      attr node "stepspace" (ws_tok_ws ":") [] >>
      visit_attr node "step") >>
    let* b := not_in_ExtSlice in
    if b then attr node "index_close" [Fws None; Tok (VStr "]")] [] else ret tt).

(** *** The methods AstAnnotator defines itself *)

(** [v < 0]. *)
Definition py_lt0 (v : value) : M bool :=
  match v with
  | VInt z => ret (z <? 0)
  | VBool _ => ret false
  | VFloat m _ => ret (m <? 0)
  | _ => raise (PyExc TypeError)
  end.

(** [AstAnnotator.visit_Num]: annotate a Num node with the exact number
    format. *)
Definition visit_Num : node -> M unit :=
  expression (fun node =>
    let contentargs := [Fnext_of_type_src (NUMBER tg)] in
    let* n := getattr node "n" in
    let* negative := py_lt0 n in
    let contentargs := if negative then Tok (VStr "-") :: contentargs else contentargs in
    attr node "content" contentargs ["n"]).

(** [AstAnnotator.visit_Str]: annotate a Str node with the exact string
    format. *)
Definition visit_Str : node -> M unit :=
  expression (fun node =>
    let* _s := getattr node "s" in
    attr node "content" [Fstr] ["s"]).

(** [AstAnnotator.visit_Ellipsis]: Ellipsis is sometimes split into 3 tokens
    and other times a single token. *)
Definition visit_Ellipsis : node -> M unit :=
  space_around (fun node =>
    let* s := get in
    let* src := token_src (peek tg (tokens s)) in
    if String.eqb src "..." then do_token (VStr "...")
    else
      do_token (VStr ".") >> do_token (VStr ".") >> do_token (VStr ".")).

(** *** Dispatch *)

(** The names of the operator classes whose method is [visit_operator]. *)
Definition operator_classes : list string :=
  ["Add"; "Sub"; "Mult"; "Div"; "Mod"; "Pow"; "LShift"; "RShift"; "BitAnd";
   "BitOr"; "BitXor"; "FloorDiv"; "Invert"; "Not"; "UAdd"; "USub"; "Eq";
   "NotEq"; "Lt"; "LtE"; "Gt"; "GtE"; "Is"; "In"].

(** The attributes of an [AstAnnotator] whose name starts with [visit_]. *)
Definition methods : list (string * (node -> M unit)) :=
  [("visit_Module", visit_Module); ("visit_If", visit_If);
   ("visit_While", visit_While); ("visit_For", visit_For);
   ("visit_With", visit_With); ("visit_With_3", visit_With_3);
   ("visit_withitem", visit_withitem); ("visit_ClassDef", visit_ClassDef);
   ("visit_FunctionDef", visit_FunctionDef);
   ("visit_TryFinally", visit_TryFinally); ("visit_TryExcept", visit_TryExcept);
   ("visit_Try", visit_Try); ("visit_ExceptHandler", visit_ExceptHandler);
   ("visit_Raise", visit_Raise); ("visit_Raise_3", visit_Raise_3);
   ("visit_Assert", visit_Assert); ("visit_Assign", visit_Assign);
   ("visit_AugAssign", visit_AugAssign); ("visit_Break", visit_Break);
   ("visit_Continue", visit_Continue); ("visit_Delete", visit_Delete);
   ("visit_Exec", visit_Exec); ("visit_Expr", visit_Expr);
   ("visit_Global", visit_Global); ("visit_Import", visit_Import);
   ("visit_ImportFrom", visit_ImportFrom); ("visit_Nonlocal", visit_Nonlocal);
   ("visit_Pass", visit_Pass); ("visit_Print", visit_Print);
   ("visit_Return", visit_Return); ("visit_Yield", visit_Yield);
   ("visit_Attribute", visit_Attribute); ("visit_BinOp", visit_BinOp);
   ("visit_BoolOp", visit_BoolOp); ("visit_Call", visit_Call);
   ("visit_Compare", visit_Compare); ("visit_Dict", visit_Dict);
   ("visit_DictComp", visit_DictComp); ("visit_GeneratorExp", visit_GeneratorExp);
   ("visit_IfExp", visit_IfExp); ("visit_Lambda", visit_Lambda);
   ("visit_List", visit_List); ("visit_ListComp", visit_ListComp);
   ("visit_Name", visit_Name); ("visit_NameConstant", visit_NameConstant);
   ("visit_Repr", visit_Repr); ("visit_Set", visit_Set);
   ("visit_SetComp", visit_SetComp); ("visit_Subscript", visit_Subscript);
   ("visit_Tuple", visit_Tuple); ("visit_UnaryOp", visit_UnaryOp);
   ("visit_IsNot", visit_IsNot); ("visit_NotIn", visit_NotIn);
   ("visit_alias", visit_alias); ("visit_arg", visit_arg);
   ("visit_arguments", visit_arguments);
   ("visit_comprehension", visit_comprehension); ("visit_keyword", visit_keyword);
   ("visit_Index", visit_Index); ("visit_ExtSlice", visit_ExtSlice);
   ("visit_Slice", visit_Slice); ("visit_Num", visit_Num);
   ("visit_Str", visit_Str); ("visit_Ellipsis", visit_Ellipsis)]
  ++ ((fun c => ("visit_" +:+ c, visit_operator)) <$> operator_classes).

Fixpoint lookup_method (name : string) (l : list (string * (node -> M unit)))
  : option (node -> M unit) :=
  match l with
  | [] => None
  | (name', m) :: l' => if String.eqb name name' then Some m else lookup_method name l'
  end.

(** [ast.NodeVisitor.visit]: [getattr(self, 'visit_' + node.__class__.__name__,
    self.generic_visit)(node)]. *)
Definition NodeVisitor_visit (node : node) : M unit :=
  match lookup_method ("visit_" +:+ cls node) methods with
  | Some visitor => visitor node
  | None => generic_visit node
  end.

(** [self._stack.pop()]. *)
Definition stack_pop : M node :=
  fun s =>
    match rev (_stack s) with
    | top :: below => (Ok top, set_stack (rev below) s)
    | [] => (Raise (PyExc IndexError), s)
    end.

(** [assert node is self._stack.pop()]. *)
Definition assert_popped (node : node) : M unit :=
  let* top := stack_pop in
  if node_is node top then ret tt else raise (PyExc AssertionError).

(** [BaseVisitor.visit]. *)
Definition BaseVisitor_visit (node : node) : M unit :=
  modify (fun s => set_stack (_stack s ++ [node]) s) >>
  setup_props node >>
  NodeVisitor_visit node >>
  assert_popped node.

(** [try: body except (TypeError, ValueError, IndexError, KeyError) as e:
    raise AnnotationError(e)]. *)
Definition try_except (body : M unit) : M unit :=
  fun s =>
    match body s with
    | (Raise e, s') =>
        if caught_by_visit e then (Raise (AnnotationError (Caught e)), s')
        else (Raise e, s')
    | r => r
    end.

(** The suite of the [try] statement of [AstAnnotator.visit]. *)
Definition visit_try (node : node) : M unit :=
  let* s := get in
  setprop node "indent" (VStr (_indent s)) >>
  let* s := get in
  setprop node "indent_diff" (VStr (_indent_diff s)) >>
  BaseVisitor_visit node.

(** [AstAnnotator.visit], given the method [self.visit] refers to in the
    visit methods. *)
Definition AstAnnotator_visit (node : node) : M unit :=
  try_except (visit_try node).

End Visitors.

(** [AstAnnotator.visit].  [depth] bounds the nesting of [visit] calls, as
    the interpreter's recursion limit does; a call beyond it raises
    [RuntimeError] ("maximum recursion depth exceeded"). *)
Fixpoint visit (depth : nat) (node : node) : M unit :=
  match depth with
  | O => raise (PyExc RuntimeError)
  | S depth' => AstAnnotator_visit (visit depth') node
  end.

(** The state [AstAnnotator(source)] starts in, for the token generator
    state [TokenGenerator(source)] builds. *)
Definition init (t : TG) : AstAnnotator :=
  {| tokens := t; _indent := EmptyString; _indent_diff := EmptyString; _stack := [];
     props := ∅; attrs := ∅ |}.

End Annotate.

(** ** A token generator over a list of tokens *)

(** Modelled from the spec: [pasta.base.token_generator] is missing; this is
    a token generator with the behaviour the spec gives its operations, over
    the tokens of a source paired with the blank text before each: [next]
    "returns and consumes the next lexical token or reports end-of-input"
    (by [None]), [peek] "returns the next token without consuming",
    [next_name] is the "one-token lookahead" of the chained-alternative
    check, [whitespace] consumes and returns the blank text before the next
    token.  It serves to run the annotator on examples. *)
Record TokenList : Type := {
  pending : list (string * Token);
  loc : Z * Z;
  source_lines : list string;
}.

Definition advance (c : TokenList) : outcome (option Token) * TokenList :=
  match pending c with
  | [] => (Ok None, c)
  | (_, t) :: rest =>
      (Ok (Some t),
       {| pending := rest; loc := end_ t; source_lines := source_lines c |})
  end.

Definition token_list : TokenGenerator TokenList := {|
  lines := source_lines;
  _loc := loc;
  peek c := snd <$> head (pending c);
  next := advance;
  next_name c := (Ok (snd <$> head (pending c)), c);
  next_of_type ty c :=
    match pending c with
    | (_, t) :: _ =>
        if Nat.eqb (type t) ty then advance c else (Raise (PyExc ValueError), c)
    | [] => (Raise (PyExc ValueError), c)
    end;
  str c :=
    match pending c with
    | (_, t) :: _ => (Ok (src t), snd (advance c))
    | [] => (Raise (PyExc ValueError), c)
    end;
  whitespace _ c :=
    match pending c with
    | (w, t) :: rest =>
        (Ok w, {| pending := (EmptyString, t) :: rest; loc := loc c;
                  source_lines := source_lines c |})
    | [] => (Ok EmptyString, c)
    end;
  block_whitespace _ c := (Ok EmptyString, c);
  hint_open c := (Ok tt, c);
  hint_closed c := (Ok tt, c);
  scope_enter _ c := (Ok tt, c);
  scope_exit _ c := (Ok tt, c);
  NUMBER := 2%nat;
|}.

(** A token of type NAME/OP ([1]) on one line. *)
Definition tok (text : string) (row col : Z) (line : string) : Token :=
  {| type := 1%nat; src := text; start := (row, col);
     end_ := (row, col + Z.of_nat (String.length text)); line := line |}.

Definition nl : string := String (ascii_of_nat 10) EmptyString.

(** The operator tokens the examples need. *)
Definition example_tokens (c : string) : option (list string) :=
  if String.eqb c "Add" then Some ["+"] else None.

Definition no_starargs (n : node) : outcome value := Ok (VInt (-1)).

(** *** [with a, b:] over [pass], as Python 2 parses it *)

Definition name_node (i : nat) (id : string) (row col : Z) : node :=
  AST i "Name" [("id", VStr id)] [("lineno", VInt row); ("col_offset", VInt col)].

Definition pass_node (i : nat) (row col : Z) : node :=
  AST i "Pass" [] [("lineno", VInt row); ("col_offset", VInt col)].

Definition with_inner : node :=
  AST 3 "With"
    [("context_expr", VNode (name_node 4 "b" 1 8)); ("optional_vars", VNone);
     ("body", VList [VNode (pass_node 5 2 2)])]
    [("lineno", VInt 1); ("col_offset", VInt 8)].

Definition with_outer : node :=
  AST 1 "With"
    [("context_expr", VNode (name_node 2 "a" 1 5)); ("optional_vars", VNone);
     ("body", VList [VNode with_inner])]
    [("lineno", VInt 1); ("col_offset", VInt 0)].

Definition with_line1 : string := "with a, b:" +:+ nl.
Definition with_line2 : string := "  pass" +:+ nl.

Definition with_source : TokenList :=
  {| pending :=
       [(EmptyString, tok "with" 1 0 with_line1); (" ", tok "a" 1 5 with_line1);
        (EmptyString, tok "," 1 6 with_line1); (" ", tok "b" 1 8 with_line1);
        (EmptyString, tok ":" 1 9 with_line1); (nl +:+ "  ", tok "pass" 2 2 with_line2)];
     loc := (1, 0);
     source_lines := [with_line1; with_line2] |}.

(** *** [if a:] / [elif b:], as Python 2 parses it *)

Definition if_inner : node :=
  AST 13 "If"
    [("test", VNode (name_node 14 "b" 3 5));
     ("body", VList [VNode (pass_node 15 4 2)]); ("orelse", VList [])]
    [("lineno", VInt 3); ("col_offset", VInt 5)].

Definition if_outer : node :=
  AST 10 "If"
    [("test", VNode (name_node 11 "a" 1 3));
     ("body", VList [VNode (pass_node 12 2 2)]);
     ("orelse", VList [VNode if_inner])]
    [("lineno", VInt 1); ("col_offset", VInt 0)].

Definition if_line1 : string := "if a:" +:+ nl.
Definition if_line2 : string := "  pass" +:+ nl.
Definition if_line3 : string := "elif b:" +:+ nl.

Definition if_source : TokenList :=
  {| pending :=
       [(EmptyString, tok "if" 1 0 if_line1); (" ", tok "a" 1 3 if_line1);
        (EmptyString, tok ":" 1 4 if_line1); (nl +:+ "  ", tok "pass" 2 2 if_line2);
        (nl, tok "elif" 3 0 if_line3); (" ", tok "b" 3 5 if_line3);
        (EmptyString, tok ":" 3 6 if_line3); (nl +:+ "  ", tok "pass" 4 2 if_line2)];
     loc := (1, 0);
     source_lines := [if_line1; if_line2; if_line3; if_line2] |}.

(** [visit], run with the example tables. *)
Definition run (depth : nat) (n : node) (c : TokenList)
  : outcome unit * AstAnnotator TokenList :=
  visit token_list example_tokens no_starargs depth n (init c).

(** *** Points inside the examples *)

(** The annotator with the given tokens left, at location [at_loc]. *)
Definition resume (left : list (string * Token)) (at_loc : Z * Z)
    (text : list string) : AstAnnotator TokenList :=
  init {| pending := left; loc := at_loc; source_lines := text |}.

(** In [with_source], before the comma. *)
Definition with_at_comma : AstAnnotator TokenList :=
  resume
    [(EmptyString, tok "," 1 6 with_line1); (" ", tok "b" 1 8 with_line1);
     (EmptyString, tok ":" 1 9 with_line1); (nl +:+ "  ", tok "pass" 2 2 with_line2)]
    (1, 6) [with_line1; with_line2].

(** In [with_source], after the comma and the blank after it. *)
Definition with_at_b : AstAnnotator TokenList :=
  resume
    [(EmptyString, tok "b" 1 8 with_line1); (EmptyString, tok ":" 1 9 with_line1);
     (nl +:+ "  ", tok "pass" 2 2 with_line2)]
    (1, 7) [with_line1; with_line2].

(** After the colon, with the second line of the source as given. *)
Definition with_at_pass (line2 : string) : AstAnnotator TokenList :=
  resume [(EmptyString, tok "pass" 2 2 line2)] (1, 10) [with_line1; line2].

(** In [if_source], before [elif]. *)
Definition if_at_elif : AstAnnotator TokenList :=
  resume
    [(nl, tok "elif" 3 0 if_line3); (" ", tok "b" 3 5 if_line3);
     (EmptyString, tok ":" 3 6 if_line3); (nl +:+ "  ", tok "pass" 4 2 if_line2)]
    (2, 6) [if_line1; if_line2; if_line3; if_line2].

(** *** The line [x x], before its first and before its second token *)

Definition xx_line : string := "x x" +:+ nl.

Definition xx_first : AstAnnotator TokenList :=
  resume [(EmptyString, tok "x" 1 0 xx_line); (" ", tok "x" 1 2 xx_line)] (1, 0) [xx_line].

Definition xx_second : AstAnnotator TokenList :=
  resume [(EmptyString, tok "x" 1 2 xx_line)] (1, 1) [xx_line].

(** *** Nodes whose annotation fails *)

(** An [Ellipsis] node, with no token left in the source. *)
Definition ellipsis_node : node := AST 30 "Ellipsis" [] [].

Definition no_tokens : TokenList :=
  {| pending := []; loc := (1, 0); source_lines := [] |}.

(** The literal [1j]: comparing a complex number with [0] is a
    [TypeError]. *)
Definition complex_node : node :=
  AST 31 "Num" [("n", VComplex (0, 0) (1, 0))]
    [("lineno", VInt 1); ("col_offset", VInt 0)].

Definition complex_source : TokenList :=
  {| pending := [(EmptyString, {| type := 2%nat; src := "1j"; start := (1, 0);
                         end_ := (1, 2); line := "1j" +:+ nl |})];
     loc := (1, 0); source_lines := ["1j" +:+ nl] |}.

(** *** [class C:] *)

Definition class_node : node :=
  AST 20 "ClassDef"
    [("name", VStr "C"); ("bases", VList []);
     ("body", VList [VNode (pass_node 21 2 2)]); ("decorator_list", VList [])]
    [("lineno", VInt 1); ("col_offset", VInt 0)].

Definition class_line1 : string := "class C:" +:+ nl.

Definition class_source : TokenList :=
  {| pending :=
       [(EmptyString, tok "class" 1 0 class_line1); (" ", tok "C" 1 6 class_line1);
        (EmptyString, tok ":" 1 7 class_line1); (nl +:+ "  ", tok "pass" 2 2 with_line2)];
     loc := (1, 0);
     source_lines := [class_line1; with_line2] |}.

(** ** Vocabulary of the properties *)

Section Vocabulary.

Context {TG : Type}.
Variable tg : TokenGenerator TG.

#[local] Abbreviation M := (M TG).
#[local] Abbreviation AstAnnotator := (AstAnnotator TG).

(** [s'] differs from [s] in the state of the token generator at most. *)
Definition moved (s s' : AstAnnotator) : Prop := s' = set_tokens (tokens s') s.

(** A computation that reads the source and touches nothing else. *)
Definition parses {A} (m : M A) : Prop := forall s r s', m s = (r, s') -> moved s s'.

(** [new] has [prev] as a strict proper prefix. *)
Definition strictly_extends (prev new : string) : Prop :=
  exists diff, diff <> EmptyString /\ new = prev +:+ diff.

(** The rest of [indented] once the new indent is accepted: the children at
    the new indent, the block suffix, and the indent of the parent back. *)
Definition indented_block (node : node) (children_attr : string)
    (body : value -> M unit) (children : list value)
    (prev_indent prev_indent_diff : string) : M unit :=
  for_each children body >>
  let* s' := get in
  let* block_suffix := on_tokens (block_whitespace tg (_indent s')) in
  setprop node ("block_suffix_" +:+ children_attr) (VStr block_suffix) >>
  modify (set_indent prev_indent prev_indent_diff).

(** The properties after the loop over [deps] of [attr]: the value of each
    dependency, [None] when the node has no such attribute, under
    [dep + '__src'], in the order of [deps]. *)
Definition snapshot (n : node) (deps : list string) (s : AstAnnotator)
  : gmap (nat * string) value :=
  foldl (fun p dep =>
           <[(nid n, dep +:+ "__src") := default VNone (lookup_attr s n dep)]> p)
        (props s) deps.

(** What either lookahead check answers, from the class test on the node
    and the result of the lookahead call: for a node of the class in
    question, whether the text of the token is the keyword, an
    [AttributeError] when there is no token; [False] for any other object;
    the exception of the call when it raised. *)
Definition lookahead (of_class : bool) (next_tok : outcome (option Token))
    (keyword : string) : outcome bool :=
  match next_tok with
  | Ok t =>
      if of_class then
        match t with
        | Some t => Ok (String.eqb (src t) keyword)
        | None => Raise (PyExc AttributeError)
        end
      else Ok false
  | Raise e => Raise e
  end.

(** The state after [ast_utils.setprop(n0, 'is_elif', True)]. *)
Definition flag_elif (n0 : node) (s : AstAnnotator) : AstAnnotator :=
  set_props (<[(nid n0, "is_elif") := VBool true]> (props s)) s.

(** The state after [n0.is_continued = True]. *)
Definition flag_continued (n0 : node) (s : AstAnnotator) : AstAnnotator :=
  set_attrs (<[(nid n0, "is_continued") := VBool true]> (attrs s)) s.

(** The body of [visit_With] after its keyword slot. *)
Definition visit_With_rest (visit : node -> M unit) (n : node) : M unit :=
  visit_attr visit n "context_expr" >>
  if_attr n "optional_vars" (
    attr tg n "with_as" (ws_tok_ws "as") [] >>
    visit_attr visit n "optional_vars") >>
  visit_With_open tg n >>
  indented tg n "body" (visit_value visit).

(** The part of the state the traversal brackets: the ancestor stack and
    the indent context. *)
Definition context (s : AstAnnotator) : list node * string * string :=
  (_stack s, _indent s, _indent_diff s).

(** [m], when it returns, leaves the context as it found it. *)
Definition restores {A} (m : M A) : Prop :=
  forall s a s', m s = (Ok a, s') -> context s' = context s.

(** The state in which [visit], called in state [s], runs the method of
    node [n]: [indent] and [indent_diff] set on the node, the node pushed. *)
Definition enter (n : node) (s : AstAnnotator) : AstAnnotator :=
  set_stack (_stack s ++ [n])
    (set_props
       (<[(nid n, "indent_diff") := VStr (_indent_diff s)]>
          (<[(nid n, "indent") := VStr (_indent s)]> (props s))) s).

End Vocabulary.

(** ** Further vocabulary *)

Section Further.

Context {TG : Type}.
Variable tg : TokenGenerator TG.

#[local] Abbreviation M := (M TG).
#[local] Abbreviation AstAnnotator := (AstAnnotator TG).

(** [AstAnnotator._optional_token]. *)
Definition _optional_token (token_type : nat) (token_val : string) : M string :=
  let* s := get in
  match peek tg (tokens s) with
  | Some token =>
      if negb (Nat.eqb (type token) token_type)
         || negb (String.eqb (src token) token_val)
      then ret EmptyString
      else
        on_tokens (next tg) >>
        let* w := ws tg None in
        ret (src token +:+ w)
  | None => ret EmptyString
  end.

(** The text of the tokens an [attr_vals] list matches exactly, in order. *)
Fixpoint literals (attr_vals : list attr_val) : string :=
  match attr_vals with
  | [] => EmptyString
  | Tok (VStr s) :: rest => s +:+ literals rest
  | _ :: rest => literals rest
  end.

(** The test [len(self._stack) > 1 and not isinstance(self._stack[-2],
    ast.ExtSlice)], on the stack. *)
Definition own_brackets (stack : list node) : bool :=
  match rev stack with
  | _ :: parent :: _ => negb (isinstance (VNode parent) "ExtSlice")
  | _ => false
  end.

(** The statements of [visit_Slice] between its two bracket slots. *)
Definition visit_Slice_parts (visit : node -> M unit) (n : node) : M unit :=
  if_attr n "lower" (visit_attr visit n "lower") >>
  attr tg n "lowerspace" (ws_tok_ws ":") [] >>
  if_attr n "upper" (visit_attr visit n "upper") >>
  if_attr n "step" (
    attr tg n "stepspace" (ws_tok_ws ":") [] >>
    visit_attr visit n "step").

(** A slot between the bracket slots of [visit_Index] and [visit_Slice],
    both taken or both left out. *)
Definition bracketed (b : bool) (n : node) (inner : M unit) : M unit :=
  (if b then attr tg n "index_open" [Tok (VStr "["); Fws None] [] else ret tt) >>
  inner >>
  (if b then attr tg n "index_close" [Fws None; Tok (VStr "]")] [] else ret tt).

(** The keyword [visit_If] looks for: [tok = 'elif' if
    ast_utils.prop(node, 'is_elif') else 'if']. *)
Definition if_keyword (s : AstAnnotator) (n : node) : string :=
  if truthy (default VNone (props s !! (nid n, "is_elif"))) then "elif" else "if".

(** The statements of [visit_If] after the slot [open_if]. *)
Definition visit_If_rest (visit : node -> M unit) (n : node) : M unit :=
  visit_attr visit n "test" >>
  attr tg n "open_block" open_block_vals [] >>
  indented tg n "body" (visit_value visit) >>
  visit_If_orelse tg visit n.

(** [s'] keeps what [s] holds: every property that is set stays set, every
    attribute other than [is_continued] reads the same, [is_continued] is
    as it was or [True], and the stack is the one of [s], with more nodes
    on it or none. *)
Definition keeps (s s' : AstAnnotator) : Prop :=
  (forall k, is_Some (props s !! k) -> is_Some (props s' !! k))
  /\ (forall i name, name <> "is_continued" ->
        attrs s' !! (i, name) = attrs s !! (i, name))
  /\ (forall i, attrs s' !! (i, "is_continued") = attrs s !! (i, "is_continued")
                \/ attrs s' !! (i, "is_continued") = Some (VBool true))
  /\ (exists above, _stack s' = (_stack s ++ above)%list).

(** Whatever [m] does, and however it ends, it goes from a state to one
    related by [R]. *)
Definition steps (R : AstAnnotator -> AstAnnotator -> Prop) {A} (m : M A) : Prop :=
  forall s r s', m s = (r, s') -> R s s'.

(** [m] is a method under one of the decorators, all of which record the
    prefix: [_gen_wrapper] around a body [f] that keeps what is recorded,
    with or without the suffix. *)
Definition wrapped (suffix_ : bool) (m : node -> M unit) : Prop :=
  exists f scope_ max_suffix_lines,
    m = _gen_wrapper tg f scope_ true suffix_ max_suffix_lines
    /\ forall n, steps keeps (f n).

End Further.

(** The names of [visit_Global] and [visit_Nonlocal] as [identifiers] lays
    them out: each after a comma, unless it equals the first name. *)
Fixpoint after_first (first : string) (names : list string) : string :=
  match names with
  | [] => EmptyString
  | name :: rest =>
      (if String.eqb name first then name else "," +:+ name)
      +:+ after_first first rest
  end.

(** The character is a space or a tab. *)
Definition is_blank (c : ascii) : Prop :=
  c = ascii_of_nat 32 \/ c = ascii_of_nat 9.

(** The node classes by the decorator of their method. *)
Definition block_statements : list string :=
  ["Module"; "If"; "While"; "For"; "With"; "ClassDef"; "FunctionDef";
   "TryFinally"; "TryExcept"; "Try"; "ExceptHandler"].

Definition statements : list string :=
  ["Raise"; "Assert"; "Assign"; "AugAssign"; "Break"; "Continue"; "Delete";
   "Exec"; "Expr"; "Global"; "Import"; "ImportFrom"; "Nonlocal"; "Pass";
   "Print"; "Return"; "Yield"].

Definition expressions : list string :=
  ["Attribute"; "BinOp"; "BoolOp"; "Call"; "Compare"; "Dict"; "DictComp";
   "GeneratorExp"; "IfExp"; "Lambda"; "List"; "ListComp"; "Name";
   "NameConstant"; "Repr"; "Set"; "SetComp"; "Subscript"; "Tuple"; "UnaryOp";
   "Num"; "Str"].

Definition spaced_around : list string :=
  (["withitem"; "Ellipsis"] ++ operator_classes
   ++ ["IsNot"; "NotIn"; "arg"; "arguments"; "comprehension"; "keyword"])%list.

Definition spaced_left : list string := ["alias"; "Index"; "ExtSlice"; "Slice"].

(** The classes whose method records a prefix, and those whose method
    records a suffix as well. *)
Definition with_suffix : list string :=
  (statements ++ expressions ++ spaced_around)%list.

Definition with_prefix : list string :=
  (block_statements ++ spaced_left ++ with_suffix)%list.

(** [c in l]. *)
Definition among (c : string) (l : list string) : bool :=
  existsb (String.eqb c) l.

(** * Properties of the annotator *)

Section Properties.

Context {TG : Type} (tg : TokenGenerator TG).

#[local] Abbreviation M := (M TG).
#[local] Abbreviation AstAnnotator := (AstAnnotator TG).

(** ** The monad *)

Lemma bind_ok {A B} (m : M A) (k : A -> M B) s a s' :
  m s = (Ok a, s') -> bind m k s = k a s'.
Proof. intros H. unfold bind. rewrite H. reflexivity. Qed.

Lemma bind_inv_ok {A B} (m : M A) (k : A -> M B) s b s' :
  bind m k s = (Ok b, s') ->
  exists a s1, m s = (Ok a, s1) /\ k a s1 = (Ok b, s').
Proof.
  unfold bind. destruct (m s) as [[a|e] s1]; intros H.
  - exists a, s1. split; [reflexivity | exact H].
  - discriminate H.
Qed.

(** A record is its fields. *)
Lemma set_tokens_same (s : AstAnnotator) : set_tokens (tokens s) s = s.
Proof. destruct s. reflexivity. Qed.

(** ** Steps that only move the token generator *)

Lemma moved_refl (s : AstAnnotator) : moved s s.
Proof. unfold moved. symmetry. apply set_tokens_same. Qed.

Lemma moved_trans (s1 s2 s3 : AstAnnotator) :
  moved s1 s2 -> moved s2 s3 -> moved s1 s3.
Proof. unfold moved. intros H12 H23. rewrite H23 at 1. rewrite H12. reflexivity. Qed.

Lemma parses_ret {A} (a : A) : parses (@ret TG A a).
Proof. intros s r s' [= _ <-]. apply moved_refl. Qed.

Lemma parses_raise {A} e : parses (@raise TG A e).
Proof. intros s r s' [= _ <-]. apply moved_refl. Qed.

Lemma parses_get : parses (@get TG).
Proof. intros s r s' [= _ <-]. apply moved_refl. Qed.

Lemma parses_on_tokens {A} (op : TG -> outcome A * TG) : parses (on_tokens op).
Proof.
  intros s r s'. unfold on_tokens. destruct (op (tokens s)) as [r0 t].
  intros [= _ <-]. reflexivity.
Qed.

Lemma parses_bind {A B} (m : M A) (k : A -> M B) :
  parses m -> (forall a, parses (k a)) -> parses (bind m k).
Proof.
  intros Hm Hk s r s'. unfold bind.
  destruct (m s) as [[a|e] s1] eqn:E; intros H.
  - eapply moved_trans; [eapply Hm, E | eapply Hk, H].
  - injection H as _ <-. eapply Hm, E.
Qed.

Lemma parses_token_src t : parses (@token_src TG t).
Proof. destruct t; [apply parses_ret | apply parses_raise]. Qed.

Lemma parses_ws max_lines : parses (ws tg max_lines).
Proof. apply parses_on_tokens. Qed.

Lemma parses_token token_val : parses (token tg token_val).
Proof.
  unfold token. apply parses_bind; [apply parses_on_tokens |].
  intros [t|]; [| apply parses_raise].
  destruct (negb _); [apply parses_raise |].
  apply parses_bind; [| intros; apply parses_ret].
  repeat (destruct (str_in _ _));
    first [apply parses_on_tokens | apply parses_ret].
Qed.

Lemma parses_attr_part a : parses (attr_part tg a).
Proof.
  destruct a as [v| | | |]; simpl.
  - destruct v; first [apply parses_raise | apply parses_token].
  - apply parses_ws.
  - apply parses_ws.
  - apply parses_bind; [apply parses_on_tokens | intros; apply parses_token_src].
  - apply parses_on_tokens.
Qed.

Lemma parses_attr_parts l : parses (attr_parts tg l).
Proof.
  induction l as [|a l IH]; simpl; [apply parses_ret |].
  apply parses_bind; [apply parses_attr_part |]. intros p.
  apply parses_bind; [exact IH |]. intros ps. apply parses_ret.
Qed.

(** ** Tokens *)

Lemma src_eq_false src token_val :
  token_val <> VStr src -> src_eq src token_val = false.
Proof.
  intros H. destruct token_val; try reflexivity. simpl.
  destruct (String.eqb_spec src s) as [->|]; [contradiction H; reflexivity | reflexivity].
Qed.

(** C2, as the code has it: when the next token's text differs from the
    expected text, [token] raises an [AnnotationError] built from the
    expected text, the actual text, the line number of the token (the first
    component of its start) and the text of its line; the column, the second
    component of the start, is not part of the error.  The token has been
    consumed. *)
Theorem token_mismatch (token_val : value) (s : AstAnnotator) (t : Token) (T1 : TG) :
  next tg (tokens s) = (Ok (Some t), T1) ->
  token_val <> VStr (src t) ->
  token tg token_val s =
    (Raise (AnnotationError
              (Expected token_val (src t) (fst (start t)) (line t))),
     set_tokens T1 s).
Proof.
  intros Hn Hne. unfold token.
  erewrite bind_ok by (unfold on_tokens; rewrite Hn; reflexivity).
  cbv beta iota. rewrite (src_eq_false _ _ Hne). reflexivity.
Qed.

(** C8: [optional_token] looks at the next token with [peek], which does not
    consume.  When that token is absent or is not the literal, the state is
    returned as it was: nothing is consumed, no attribute changes, nothing
    is raised.  When it is the literal, the token is consumed with [next],
    then the whitespace after it, and both are appended to the attribute of
    the node. *)
Theorem optional_token_lookahead (node : node) (attr_name token_val : string)
    (s : AstAnnotator) :
  ((forall t, peek tg (tokens s) = Some t -> src t <> token_val) ->
   optional_token tg node attr_name token_val s = (Ok tt, s))
  /\ (forall t r T1 w T2,
        peek tg (tokens s) = Some t ->
        src t = token_val ->
        next tg (tokens s) = (Ok r, T1) ->
        whitespace tg None T1 = (Ok w, T2) ->
        optional_token tg node attr_name token_val s =
          (Ok tt,
           set_props
             (<[(nid node, attr_name) :=
                  VStr (match props s !! (nid node, attr_name) with
                        | Some (VStr old) => old
                        | _ => EmptyString
                        end +:+ (token_val +:+ w))]> (props s))
             (set_tokens T2 s))).
Proof.
  split.
  - intros Habs. unfold optional_token, bind, get.
    destruct (peek tg (tokens s)) as [t|] eqn:Hp; [| reflexivity].
    destruct (String.eqb_spec (src t) token_val) as [Heq|]; [| reflexivity].
    exfalso. exact (Habs t eq_refl Heq).
  - intros t r T1 w T2 Hp Hsrc Hn Hw. unfold optional_token, bind, get.
    rewrite Hp, Hsrc, String.eqb_refl. unfold on_tokens, ws, on_tokens. simpl.
    rewrite Hn. simpl. rewrite Hw. reflexivity.
Qed.

(** ** Indentation *)

(** C10: when the child list has exactly one element and the next token
    starts on the line the token generator is at, [indented] is the loop
    body applied to that child in the unchanged state: the indentation is
    not looked at, [_indent] and [_indent_diff] are not assigned, and no
    [block_suffix_...] property is set. *)
Theorem indented_same_line (node : node) (children_attr : string)
    (body : value -> M unit) (s : AstAnnotator) (child : value)
    (next_tok : Token) :
  lookup_attr s node children_attr = Some (VList [child]) ->
  peek tg (tokens s) = Some next_tok ->
  fst (_loc tg (tokens s)) = fst (start next_tok) ->
  indented tg node children_attr body s = body child s.
Proof.
  intros Hc Hp Hl. unfold indented, bind, getattr, get.
  rewrite Hc. simpl. rewrite Hp. simpl.
  rewrite Hl, Z.eqb_refl. reflexivity.
Qed.

Lemma prefix_append p d : String.prefix p (p +:+ d) = true.
Proof.
  induction p as [|c p IH]; simpl.
  - destruct d; reflexivity.
  - destruct (Ascii.ascii_dec c c) as [_|n]; [exact IH | contradiction n; reflexivity].
Qed.

Lemma prefix_split p n : String.prefix p n = true -> exists d, n = p +:+ d.
Proof.
  revert n. induction p as [|c p IH]; intros n H.
  - exists n. reflexivity.
  - destruct n as [|c' n]; simpl in H; [discriminate |].
    destruct (Ascii.ascii_dec c c') as [->|]; [| discriminate].
    destruct (IH n H) as [d ->]. exists d. reflexivity.
Qed.

Lemma length_append p d :
  String.length (p +:+ d) = (String.length p + String.length d)%nat.
Proof. induction p as [|c p IH]; simpl; [reflexivity | rewrite IH; reflexivity]. Qed.

Lemma substring_all d : String.substring 0 (String.length d) d = d.
Proof. induction d as [|c d IH]; simpl; [reflexivity | rewrite IH; reflexivity]. Qed.

Lemma str_from_append p d : str_from (String.length p) (p +:+ d) = d.
Proof.
  unfold str_from. rewrite length_append.
  replace (String.length p + String.length d - String.length p)%nat
    with (String.length d) by lia.
  induction p as [|c p IH]; simpl; [apply substring_all | exact IH].
Qed.

(** The test of [indented], read as a property of the two indents. *)
Lemma indent_check_spec prev new :
  negb (String.prefix prev new)
  || (String.length new <=? String.length prev)%nat = false
  <-> strictly_extends prev new.
Proof.
  rewrite orb_false_iff, negb_false_iff, Nat.leb_gt. split.
  - intros [Hp Hl]. destruct (prefix_split _ _ Hp) as [d ->].
    exists d. split; [| reflexivity].
    intros ->. rewrite length_append in Hl. simpl in Hl. lia.
  - intros (d & Hd & ->). split; [apply prefix_append |].
    rewrite length_append. destruct d; [contradiction Hd; reflexivity | simpl; lia].
Qed.

(** C1: on the path of [indented] that tracks indentation (the children are
    not a single statement on the line of the header), the indent read from
    the line of the first child either has the indent in force as a strict
    proper prefix, and the children are then visited with [_indent] set to
    it and [_indent_diff] to what it adds, or [indented] raises the
    [AnnotationError] of the indent check, with the state untouched and the
    loop body never run. *)
Theorem indented_strict_indent (parent : node) (children_attr : string)
    (body : value -> M unit) (s : AstAnnotator) (child0 : node)
    (rest : list value) (next_tok : Token) (lineno : Z) (line : string) :
  lookup_attr s parent children_attr = Some (VList (VNode child0 :: rest)) ->
  peek tg (tokens s) = Some next_tok ->
  (rest = [] -> fst (_loc tg (tokens s)) <> fst (start next_tok)) ->
  lookup_attr s child0 "lineno" = Some (VInt lineno) ->
  py_index (lines tg (tokens s)) (lineno - 1) = Some line ->
  (strictly_extends (_indent s) (takewhile_blank line) ->
   exists diff,
     diff <> EmptyString /\ takewhile_blank line = _indent s +:+ diff /\
     indented tg parent children_attr body s =
       indented_block tg parent children_attr body (VNode child0 :: rest)
         (_indent s) (_indent_diff s)
         (set_indent (takewhile_blank line) diff s))
  /\ (~ strictly_extends (_indent s) (takewhile_blank line) ->
      indented tg parent children_attr body s = (Raise indent_error, s)).
Proof.
  intros Hc Hp Hsame Hln Hline.
  assert (Hstart : indented tg parent children_attr body s =
    (if negb (String.prefix (_indent s) (takewhile_blank line))
        || (String.length (takewhile_blank line) <=? String.length (_indent s))%nat
     then raise indent_error
     else modify (set_indent (takewhile_blank line)
                    (str_from (String.length (_indent s)) (takewhile_blank line))) >>
          indented_block tg parent children_attr body (VNode child0 :: rest)
            (_indent s) (_indent_diff s)) s).
  { assert (Hspecial : (Z.of_nat (S (length rest)) =? 1)
                       && (fst (_loc tg (tokens s)) =? fst (start next_tok)) = false).
    { destruct rest as [|r rest'].
      - apply andb_false_intro2, Z.eqb_neq, Hsame. reflexivity.
      - apply andb_false_intro1, Z.eqb_neq. simpl length. lia. }
    unfold indented.
    erewrite bind_ok by (unfold getattr; rewrite Hc; reflexivity).
    erewrite bind_ok by reflexivity.
    cbv zeta. rewrite Hp.
    erewrite bind_ok by reflexivity.
    erewrite bind_ok by reflexivity.
    change (length (VNode child0 :: rest)) with (S (length rest)).
    rewrite Hspecial.
    erewrite bind_ok by reflexivity.
    erewrite bind_ok
      by (unfold getattr_value, getattr; rewrite Hln; reflexivity).
    erewrite bind_ok by reflexivity.
    rewrite Hline.
    erewrite bind_ok by reflexivity.
    destruct (negb _ || _); reflexivity. }
  rewrite Hstart. split.
  - intros Hext. pose proof Hext as (diff & Hd & Heq).
    exists diff. split; [exact Hd |]. split; [exact Heq |].
    apply indent_check_spec in Hext. rewrite Hext.
    rewrite Heq at 2. rewrite str_from_append. reflexivity.
  - intros Hnot. destruct (negb _ || _) eqn:E; [reflexivity |].
    apply indent_check_spec in E. contradiction.
Qed.

(** ** Attributes and their dependencies *)

Lemma lookup_attr_set_props p (s : AstAnnotator) n name :
  lookup_attr (set_props p s) n name = lookup_attr s n name.
Proof. reflexivity. Qed.

Lemma snapshot_deps_from (n : node) (deps : list string) (i : nat) (s s0 : AstAnnotator) :
  attrs s = attrs s0 ->
  for_enumerate_from i deps (fun _ dep =>
    let* v := getattr_default n dep VNone in
    setprop n (dep +:+ "__src") v) s
  = (Ok tt,
     set_props
       (foldl (fun p dep =>
                 <[(nid n, dep +:+ "__src") := default VNone (lookup_attr s0 n dep)]> p)
              (props s) deps) s).
Proof.
  revert i s. induction deps as [|dep deps IH]; intros i s Ha; simpl.
  - destruct s. reflexivity.
  - unfold bind at 1. unfold bind at 1. unfold getattr_default, setprop, modify.
    rewrite IH by exact Ha. simpl.
    replace (lookup_attr s n dep) with (lookup_attr s0 n dep)
      by (unfold lookup_attr; rewrite Ha; reflexivity).
    reflexivity.
Qed.

Lemma snapshot_deps_spec n deps (s : AstAnnotator) :
  snapshot_deps n deps s = (Ok tt, set_props (snapshot n deps s) s).
Proof. apply snapshot_deps_from. reflexivity. Qed.

Lemma append_inj_r a b c : a +:+ c = b +:+ c -> a = b.
Proof.
  revert b. induction a as [|x a IH]; intros [|y b] H; simpl in H.
  - reflexivity.
  - apply (f_equal String.length) in H. rewrite !length_append in H. simpl in H. lia.
  - apply (f_equal String.length) in H. rewrite !length_append in H. simpl in H. lia.
  - injection H as -> H. f_equal. apply IH, H.
Qed.

Lemma snapshot_lookup_other (n : node) (deps : list string) (s0 : AstAnnotator)
    (p : gmap (nat * string) value) (dep : string) :
  dep ∉ deps ->
  foldl (fun p dep =>
           <[(nid n, dep +:+ "__src") := default VNone (lookup_attr s0 n dep)]> p)
        p deps !! (nid n, dep +:+ "__src")
  = p !! (nid n, dep +:+ "__src").
Proof.
  revert p. induction deps as [|d deps IH]; intros p Hn; simpl; [reflexivity |].
  rewrite IH by (intros Hin; apply Hn; right; exact Hin).
  apply lookup_insert_ne. intros [= H]. apply append_inj_r in H.
  apply Hn. rewrite H. left.
Qed.

Lemma snapshot_lookup (n : node) (deps : list string) (s0 : AstAnnotator)
    (p : gmap (nat * string) value) (dep : string) :
  dep ∈ deps ->
  foldl (fun p dep =>
           <[(nid n, dep +:+ "__src") := default VNone (lookup_attr s0 n dep)]> p)
        p deps !! (nid n, dep +:+ "__src")
  = Some (default VNone (lookup_attr s0 n dep)).
Proof.
  revert p. induction deps as [|d deps IH]; intros p Hin; simpl.
  - inversion Hin.
  - destruct (decide (dep ∈ deps)) as [Hd|Hd]; [apply IH, Hd |].
    rewrite snapshot_lookup_other by exact Hd.
    assert (dep = d) as -> by (inversion Hin; [reflexivity | contradiction]).
    apply lookup_insert_eq.
Qed.

(** Whatever happens, [attr] assigns no attribute of a node object. *)
Lemma attr_attrs n attr_name attr_vals deps (s : AstAnnotator) r s' :
  attr tg n attr_name attr_vals deps s = (r, s') -> attrs s' = attrs s.
Proof.
  unfold attr. erewrite bind_ok by apply snapshot_deps_spec.
  unfold bind.
  destruct (attr_parts tg attr_vals _) as [[parts|e] s2] eqn:E;
    apply parses_attr_parts in E; intros [= _ <-]; rewrite E; reflexivity.
Qed.

(** What a successful [attr] without dependencies leaves: one property on
    the node, and the token generator further on. *)
Lemma attr_result n attr_name attr_vals (s : AstAnnotator) s' :
  attr tg n attr_name attr_vals [] s = (Ok tt, s') ->
  exists text,
    s' = set_props (<[(nid n, attr_name) := VStr text]> (props s))
           (set_tokens (tokens s') s).
Proof.
  unfold attr. erewrite bind_ok by apply snapshot_deps_spec.
  unfold bind, snapshot. simpl foldl.
  destruct (attr_parts tg attr_vals _) as [[parts|e] s2] eqn:E; [| discriminate].
  apply parses_attr_parts in E. intros [= <-].
  exists (String.concat EmptyString parts). rewrite E. destruct s. reflexivity.
Qed.

(** C7: [attr] first stores the current value of every field named in
    [deps] on the node, before anything is read from the source; it then
    parses the text of the slot, which only moves the token generator, and
    stores that text under [attr_name] on the same node, on top of the
    snapshot. *)
Theorem attr_snapshot (n : node) (attr_name : string) (attr_vals : list attr_val)
    (deps : list string) (s : AstAnnotator) :
  let s1 := set_props (snapshot n deps s) s in
  snapshot_deps n deps s = (Ok tt, s1)
  /\ tokens s1 = tokens s
  /\ (forall dep, dep ∈ deps ->
        props s1 !! (nid n, dep +:+ "__src")
        = Some (default VNone (lookup_attr s n dep)))
  /\ attr tg n attr_name attr_vals deps s =
       (let* attr_parts := attr_parts tg attr_vals in
        setprop n attr_name (VStr (String.concat EmptyString attr_parts))) s1
  /\ (forall parts s2,
        attr_parts tg attr_vals s1 = (Ok parts, s2) ->
        attr tg n attr_name attr_vals deps s =
          (Ok tt,
           set_props
             (<[(nid n, attr_name) := VStr (String.concat EmptyString parts)]>
                (snapshot n deps s))
             (set_tokens (tokens s2) s))).
Proof.
  intros s1. split; [apply snapshot_deps_spec |].
  split; [reflexivity |].
  split; [intros dep Hin; apply snapshot_lookup, Hin |].
  assert (Hattr : attr tg n attr_name attr_vals deps s =
       (let* attr_parts := attr_parts tg attr_vals in
        setprop n attr_name (VStr (String.concat EmptyString attr_parts))) s1).
  { unfold attr. erewrite bind_ok by apply snapshot_deps_spec. reflexivity. }
  split; [exact Hattr |].
  intros parts s2 Hparts. rewrite Hattr.
  erewrite bind_ok by exact Hparts.
  apply parses_attr_parts in Hparts. rewrite Hparts. reflexivity.
Qed.

(** ** The two lookahead checks *)

Lemma check_is_continued_with_spec (v : value) (s : AstAnnotator) :
  check_is_continued_with tg v s
  = (lookahead (isinstance v "With") (Ok (peek tg (tokens s))) ",", s).
Proof.
  unfold check_is_continued_with, lookahead.
  destruct (isinstance v "With"); [| reflexivity].
  unfold bind, get. destruct (peek tg (tokens s)); reflexivity.
Qed.

Lemma check_is_elif_spec (v : value) (s : AstAnnotator) :
  snd (next_name tg (tokens s)) = tokens s ->
  check_is_elif tg v s
  = (lookahead (isinstance v "If") (fst (next_name tg (tokens s))) "elif", s).
Proof.
  intros Hn. unfold check_is_elif, lookahead, bind, on_tokens.
  destruct (next_name tg (tokens s)) as [[next_tok|e] T] eqn:E;
    cbn [fst snd] in *; subst T; rewrite set_tokens_same; [| reflexivity].
  destruct (isinstance v "If"); [| reflexivity].
  destruct next_tok; reflexivity.
Qed.

Lemma visit_If_orelse_spec (visit : node -> M unit) (n n0 : node) (s : AstAnnotator) :
  snd (next_name tg (tokens s)) = tokens s ->
  lookup_attr s n "orelse" = Some (VList [VNode n0]) ->
  cls n0 = "If" ->
  visit_If_orelse tg visit n s =
    match lookahead true (fst (next_name tg (tokens s))) "elif" with
    | Ok true => visit n0 (flag_elif n0 s)
    | Ok false =>
        (attr tg n "elseprefix" [Fws None] [] >>
         do_token tg (VStr "else") >>
         attr tg n "open_else" open_block_vals [] >>
         indented tg n "orelse" (visit_value visit)) s
    | Raise e => (Raise e, s)
    end.
Proof.
  intros Hn Ho Hc. unfold visit_If_orelse.
  erewrite bind_ok by (unfold getattr; rewrite Ho; reflexivity).
  cbn [truthy].
  erewrite bind_ok by reflexivity.
  change (Z.of_nat (length [VNode n0]) =? 1) with true. cbv iota.
  assert (Hi : isinstance (VNode n0) "If" = true)
    by (unfold isinstance; rewrite Hc; reflexivity).
  unfold bind at 1.
  erewrite (bind_ok (py_getitem _ 0)) by reflexivity.
  cbv beta. rewrite Hi, (check_is_elif_spec _ _ Hn), Hi.
  destruct (lookahead true (fst (next_name tg (tokens s))) "elif") as [[|]|e];
    reflexivity.
Qed.

Lemma visit_With_open_spec (n n0 : node) (s : AstAnnotator) :
  lookup_attr s n "body" = Some (VList [VNode n0]) ->
  cls n0 = "With" ->
  visit_With_open tg n s =
    match lookahead true (Ok (peek tg (tokens s))) "," with
    | Ok true => attr tg n "with_comma" (ws_tok_ws ",") [] (flag_continued n0 s)
    | Ok false => attr tg n "open_block" open_block_vals [] s
    | Raise e => (Raise e, s)
    end.
Proof.
  intros Hb Hc. unfold visit_With_open.
  erewrite bind_ok by (unfold getattr; rewrite Hb; reflexivity).
  erewrite bind_ok by reflexivity.
  change (Z.of_nat (length [VNode n0]) =? 1) with true. cbv iota.
  assert (Hi : isinstance (VNode n0) "With" = true)
    by (unfold isinstance; rewrite Hc; reflexivity).
  unfold bind at 1.
  erewrite (bind_ok (py_getitem _ 0)) by reflexivity.
  cbv beta. rewrite check_is_continued_with_spec, Hi.
  destruct (lookahead true (Ok (peek tg (tokens s))) ",") as [[|]|e]; reflexivity.
Qed.

(** C3: given that [next_name] of the token generator is a lookahead (it
    leaves the generator in the state it was called in), [check_is_elif] and
    [check_is_continued_with] return the state they were given, token
    generator included, and their answer is [lookahead] of the class of the
    node and the token the lookahead call returns ([next_name] for the
    first, [peek] for the second).  The flag is written by the caller, and
    is the only change between the check and what follows: [visit_If] sets
    the property [is_elif] of the nested [If] and visits it, [visit_With]
    assigns [is_continued] on the nested [With] and goes on with the comma
    slot; on a negative answer nothing is written. *)
Theorem resolvers_pure :
  (forall t, snd (next_name tg t) = t) ->
  (forall v s,
     check_is_elif tg v s
     = (lookahead (isinstance v "If") (fst (next_name tg (tokens s))) "elif", s))
  /\ (forall v s,
        check_is_continued_with tg v s
        = (lookahead (isinstance v "With") (Ok (peek tg (tokens s))) ",", s))
  /\ (forall (visit : node -> M unit) n n0 s,
        lookup_attr s n "orelse" = Some (VList [VNode n0]) ->
        cls n0 = "If" ->
        visit_If_orelse tg visit n s =
          match lookahead true (fst (next_name tg (tokens s))) "elif" with
          | Ok true => visit n0 (flag_elif n0 s)
          | Ok false =>
              (attr tg n "elseprefix" [Fws None] [] >>
               do_token tg (VStr "else") >>
               attr tg n "open_else" open_block_vals [] >>
               indented tg n "orelse" (visit_value visit)) s
          | Raise e => (Raise e, s)
          end)
  /\ (forall n n0 s,
        lookup_attr s n "body" = Some (VList [VNode n0]) ->
        cls n0 = "With" ->
        visit_With_open tg n s =
          match lookahead true (Ok (peek tg (tokens s))) "," with
          | Ok true => attr tg n "with_comma" (ws_tok_ws ",") [] (flag_continued n0 s)
          | Ok false => attr tg n "open_block" open_block_vals [] s
          | Raise e => (Raise e, s)
          end).
Proof.
  intros Hn. repeat split.
  - intros v s. apply check_is_elif_spec, Hn.
  - intros v s. apply check_is_continued_with_spec.
  - intros visit n n0 s. apply visit_If_orelse_spec, Hn.
  - intros n n0 s. apply visit_With_open_spec.
Qed.

(** ** Continued [with] statements *)

Lemma bind_ret_tt (m : M unit) (s : AstAnnotator) : (m >> ret tt) s = m s.
Proof. unfold bind. destruct (m s) as [[[]|e] s']; reflexivity. Qed.

Lemma bind_congr {A B} (m : M A) (k1 k2 : A -> M B) (s : AstAnnotator) :
  (forall a s1, m s = (Ok a, s1) -> k1 a s1 = k2 a s1) ->
  bind m k1 s = bind m k2 s.
Proof.
  intros H. unfold bind. destruct (m s) as [[a|e] s1]; [apply H |]; reflexivity.
Qed.

Lemma visit_With_keyword_flagged (n0 : node) (s : AstAnnotator) :
  lookup_attr s n0 "is_continued" = Some (VBool true) ->
  visit_With_keyword tg n0 s = (Ok tt, s).
Proof.
  intros H. unfold visit_With_keyword, bind, getattr_default. rewrite H. reflexivity.
Qed.

Lemma visit_With_keyword_plain (n0 : node) (s : AstAnnotator) :
  lookup_attr s n0 "is_continued" = None ->
  visit_With_keyword tg n0 s = attr tg n0 "with" [Tok (VStr "with"); Fws None] [] s.
Proof.
  intros H. unfold visit_With_keyword, bind, getattr_default. rewrite H. reflexivity.
Qed.

Lemma lookup_attr_attrs (s s' : AstAnnotator) n name :
  attrs s' = attrs s -> lookup_attr s' n name = lookup_attr s n name.
Proof. intros H. unfold lookup_attr. rewrite H. reflexivity. Qed.

(** [visit_With] on a node without [items]: the prefix, the keyword slot
    when [is_continued] allows it, then the rest. *)
Lemma visit_With_unfold (visit : node -> M unit) (n : node) (s : AstAnnotator) :
  lookup_attr s n "items" = None ->
  visit_With tg visit n s =
    (prefix tg n >> visit_With_keyword tg n >> visit_With_rest tg visit n) s.
Proof.
  intros Hi. unfold visit_With, block_statement, _gen_wrapper.
  apply bind_congr. intros [] s1 E.
  rewrite bind_ret_tt.
  apply attr_attrs in E.
  erewrite bind_ok
    by (unfold hasattr; rewrite (lookup_attr_attrs _ _ _ _ E), Hi; reflexivity).
  rewrite bool_decide_eq_false_2 by (intros [x Hx]; discriminate Hx).
  reflexivity.
Qed.

(** C4: for a [With] node whose body is exactly one nested [With] node, at
    the point where the block opens.  If the next token is a comma, the
    nested node gets [is_continued = True] and the outer node gets the slot
    [with_comma], its [open_block] property staying as it was; a nested
    node so flagged (and parsed by Python 2: it has no [items]) is visited
    as its prefix followed at once by its context expression, with no
    [with] slot.  If the next token is not a comma, the outer node gets the
    slot [open_block] and no attribute is assigned; an unflagged nested
    node starts with its own [with] slot, as any [With] block does. *)
Theorem with_continued (visit : node -> M unit) (n n0 : node) (s : AstAnnotator)
    (t : Token) :
  lookup_attr s n "body" = Some (VList [VNode n0]) ->
  cls n0 = "With" ->
  peek tg (tokens s) = Some t ->
  (src t = "," ->
   visit_With_open tg n s
   = attr tg n "with_comma" (ws_tok_ws ",") [] (flag_continued n0 s)
   /\ forall s',
        visit_With_open tg n s = (Ok tt, s') ->
        (exists text, props s' = <[(nid n, "with_comma") := VStr text]> (props s))
        /\ props s' !! (nid n, "open_block") = props s !! (nid n, "open_block")
        /\ attrs s' = <[(nid n0, "is_continued") := VBool true]> (attrs s)
        /\ lookup_attr s' n0 "is_continued" = Some (VBool true))
  /\ (src t <> "," ->
      visit_With_open tg n s = attr tg n "open_block" open_block_vals [] s
      /\ forall s',
           visit_With_open tg n s = (Ok tt, s') ->
           (exists text, props s' = <[(nid n, "open_block") := VStr text]> (props s))
           /\ attrs s' = attrs s)
  /\ (forall s1,
        lookup_attr s1 n0 "items" = None ->
        lookup_attr s1 n0 "is_continued" = Some (VBool true) ->
        visit_With tg visit n0 s1
        = (prefix tg n0 >> visit_With_rest tg visit n0) s1)
  /\ (forall s1,
        lookup_attr s1 n0 "items" = None ->
        lookup_attr s1 n0 "is_continued" = None ->
        visit_With tg visit n0 s1
        = (prefix tg n0 >>
           attr tg n0 "with" [Tok (VStr "with"); Fws None] [] >>
           visit_With_rest tg visit n0) s1).
Proof.
  intros Hb Hc Hp.
  pose proof (visit_With_open_spec n n0 s Hb Hc) as Hopen.
  rewrite Hp in Hopen. cbn [lookahead] in Hopen.
  split; [| split; [| split]].
  - intros Hsrc. rewrite Hsrc, String.eqb_refl in Hopen.
    split; [exact Hopen |]. intros s' Hs'. rewrite Hopen in Hs'.
    pose proof (attr_attrs _ _ _ _ _ _ _ Hs') as Ha.
    apply attr_result in Hs' as [text Hs'].
    assert (Hprops : props s' = <[(nid n, "with_comma") := VStr text]> (props s))
      by (rewrite Hs'; reflexivity).
    split; [exists text; exact Hprops |].
    split; [rewrite Hprops; apply lookup_insert_ne; intros [= ] |].
    split; [exact Ha |].
    unfold lookup_attr. rewrite Ha. cbn [flag_continued attrs set_attrs].
    rewrite lookup_insert_eq. reflexivity.
  - intros Hsrc. apply String.eqb_neq in Hsrc. rewrite Hsrc in Hopen.
    split; [exact Hopen |]. intros s' Hs'. rewrite Hopen in Hs'.
    pose proof (attr_attrs _ _ _ _ _ _ _ Hs') as Ha.
    apply attr_result in Hs' as [text Hs'].
    split; [exists text; rewrite Hs'; reflexivity | exact Ha].
  - intros s1 Hi Hf. rewrite (visit_With_unfold visit n0 s1 Hi).
    apply bind_congr. intros [] s2 E.
    apply attr_attrs in E.
    erewrite bind_ok; [reflexivity |].
    apply visit_With_keyword_flagged.
    rewrite (lookup_attr_attrs _ _ _ _ E). exact Hf.
  - intros s1 Hi Hf. rewrite (visit_With_unfold visit n0 s1 Hi).
    apply bind_congr. intros [] s2 E.
    apply attr_attrs in E.
    unfold bind at 1 2.
    rewrite visit_With_keyword_plain
      by (rewrite (lookup_attr_attrs _ _ _ _ E); exact Hf).
    reflexivity.
Qed.

(** ** What a visit leaves as it found it *)

Variable NODE_TYPE_TO_TOKENS : string -> option (list string).
Variable find_starargs : node -> outcome value.

Lemma moved_context (s s' : AstAnnotator) : moved s s' -> context s' = context s.
Proof. intros ->. reflexivity. Qed.

Lemma parses_restores {A} (m : M A) : parses m -> restores m.
Proof. intros H s a s' E. eapply moved_context, H, E. Qed.

Lemma restores_ret {A} (a : A) : restores (@ret TG A a).
Proof. intros s a' s' [= _ <-]. reflexivity. Qed.

Lemma restores_raise {A} e : restores (@raise TG A e).
Proof. intros s a s' [=]. Qed.

Lemma restores_bind {A B} (m : M A) (k : A -> M B) :
  restores m -> (forall a, restores (k a)) -> restores (bind m k).
Proof.
  intros Hm Hk s b s' H. apply bind_inv_ok in H as (a & s1 & H1 & H2).
  rewrite (Hk _ _ _ _ H2). eapply Hm, H1.
Qed.

Lemma restores_get : restores (@get TG).
Proof. intros s a s' [= _ <-]. reflexivity. Qed.

Lemma restores_getattr n name : restores (@getattr TG n name).
Proof.
  intros s a s'. unfold getattr. destruct (lookup_attr s n name); intros [= _ <-];
    reflexivity.
Qed.

Lemma restores_getattr_default n name d : restores (@getattr_default TG n name d).
Proof. intros s a s' [= _ <-]. reflexivity. Qed.

Lemma restores_hasattr n name : restores (@hasattr TG n name).
Proof. intros s a s' [= _ <-]. reflexivity. Qed.

Lemma restores_prop n name : restores (@prop TG n name).
Proof. intros s a s' [= _ <-]. reflexivity. Qed.

Lemma restores_setprop n name v : restores (@setprop TG n name v).
Proof. intros s [] s' [= <-]. reflexivity. Qed.

Lemma restores_appendprop n name v : restores (@appendprop TG n name v).
Proof. intros s [] s' [= <-]. reflexivity. Qed.

Lemma restores_setattr n name v : restores (@setattr TG n name v).
Proof. intros s [] s' [= <-]. reflexivity. Qed.

Lemma restores_on_tokens {A} (op : TG -> outcome A * TG) : restores (on_tokens op).
Proof. apply parses_restores, parses_on_tokens. Qed.

Lemma restores_token v : restores (token tg v).
Proof. apply parses_restores, parses_token. Qed.

Lemma restores_ws max_lines : restores (ws tg max_lines).
Proof. apply parses_restores, parses_ws. Qed.

Lemma restores_token_src t : restores (@token_src TG t).
Proof. apply parses_restores, parses_token_src. Qed.

Lemma restores_for_enumerate_from {A} (l : list A) (body : nat -> A -> M unit) i :
  (forall i x, restores (body i x)) -> restores (for_enumerate_from i l body).
Proof.
  intros Hb. revert i. induction l as [|x l IH]; intros i; simpl.
  - apply restores_ret.
  - apply restores_bind; [apply Hb | intros _; apply IH].
Qed.

Lemma restores_for_enumerate {A} (l : list A) (body : nat -> A -> M unit) :
  (forall i x, restores (body i x)) -> restores (for_enumerate l body).
Proof. apply restores_for_enumerate_from. Qed.

Lemma restores_for_each {A} (l : list A) (body : A -> M unit) :
  (forall x, restores (body x)) -> restores (for_each l body).
Proof. intros H. apply restores_for_enumerate. intros _. exact H. Qed.

Lemma restores_attr n attr_name attr_vals deps :
  restores (attr tg n attr_name attr_vals deps).
Proof.
  unfold attr. apply restores_bind.
  - intros s [] s'. rewrite snapshot_deps_spec. intros [= <-]. reflexivity.
  - intros _. apply restores_bind.
    + apply parses_restores, parses_attr_parts.
    + intros parts. apply restores_setprop.
Qed.

(** One step of a proof that a method restores the context. *)
Ltac restores_step :=
  match goal with
  | |- restores (bind _ _) => apply restores_bind; [| intros ?]
  | |- restores (ret _) => apply restores_ret
  | |- restores (raise _) => apply restores_raise
  | |- restores get => apply restores_get
  | |- restores (getattr _ _) => apply restores_getattr
  | |- restores (getattr_default _ _ _) => apply restores_getattr_default
  | |- restores (hasattr _ _) => apply restores_hasattr
  | |- restores (prop _ _) => apply restores_prop
  | |- restores (setprop _ _ _) => apply restores_setprop
  | |- restores (appendprop _ _ _) => apply restores_appendprop
  | |- restores (setattr _ _ _) => apply restores_setattr
  | |- restores (on_tokens _) => apply restores_on_tokens
  | |- restores (token _ _) => apply restores_token
  | |- restores (ws _ _) => apply restores_ws
  | |- restores (token_src _) => apply restores_token_src
  | |- restores (attr _ _ _ _ _) => apply restores_attr
  | |- restores (for_enumerate _ _) => apply restores_for_enumerate; intros ? ?
  | |- restores (for_each _ _) => apply restores_for_each; intros ?
  | |- restores (if ?b then _ else _) => destruct b
  | |- restores (match ?v with _ => _ end) => destruct v
  | |- restores (let (_, _) := ?p in _) => destruct p
  | H : forall n, restores (?v n) |- restores (?v _) => apply H
  end.

Ltac restores_tac := repeat restores_step.

Lemma restores_optional_token n attr_name token_val :
  restores (optional_token tg n attr_name token_val).
Proof. unfold optional_token. restores_tac. Qed.

Lemma restores_py_len v : restores (@py_len TG v).
Proof. unfold py_len. restores_tac. Qed.

Lemma restores_py_iter v : restores (@py_iter TG v).
Proof. unfold py_iter. restores_tac. Qed.

Lemma restores_py_getitem v i : restores (@py_getitem TG v i).
Proof. unfold py_getitem. restores_tac. Qed.

Lemma restores_py_sub1 v : restores (@py_sub1 TG v).
Proof. unfold py_sub1. restores_tac. Qed.

Lemma restores_getattr_value v name : restores (@getattr_value TG v name).
Proof. unfold getattr_value. restores_tac. Qed.

Lemma restores_check_is_elif v : restores (check_is_elif tg v).
Proof. unfold check_is_elif. restores_tac. Qed.

Lemma restores_check_is_continued_with v : restores (check_is_continued_with tg v).
Proof. unfold check_is_continued_with. restores_tac. Qed.

(** [indented] assigns the indent of the block and assigns the indent of
    the parent back: around a loop body that restores the context, it
    restores the context. *)
Lemma restores_indented n children_attr (body : value -> M unit) :
  (forall v, restores (body v)) -> restores (indented tg n children_attr body).
Proof.
  intros Hb s a s' H. unfold indented in H.
  apply bind_inv_ok in H as (children & s1 & H1 & H).
  apply restores_getattr in H1.
  apply bind_inv_ok in H as (s0 & s2 & [= <- <-] & H).
  cbv zeta in H.
  apply bind_inv_ok in H as (next_loc & s2 & H2 & H).
  assert (s2 = s1) as ->
    by (destruct (peek tg (tokens s1)); [injection H2 as _ <-; reflexivity | discriminate H2]).
  apply bind_inv_ok in H as (len & s2 & H3 & H).
  assert (s2 = s1) as -> by (destruct children; first [discriminate H3 | injection H3 as _ <-; reflexivity]).
  rewrite <- H1.
  destruct ((len =? 1) && _).
  - apply bind_inv_ok in H as (child & s2 & H4 & H).
    apply restores_py_getitem in H4. rewrite <- H4. eapply Hb, H.
  - apply bind_inv_ok in H as (child0 & s2 & H4 & H).
    apply restores_py_getitem in H4.
    apply bind_inv_ok in H as (lineno & s3 & H5 & H).
    apply restores_getattr_value in H5.
    apply bind_inv_ok in H as (i & s4 & H6 & H).
    apply restores_py_sub1 in H6.
    apply bind_inv_ok in H as (line & s5 & H7 & H).
    assert (context s5 = context s4) as H7'
      by (destruct (py_index _ i); [injection H7 as _ <-; reflexivity | discriminate H7]).
    destruct (negb _ || _); [discriminate H |].
    apply bind_inv_ok in H as ([] & s6 & [= <-] & H).
    apply bind_inv_ok in H as (l & s7 & H8 & H).
    apply restores_py_iter in H8.
    apply bind_inv_ok in H as ([] & s8 & H9 & H).
    apply (restores_for_each _ _ Hb) in H9.
    apply bind_inv_ok in H as (s9 & s9' & [= <- <-] & H).
    apply bind_inv_ok in H as (block_suffix & s10 & H10 & H).
    apply restores_on_tokens in H10.
    apply bind_inv_ok in H as ([] & s11 & [= <-] & H).
    injection H as H. subst s'.
    unfold context in *. cbn in *.
    congruence.
Qed.

(** *** The visit methods *)

Section Methods.

Variable visit : node -> M unit.
Hypothesis restores_visit : forall n, restores (visit n).

Create HintDb visitors.

#[local] Hint Unfold visit_value visit_attr visit_each if_attr do_token
  node_type_token generic_visit scope prefix suffix _gen_wrapper expression
  space_around space_left statement block_statement visit_comma_separated
  visit_generators visit_elts _comp_exp visit_or_token one_if len_attr
  py_split_dot py_repeat py_lt0 not_in_ExtSlice visit_If_orelse
  visit_With_keyword visit_With_open visit_With_3 visit_Raise_3 : visitors.

Ltac method_step :=
  first
    [ restores_step
    | match goal with
      | |- restores (indented _ _ _ _) => apply restores_indented; intros ?
      | |- restores (optional_token _ _ _ _) => apply restores_optional_token
      | |- restores (py_len _) => apply restores_py_len
      | |- restores (py_iter _) => apply restores_py_iter
      | |- restores (py_getitem _ _) => apply restores_py_getitem
      | |- restores (check_is_elif _ _) => apply restores_check_is_elif
      | |- restores (check_is_continued_with _ _) =>
          apply restores_check_is_continued_with
      | |- restores (fun s => (_, s)) =>
          let a := fresh in let H := fresh in
          intros ? a ? H; destruct a; injection H as _ <-; reflexivity
      end ].

Ltac method_tac := autounfold with visitors; repeat method_step.

Lemma restores_visit_Call_keywords count n i kw_idx num_items starargs_idx :
  restores (visit_Call_keywords tg visit count n i kw_idx num_items starargs_idx).
Proof.
  revert i kw_idx. induction count as [|count IH]; intros i kw_idx; simpl.
  - apply restores_ret.
  - apply restores_bind; [method_tac |]. intros kw_idx'.
    apply restores_bind; [method_tac |]. intros _. apply IH.
Qed.

Tactic Notation "method" reference(f) :=
  intros n; unfold f; autounfold with visitors;
  repeat first [ apply restores_visit_Call_keywords | method_step ].

Lemma restores_visit_Module : forall n, restores (visit_Module tg visit n).
Proof. method visit_Module. Qed.
Lemma restores_visit_If : forall n, restores (visit_If tg visit n).
Proof. method visit_If. Qed.
Lemma restores_visit_While : forall n, restores (visit_While tg visit n).
Proof. method visit_While. Qed.
Lemma restores_visit_For : forall n, restores (visit_For tg visit n).
Proof. method visit_For. Qed.
Lemma restores_visit_With_3 : forall n, restores (visit_With_3 tg visit n).
Proof. method visit_With_3. Qed.
Lemma restores_visit_With : forall n, restores (visit_With tg visit n).
Proof. method visit_With. Qed.
Lemma restores_visit_withitem : forall n, restores (visit_withitem tg visit n).
Proof. method visit_withitem. Qed.
Lemma restores_visit_ClassDef : forall n, restores (visit_ClassDef tg visit n).
Proof. method visit_ClassDef. Qed.
Lemma restores_visit_FunctionDef : forall n, restores (visit_FunctionDef tg visit n).
Proof. method visit_FunctionDef. Qed.
Lemma restores_visit_TryFinally : forall n, restores (visit_TryFinally tg visit n).
Proof. method visit_TryFinally. Qed.
Lemma restores_visit_TryExcept : forall n, restores (visit_TryExcept tg visit n).
Proof. method visit_TryExcept. Qed.
Lemma restores_visit_Try : forall n, restores (visit_Try tg visit n).
Proof. method visit_Try. Qed.
Lemma restores_visit_ExceptHandler : forall n, restores (visit_ExceptHandler tg visit n).
Proof. method visit_ExceptHandler. Qed.
Lemma restores_visit_Raise_3 : forall n, restores (visit_Raise_3 tg visit n).
Proof. method visit_Raise_3. Qed.
Lemma restores_visit_Raise : forall n, restores (visit_Raise tg visit n).
Proof. method visit_Raise. Qed.
Lemma restores_visit_Assert : forall n, restores (visit_Assert tg visit n).
Proof. method visit_Assert. Qed.
Lemma restores_visit_Assign : forall n, restores (visit_Assign tg visit n).
Proof. method visit_Assign. Qed.
Lemma restores_visit_AugAssign :
  forall n, restores (visit_AugAssign tg NODE_TYPE_TO_TOKENS visit n).
Proof. method visit_AugAssign. Qed.
Lemma restores_visit_Break : forall n, restores (visit_Break tg n).
Proof. method visit_Break. Qed.
Lemma restores_visit_Continue : forall n, restores (visit_Continue tg n).
Proof. method visit_Continue. Qed.
Lemma restores_visit_Delete : forall n, restores (visit_Delete tg visit n).
Proof. method visit_Delete. Qed.
Lemma restores_visit_Exec : forall n, restores (visit_Exec tg visit n).
Proof. method visit_Exec. Qed.
Lemma restores_visit_Expr : forall n, restores (visit_Expr tg visit n).
Proof. method visit_Expr. Qed.
Lemma restores_visit_Global : forall n, restores (visit_Global tg n).
Proof. method visit_Global. Qed.
Lemma restores_visit_Import : forall n, restores (visit_Import tg visit n).
Proof. method visit_Import. Qed.
Lemma restores_visit_ImportFrom : forall n, restores (visit_ImportFrom tg visit n).
Proof. method visit_ImportFrom. Qed.
Lemma restores_visit_Nonlocal : forall n, restores (visit_Nonlocal tg n).
Proof. method visit_Nonlocal. Qed.
Lemma restores_visit_Pass : forall n, restores (visit_Pass tg n).
Proof. method visit_Pass. Qed.
Lemma restores_visit_Print : forall n, restores (visit_Print tg visit n).
Proof. method visit_Print. Qed.
Lemma restores_visit_Return : forall n, restores (visit_Return tg visit n).
Proof. method visit_Return. Qed.
Lemma restores_visit_Yield : forall n, restores (visit_Yield tg visit n).
Proof. method visit_Yield. Qed.
Lemma restores_visit_Attribute : forall n, restores (visit_Attribute tg visit n).
Proof. method visit_Attribute. Qed.
Lemma restores_visit_BinOp : forall n, restores (visit_BinOp tg visit n).
Proof. method visit_BinOp. Qed.
Lemma restores_visit_BoolOp :
  forall n, restores (visit_BoolOp tg NODE_TYPE_TO_TOKENS visit n).
Proof. method visit_BoolOp. Qed.
Lemma restores_visit_Call : forall n, restores (visit_Call tg find_starargs visit n).
Proof. method visit_Call. Qed.
Lemma restores_visit_Compare : forall n, restores (visit_Compare tg visit n).
Proof. method visit_Compare. Qed.
Lemma restores_visit_Dict : forall n, restores (visit_Dict tg visit n).
Proof. method visit_Dict. Qed.
Lemma restores_visit_DictComp : forall n, restores (visit_DictComp tg visit n).
Proof. method visit_DictComp. Qed.
Lemma restores_visit_GeneratorExp : forall n, restores (visit_GeneratorExp tg visit n).
Proof. method visit_GeneratorExp. Qed.
Lemma restores_visit_IfExp : forall n, restores (visit_IfExp tg visit n).
Proof. method visit_IfExp. Qed.
Lemma restores_visit_Lambda : forall n, restores (visit_Lambda tg visit n).
Proof. method visit_Lambda. Qed.
Lemma restores_visit_List : forall n, restores (visit_List tg visit n).
Proof. method visit_List. Qed.
Lemma restores_visit_ListComp : forall n, restores (visit_ListComp tg visit n).
Proof. method visit_ListComp. Qed.
Lemma restores_visit_Name : forall n, restores (visit_Name tg n).
Proof. method visit_Name. Qed.
Lemma restores_visit_NameConstant : forall n, restores (visit_NameConstant tg n).
Proof. method visit_NameConstant. Qed.
Lemma restores_visit_Repr : forall n, restores (visit_Repr tg visit n).
Proof. method visit_Repr. Qed.
Lemma restores_visit_Set : forall n, restores (visit_Set tg visit n).
Proof. method visit_Set. Qed.
Lemma restores_visit_SetComp : forall n, restores (visit_SetComp tg visit n).
Proof. method visit_SetComp. Qed.
Lemma restores_visit_Subscript : forall n, restores (visit_Subscript tg visit n).
Proof. method visit_Subscript. Qed.
Lemma restores_visit_Tuple : forall n, restores (visit_Tuple tg visit n).
Proof. method visit_Tuple. Qed.
Lemma restores_visit_UnaryOp : forall n, restores (visit_UnaryOp tg visit n).
Proof. method visit_UnaryOp. Qed.
Lemma restores_visit_operator :
  forall n, restores (visit_operator tg NODE_TYPE_TO_TOKENS n).
Proof. method visit_operator. Qed.
Lemma restores_visit_IsNot : forall n, restores (visit_IsNot tg n).
Proof. method visit_IsNot. Qed.
Lemma restores_visit_NotIn : forall n, restores (visit_NotIn tg n).
Proof. method visit_NotIn. Qed.
Lemma restores_visit_alias : forall n, restores (visit_alias tg n).
Proof. method visit_alias. Qed.
Lemma restores_visit_arg : forall n, restores (visit_arg tg visit n).
Proof. method visit_arg. Qed.
Lemma restores_visit_arguments : forall n, restores (visit_arguments tg visit n).
Proof. method visit_arguments. Qed.
Lemma restores_visit_comprehension : forall n, restores (visit_comprehension tg visit n).
Proof. method visit_comprehension. Qed.
Lemma restores_visit_keyword : forall n, restores (visit_keyword tg visit n).
Proof. method visit_keyword. Qed.
Lemma restores_visit_Index : forall n, restores (visit_Index tg visit n).
Proof. method visit_Index. Qed.
Lemma restores_visit_ExtSlice : forall n, restores (visit_ExtSlice tg visit n).
Proof. method visit_ExtSlice. Qed.
Lemma restores_visit_Slice : forall n, restores (visit_Slice tg visit n).
Proof. method visit_Slice. Qed.
Lemma restores_visit_Num : forall n, restores (visit_Num tg n).
Proof. method visit_Num. Qed.
Lemma restores_visit_Str : forall n, restores (visit_Str tg n).
Proof. method visit_Str. Qed.
Lemma restores_visit_Ellipsis : forall n, restores (visit_Ellipsis tg n).
Proof. method visit_Ellipsis. Qed.
Lemma restores_generic_visit : forall n, restores (generic_visit visit n).
Proof. method generic_visit. Qed.

Lemma restores_methods :
  Forall (fun m => forall n, restores (snd m n))
         (methods tg NODE_TYPE_TO_TOKENS find_starargs visit).
Proof.
  unfold methods. apply Forall_app. split.
  - apply Forall_cons; split; [exact restores_visit_Module |].
    apply Forall_cons; split; [exact restores_visit_If |].
    apply Forall_cons; split; [exact restores_visit_While |].
    apply Forall_cons; split; [exact restores_visit_For |].
    apply Forall_cons; split; [exact restores_visit_With |].
    apply Forall_cons; split; [exact restores_visit_With_3 |].
    apply Forall_cons; split; [exact restores_visit_withitem |].
    apply Forall_cons; split; [exact restores_visit_ClassDef |].
    apply Forall_cons; split; [exact restores_visit_FunctionDef |].
    apply Forall_cons; split; [exact restores_visit_TryFinally |].
    apply Forall_cons; split; [exact restores_visit_TryExcept |].
    apply Forall_cons; split; [exact restores_visit_Try |].
    apply Forall_cons; split; [exact restores_visit_ExceptHandler |].
    apply Forall_cons; split; [exact restores_visit_Raise |].
    apply Forall_cons; split; [exact restores_visit_Raise_3 |].
    apply Forall_cons; split; [exact restores_visit_Assert |].
    apply Forall_cons; split; [exact restores_visit_Assign |].
    apply Forall_cons; split; [exact restores_visit_AugAssign |].
    apply Forall_cons; split; [exact restores_visit_Break |].
    apply Forall_cons; split; [exact restores_visit_Continue |].
    apply Forall_cons; split; [exact restores_visit_Delete |].
    apply Forall_cons; split; [exact restores_visit_Exec |].
    apply Forall_cons; split; [exact restores_visit_Expr |].
    apply Forall_cons; split; [exact restores_visit_Global |].
    apply Forall_cons; split; [exact restores_visit_Import |].
    apply Forall_cons; split; [exact restores_visit_ImportFrom |].
    apply Forall_cons; split; [exact restores_visit_Nonlocal |].
    apply Forall_cons; split; [exact restores_visit_Pass |].
    apply Forall_cons; split; [exact restores_visit_Print |].
    apply Forall_cons; split; [exact restores_visit_Return |].
    apply Forall_cons; split; [exact restores_visit_Yield |].
    apply Forall_cons; split; [exact restores_visit_Attribute |].
    apply Forall_cons; split; [exact restores_visit_BinOp |].
    apply Forall_cons; split; [exact restores_visit_BoolOp |].
    apply Forall_cons; split; [exact restores_visit_Call |].
    apply Forall_cons; split; [exact restores_visit_Compare |].
    apply Forall_cons; split; [exact restores_visit_Dict |].
    apply Forall_cons; split; [exact restores_visit_DictComp |].
    apply Forall_cons; split; [exact restores_visit_GeneratorExp |].
    apply Forall_cons; split; [exact restores_visit_IfExp |].
    apply Forall_cons; split; [exact restores_visit_Lambda |].
    apply Forall_cons; split; [exact restores_visit_List |].
    apply Forall_cons; split; [exact restores_visit_ListComp |].
    apply Forall_cons; split; [exact restores_visit_Name |].
    apply Forall_cons; split; [exact restores_visit_NameConstant |].
    apply Forall_cons; split; [exact restores_visit_Repr |].
    apply Forall_cons; split; [exact restores_visit_Set |].
    apply Forall_cons; split; [exact restores_visit_SetComp |].
    apply Forall_cons; split; [exact restores_visit_Subscript |].
    apply Forall_cons; split; [exact restores_visit_Tuple |].
    apply Forall_cons; split; [exact restores_visit_UnaryOp |].
    apply Forall_cons; split; [exact restores_visit_IsNot |].
    apply Forall_cons; split; [exact restores_visit_NotIn |].
    apply Forall_cons; split; [exact restores_visit_alias |].
    apply Forall_cons; split; [exact restores_visit_arg |].
    apply Forall_cons; split; [exact restores_visit_arguments |].
    apply Forall_cons; split; [exact restores_visit_comprehension |].
    apply Forall_cons; split; [exact restores_visit_keyword |].
    apply Forall_cons; split; [exact restores_visit_Index |].
    apply Forall_cons; split; [exact restores_visit_ExtSlice |].
    apply Forall_cons; split; [exact restores_visit_Slice |].
    apply Forall_cons; split; [exact restores_visit_Num |].
    apply Forall_cons; split; [exact restores_visit_Str |].
    apply Forall_cons; split; [exact restores_visit_Ellipsis |].
    constructor.
  - apply Forall_fmap, Forall_forall. intros c _. exact restores_visit_operator.
Qed.

Lemma lookup_method_Forall (P : (node -> M unit) -> Prop) name l m :
  Forall (fun p => P (snd p)) l ->
  lookup_method name l = Some m -> P m.
Proof.
  induction 1 as [|[name' m'] l Hm _ IH]; simpl; [discriminate |].
  destruct (String.eqb name name'); [intros [= <-]; exact Hm | exact IH].
Qed.

Lemma restores_NodeVisitor_visit n :
  restores (NodeVisitor_visit tg NODE_TYPE_TO_TOKENS find_starargs visit n).
Proof.
  unfold NodeVisitor_visit.
  destruct (lookup_method _ _) as [visitor|] eqn:E.
  - apply (lookup_method_Forall (fun m => forall n, restores (m n)) _ _ _
             restores_methods E).
  - apply restores_generic_visit.
Qed.

End Methods.

Lemma stack_pop_pushed (s : AstAnnotator) (st : list node) (n : node) :
  _stack s = (st ++ [n])%list -> stack_pop s = (Ok n, set_stack st s).
Proof.
  intros H. unfold stack_pop. rewrite H, rev_app_distr. simpl.
  rewrite rev_involutive. reflexivity.
Qed.

(** [BaseVisitor.visit] runs the method of the node with the node on top of
    the stack, and pops it. *)
Lemma BaseVisitor_visit_unfold (visit : node -> M unit) (n : node) (s : AstAnnotator) :
  BaseVisitor_visit tg NODE_TYPE_TO_TOKENS find_starargs visit n s
  = (NodeVisitor_visit tg NODE_TYPE_TO_TOKENS find_starargs visit n >>
     assert_popped n) (set_stack (_stack s ++ [n])%list s).
Proof. reflexivity. Qed.

Lemma restores_BaseVisitor_visit (visit : node -> M unit) (n : node) :
  (forall n, restores (visit n)) ->
  restores (BaseVisitor_visit tg NODE_TYPE_TO_TOKENS find_starargs visit n).
Proof.
  intros Hv s a s' H. rewrite BaseVisitor_visit_unfold in H.
  apply bind_inv_ok in H as ([] & s1 & H1 & H).
  apply (restores_NodeVisitor_visit visit Hv) in H1.
  unfold assert_popped in H.
  injection H1 as Hst Hi Hd. cbn in Hst, Hi, Hd.
  erewrite bind_ok in H by (apply stack_pop_pushed, Hst).
  destruct (node_is n n); [| discriminate H].
  injection H as _ H. subst s'. unfold context. cbn. congruence.
Qed.

Lemma try_except_ok (body : M unit) (s s' : AstAnnotator) a :
  try_except body s = (Ok a, s') -> body s = (Ok a, s').
Proof.
  unfold try_except. destruct (body s) as [[[]|e] s1]; [intros H; exact H |].
  destruct (caught_by_visit e); discriminate.
Qed.

Lemma restores_visit_try (visit : node -> M unit) (n : node) :
  (forall n, restores (visit n)) ->
  restores (visit_try tg NODE_TYPE_TO_TOKENS find_starargs visit n).
Proof.
  intros Hv. unfold visit_try.
  repeat first [ apply restores_BaseVisitor_visit; exact Hv | restores_step ].
Qed.

Lemma restores_visit_depth depth n :
  restores (visit tg NODE_TYPE_TO_TOKENS find_starargs depth n).
Proof.
  revert n. induction depth as [|depth IH]; intros n; simpl.
  - apply restores_raise.
  - intros s a s' H. apply try_except_ok in H.
    eapply restores_visit_try; [exact IH | exact H].
Qed.

(** ** The three claims about [visit] *)

#[local] Abbreviation visit_at depth := (visit tg NODE_TYPE_TO_TOKENS find_starargs depth).
#[local] Abbreviation dispatch_at depth :=
  (NodeVisitor_visit tg NODE_TYPE_TO_TOKENS find_starargs (visit_at depth)).

Lemma visit_enter (depth : nat) (n : node) (s : AstAnnotator) :
  visit_at (S depth) n s
  = try_except (dispatch_at depth n >> assert_popped n) (enter n s).
Proof. reflexivity. Qed.

(** C5: a call of [visit] on any node (which the recursion limit lets
    through) runs the method of the node, where its slots are, in the state
    [enter n s]: the properties [indent] and [indent_diff] of the node hold
    the indent context of the caller, the node is on the stack, and the
    token generator is where it was, so nothing of the node has been
    parsed. *)
Theorem indent_context_first (depth : nat) (n : node) (s : AstAnnotator) :
  visit_at (S depth) n s
  = try_except (dispatch_at depth n >> assert_popped n) (enter n s)
  /\ props (enter n s) !! (nid n, "indent") = Some (VStr (_indent s))
  /\ props (enter n s) !! (nid n, "indent_diff") = Some (VStr (_indent_diff s))
  /\ tokens (enter n s) = tokens s.
Proof.
  split; [apply visit_enter |]. split; [| split; [| reflexivity]].
  - cbn [enter props set_props set_stack].
    rewrite lookup_insert_ne by (intros [= ]). apply lookup_insert_eq.
  - cbn [enter props set_props set_stack]. apply lookup_insert_eq.
Qed.

(** C6, as the code has it: [visit] re-raises a [TypeError], [ValueError],
    [IndexError] or [KeyError] raised below it as an [AnnotationError]
    holding that exception, and lets any other exception through as it is;
    it returns normally only when the suite of its [try] does.  So no
    exception of those four classes leaves [visit], and a failure below is
    never turned into a normal return. *)
Theorem visit_normalizes (depth : nat) (n : node) (s : AstAnnotator) :
  (forall e s', visit_at depth n s = (Raise e, s') -> caught_by_visit e = false)
  /\ (forall e s',
        visit_try tg NODE_TYPE_TO_TOKENS find_starargs (visit_at depth) n s
        = (Raise e, s') ->
        visit_at (S depth) n s
        = (Raise (if caught_by_visit e then AnnotationError (Caught e) else e), s'))
  /\ (forall s',
        visit_at (S depth) n s = (Ok tt, s') ->
        visit_try tg NODE_TYPE_TO_TOKENS find_starargs (visit_at depth) n s
        = (Ok tt, s')).
Proof.
  split; [| split].
  - destruct depth as [|depth]; simpl.
    + intros e s' [= <- _]. reflexivity.
    + unfold AstAnnotator_visit, try_except.
      destruct (visit_try _ _ _ _ _ s) as [[a|e0] s1]; [discriminate |].
      destruct (caught_by_visit e0) eqn:E; intros e s' [= <- _];
        [reflexivity | exact E].
  - intros e s' H. simpl. unfold AstAnnotator_visit, try_except. rewrite H.
    destruct (caught_by_visit e); reflexivity.
  - intros s' H. apply try_except_ok, H.
Qed.

(** C9: when [visit] returns, the stack is what it was before the call.
    The method of the node ran with exactly that node pushed on the stack
    the caller had, left the stack in that state, and the node popped after
    it is that node.  A pass started on the empty stack ends on the empty
    stack. *)
Theorem stack_balanced (depth : nat) (n : node) (s s' : AstAnnotator) :
  visit_at depth n s = (Ok tt, s') ->
  _stack s' = _stack s
  /\ (exists depth' s2,
        depth = S depth'
        /\ _stack (enter n s) = (_stack s ++ [n])%list
        /\ dispatch_at depth' n (enter n s) = (Ok tt, s2)
        /\ _stack s2 = (_stack s ++ [n])%list
        /\ stack_pop s2 = (Ok n, s'))
  /\ (_stack s = [] -> _stack s' = []).
Proof.
  intros H.
  assert (Hst : _stack s' = _stack s).
  { apply restores_visit_depth in H. injection H as -> _ _. reflexivity. }
  split; [exact Hst |]. split; [| intros E; rewrite Hst; exact E].
  destruct depth as [|depth]; [discriminate H |].
  pose proof H as H'. clear H.
  rewrite visit_enter in H'.
  apply try_except_ok in H'.
  apply bind_inv_ok in H' as ([] & s2 & H1 & H2).
  exists depth, s2. split; [reflexivity |]. split; [reflexivity |].
  split; [exact H1 |].
  apply (restores_NodeVisitor_visit _ (restores_visit_depth depth)) in H1 as Hc.
  injection Hc as Hc _ _. cbn in Hc.
  split; [exact Hc |].
  unfold assert_popped in H2.
  rewrite (bind_ok _ _ _ _ _ (stack_pop_pushed _ _ _ Hc)) in H2.
  rewrite (stack_pop_pushed _ _ _ Hc).
  destruct (node_is n n); [| discriminate H2].
  injection H2 as <-. reflexivity.
Qed.


(** * Further properties *)

(** ** The text of the indent and of dotted names *)

Lemma str_in_blank (c : ascii) :
  str_in (String c EmptyString) blank = true <-> is_blank c.
Proof.
  unfold str_in, blank, is_blank. cbn.
  destruct (Ascii.ascii_dec c (ascii_of_nat 32)) as [->|H32].
  - cbn. split; [left; reflexivity | reflexivity].
  - destruct (Ascii.ascii_dec c (ascii_of_nat 9)) as [->|H9].
    + cbn. split; [right; reflexivity | reflexivity].
    + cbn. split; [discriminate | intros [H|H]; contradiction].
Qed.

(** X1: the indent [indented] reads from a line is the longest prefix of
    the line made of spaces and tabs: the line is that indent followed by a
    rest that does not start with a space or a tab. *)
Theorem takewhile_blank_longest (line : string) :
  exists rest,
    line = takewhile_blank line +:+ rest
    /\ Forall is_blank (String.list_ascii_of_string (takewhile_blank line))
    /\ match rest with
       | String c _ => ~ is_blank c
       | EmptyString => True
       end.
Proof.
  induction line as [|c line (rest & Heq & Hall & Hrest)].
  - exists EmptyString. repeat split. constructor.
  - cbn [takewhile_blank].
    destruct (str_in (String c EmptyString) blank) eqn:E.
    + exists rest.
      split; [change (String c line = String c (takewhile_blank line +:+ rest));
              f_equal; exact Heq |].
      split; [| exact Hrest].
      cbn. constructor; [apply str_in_blank, E | exact Hall].
    + exists (String c line). split; [reflexivity |].
      split; [constructor |].
      intros H. apply str_in_blank in H. rewrite H in E. discriminate E.
Qed.

Lemma append_assoc (a b c : string) : (a +:+ b) +:+ c = a +:+ (b +:+ c).
Proof.
  induction a as [|x a IH]; [reflexivity |].
  change (String x ((a +:+ b) +:+ c) = String x (a +:+ (b +:+ c))).
  f_equal. exact IH.
Qed.

Lemma append_nil_r (a : string) : a +:+ EmptyString = a.
Proof.
  induction a as [|x a IH]; [reflexivity |].
  change (String x (a +:+ EmptyString) = String x a). f_equal. exact IH.
Qed.

Lemma literals_app (a b : list attr_val) :
  literals (a ++ b) = literals a +:+ literals b.
Proof.
  induction a as [|x a IH]; [reflexivity |].
  destruct x as [v| | | |]; cbn [app literals]; try exact IH.
  destruct v; try exact IH. rewrite IH.
  symmetry. apply append_assoc.
Qed.

Lemma dotted_pattern_literals (parts : list string) :
  literals (dotted_pattern parts) = String.concat "." parts.
Proof.
  induction parts as [|p parts IH]; [reflexivity |].
  destruct parts as [|q parts].
  - cbn. apply append_nil_r.
  - change (dotted_pattern (p :: q :: parts))
      with ([Fws None; Tok (VStr p); Fws None; Tok (VStr ".")]
              ++ dotted_pattern (q :: parts))%list.
    rewrite literals_app, IH. cbn [literals String.concat].
    rewrite append_nil_r. apply append_assoc.
Qed.

Lemma split_on_nonempty (sep : ascii) (s : string) : split_on sep s <> [].
Proof.
  destruct s as [|c s]; cbn; [discriminate |].
  destruct (Ascii.eqb c sep); [discriminate |].
  destruct (split_on sep s); discriminate.
Qed.

Lemma concat_split_on (sep : ascii) (s : string) :
  String.concat (String sep EmptyString) (split_on sep s) = s.
Proof.
  induction s as [|c s IH]; [reflexivity |].
  cbn [split_on]. pose proof (split_on_nonempty sep s) as Hn.
  destruct (split_on sep s) as [|p ps]; [contradiction Hn; reflexivity |].
  destruct (Ascii.eqb_spec c sep) as [->|Hne].
  - change (String sep (String.concat (String sep EmptyString) (p :: ps))
            = String sep s).
    f_equal. exact IH.
  - destruct ps as [|q ps].
    + change (String c p = String c s). f_equal. exact IH.
    + change (String c (String.concat (String sep EmptyString) (p :: q :: ps))
              = String c s).
      f_equal. exact IH.
Qed.

(** X2: the slot [visit_ImportFrom] and [visit_alias] build for a dotted
    name matches, token by token, exactly the text of the name: the parts
    of [name.split('.')] with a dot between two parts, and splitting loses
    nothing of the name. *)
Theorem dotted_name_round_trip (name : string) :
  String.concat "." (split_on "." name) = name
  /\ literals (dotted_pattern (split_on "." name)) = name.
Proof.
  split; [apply concat_split_on |].
  rewrite dotted_pattern_literals. apply concat_split_on.
Qed.


Lemma identifiers_literals (first : string) (names : list string) :
  literals
    (mjoin ((fun ident =>
               ((if negb (py_eq ident (VStr first))
                 then [Fws None; Tok (VStr ",")] else [])
                ++ [Fws None; Tok ident])%list) <$> (VStr <$> names)))
  = after_first first names.
Proof.
  induction names as [|name names IH]; [reflexivity |].
  cbn [fmap list_fmap mjoin list_join]. rewrite literals_app.
  cbn [after_first py_eq py_is]. f_equal; [| exact IH].
  destruct (String.eqb name first); cbn; rewrite append_nil_r; reflexivity.
Qed.

Lemma after_first_fresh (first : string) (names : list string) :
  first ∉ names ->
  after_first first names
  = String.concat EmptyString ((fun name => "," +:+ name) <$> names).
Proof.
  induction names as [|name names IH]; intros Hn; [reflexivity |].
  cbn [after_first fmap list_fmap].
  destruct (String.eqb_spec name first) as [->|_];
    [exfalso; apply Hn; left |].
  rewrite IH by (intros H; apply Hn; right; exact H).
  destruct names; [cbn; rewrite !append_nil_r; reflexivity | reflexivity].
Qed.

Lemma concat_commas (first : string) (names : list string) :
  first +:+ String.concat EmptyString ((fun name => "," +:+ name) <$> names)
  = String.concat "," (first :: names).
Proof.
  revert first. induction names as [|name names IH]; intros first.
  - cbn. apply append_nil_r.
  - cbn [fmap list_fmap]. specialize (IH name).
    change (String.concat "," (first :: name :: names))
      with (first +:+ "," +:+ String.concat "," (name :: names)).
    rewrite <- IH. f_equal.
    destruct names; cbn; [rewrite !append_nil_r; reflexivity |].
    apply append_assoc.
Qed.

(** X3: the slot [names] of [visit_Global] and [visit_Nonlocal] matches
    each name after a comma, except the names equal to the first one, which
    the test [ident != node.names[0]] leaves without a comma.  When the
    first name does not occur again, the tokens matched are the names
    joined by commas. *)
Theorem identifiers_commas (first : string) (rest : list string) :
  literals (identifiers (VStr <$> (first :: rest)))
  = after_first first (first :: rest)
  /\ (first ∉ rest ->
      literals (identifiers (VStr <$> (first :: rest)))
      = String.concat "," (first :: rest)).
Proof.
  assert (H : literals (identifiers (VStr <$> (first :: rest)))
              = after_first first (first :: rest))
    by apply (identifiers_literals first (first :: rest)).
  split; [exact H |]. intros Hn. rewrite H.
  cbn [after_first]. rewrite String.eqb_refl, (after_first_fresh _ _ Hn).
  apply concat_commas.
Qed.

(** ** Edges of [indented] *)

(** X4: [indented] fails before any child is visited, and with the state
    untouched, when the node has no such child list or the source has no
    token left ([AttributeError]), and when the child list is empty
    ([IndexError], which [visit] reports as an [AnnotationError]). *)
Theorem indented_edges (parent : node) (children_attr : string)
    (body : value -> M unit) (s : AstAnnotator) :
  (lookup_attr s parent children_attr = None ->
   indented tg parent children_attr body s = (Raise (PyExc AttributeError), s))
  /\ (forall children,
        lookup_attr s parent children_attr = Some children ->
        peek tg (tokens s) = None ->
        indented tg parent children_attr body s
        = (Raise (PyExc AttributeError), s))
  /\ (forall next_tok,
        lookup_attr s parent children_attr = Some (VList []) ->
        peek tg (tokens s) = Some next_tok ->
        indented tg parent children_attr body s = (Raise (PyExc IndexError), s)
        /\ caught_by_visit (PyExc IndexError) = true).
Proof.
  split; [| split].
  - intros H. unfold indented, bind, getattr. rewrite H. reflexivity.
  - intros children H Hp. unfold indented.
    erewrite bind_ok by (unfold getattr; rewrite H; reflexivity).
    erewrite bind_ok by reflexivity.
    cbv zeta. rewrite Hp. reflexivity.
  - intros next_tok H Hp. split; [| reflexivity]. unfold indented.
    erewrite bind_ok by (unfold getattr; rewrite H; reflexivity).
    erewrite bind_ok by reflexivity.
    cbv zeta. rewrite Hp.
    erewrite bind_ok by reflexivity.
    erewrite bind_ok by reflexivity.
    reflexivity.
Qed.

(** [indented] on its indentation-tracking path, up to the indent check. *)
Lemma indented_tracking (parent : node) (children_attr : string)
    (body : value -> M unit) (s : AstAnnotator) (child0 : node)
    (rest : list value) (next_tok : Token) (lineno : Z) (line : string) :
  lookup_attr s parent children_attr = Some (VList (VNode child0 :: rest)) ->
  peek tg (tokens s) = Some next_tok ->
  (rest = [] -> fst (_loc tg (tokens s)) <> fst (start next_tok)) ->
  lookup_attr s child0 "lineno" = Some (VInt lineno) ->
  py_index (lines tg (tokens s)) (lineno - 1) = Some line ->
  indented tg parent children_attr body s =
    (if negb (String.prefix (_indent s) (takewhile_blank line))
        || (String.length (takewhile_blank line) <=? String.length (_indent s))%nat
     then raise indent_error
     else modify (set_indent (takewhile_blank line)
                    (str_from (String.length (_indent s)) (takewhile_blank line))) >>
          indented_block tg parent children_attr body (VNode child0 :: rest)
            (_indent s) (_indent_diff s)) s.
Proof.
  intros Hc Hp Hsame Hln Hline.
  assert (Hspecial : (Z.of_nat (S (length rest)) =? 1)
                     && (fst (_loc tg (tokens s)) =? fst (start next_tok)) = false).
  { destruct rest as [|r rest'].
    - apply andb_false_intro2, Z.eqb_neq, Hsame. reflexivity.
    - apply andb_false_intro1, Z.eqb_neq. simpl length. lia. }
  unfold indented.
  erewrite bind_ok by (unfold getattr; rewrite Hc; reflexivity).
  erewrite bind_ok by reflexivity.
  cbv zeta. rewrite Hp.
  erewrite bind_ok by reflexivity.
  erewrite bind_ok by reflexivity.
  change (length (VNode child0 :: rest)) with (S (length rest)).
  rewrite Hspecial.
  erewrite bind_ok by reflexivity.
  erewrite bind_ok
    by (unfold getattr_value, getattr; rewrite Hln; reflexivity).
  erewrite bind_ok by reflexivity.
  rewrite Hline.
  erewrite bind_ok by reflexivity.
  destruct (negb _ || _); reflexivity.
Qed.

Lemma restores_visit_value (depth : nat) (v : value) :
  restores (visit_value (visit_at depth) v).
Proof.
  destruct v; try apply restores_raise. apply restores_visit_depth.
Qed.

(** X5: when a block whose indentation is tracked has been annotated, its
    children were visited at the new indent, [block_whitespace] was called
    with that indent on the source just after the last child, its result is
    the property [block_suffix_<children_attr>] of the block node, and
    [_indent] and [_indent_diff] are those of before the block. *)
Theorem indented_block_suffix (depth : nat) (parent : node)
    (children_attr : string) (s s' : AstAnnotator) (child0 : node)
    (rest : list value) (next_tok : Token) (lineno : Z) (line : string) :
  lookup_attr s parent children_attr = Some (VList (VNode child0 :: rest)) ->
  peek tg (tokens s) = Some next_tok ->
  (rest = [] -> fst (_loc tg (tokens s)) <> fst (start next_tok)) ->
  lookup_attr s child0 "lineno" = Some (VInt lineno) ->
  py_index (lines tg (tokens s)) (lineno - 1) = Some line ->
  indented tg parent children_attr (visit_value (visit_at depth)) s = (Ok tt, s') ->
  exists diff s2 block_suffix,
    takewhile_blank line = _indent s +:+ diff
    /\ for_each (VNode child0 :: rest) (visit_value (visit_at depth))
         (set_indent (takewhile_blank line) diff s) = (Ok tt, s2)
    /\ block_whitespace tg (takewhile_blank line) (tokens s2)
       = (Ok block_suffix, tokens s')
    /\ props s' = <[(nid parent, "block_suffix_" +:+ children_attr) :=
                      VStr block_suffix]> (props s2)
    /\ _indent s' = _indent s
    /\ _indent_diff s' = _indent_diff s
    /\ _stack s' = _stack s.
Proof.
  intros Hc Hp Hsame Hln Hline H.
  rewrite (indented_tracking _ _ _ _ _ _ _ _ _ Hc Hp Hsame Hln Hline) in H.
  destruct (negb _ || _) eqn:E; [discriminate H |].
  apply indent_check_spec in E as (diff & _ & Heq).
  rewrite Heq in H at 2. rewrite str_from_append in H.
  exists diff.
  apply bind_inv_ok in H as ([] & s1 & [= <-] & H).
  unfold indented_block in H.
  apply bind_inv_ok in H as ([] & s2 & H2 & H).
  exists s2.
  apply bind_inv_ok in H as (s3 & s3' & [= <- <-] & H).
  apply bind_inv_ok in H as (block_suffix & s4 & H4 & H).
  exists block_suffix.
  apply bind_inv_ok in H as ([] & s5 & [= <-] & H).
  injection H as H. subst s'.
  pose proof (restores_for_each _ _ (restores_visit_value depth) _ _ _ H2) as Hctx.
  injection Hctx as Hst Hin Hdi. cbn in Hst, Hin, Hdi.
  unfold on_tokens in H4. rewrite Hin in H4.
  destruct (block_whitespace tg (takewhile_blank line) (tokens s2))
    as [r T] eqn:Hb.
  injection H4 as -> <-.
  repeat split; try reflexivity; try assumption.
Qed.

(** X6: whenever [visit] returns, [_indent] and [_indent_diff] are what they
    were when it was called: every block that was entered has been left. *)
Theorem visit_restores_indent (depth : nat) (n : node) (s s' : AstAnnotator) :
  visit_at depth n s = (Ok tt, s') ->
  _indent s' = _indent s /\ _indent_diff s' = _indent_diff s.
Proof.
  intros H. apply restores_visit_depth in H.
  injection H as _ Hi Hd. split; assumption.
Qed.

(** ** What annotating keeps *)

Lemma restores_stack {A} (m : M A) (s s' : AstAnnotator) a :
  restores m -> m s = (Ok a, s') -> _stack s' = _stack s.
Proof. intros Hm H. apply Hm in H. injection H as -> _ _. reflexivity. Qed.

Lemma keeps_refl (s : AstAnnotator) : keeps s s.
Proof.
  split; [intros k H; exact H |]. split; [reflexivity |].
  split; [left; reflexivity |]. exists []. symmetry. apply app_nil_r.
Qed.

Lemma keeps_trans (s1 s2 s3 : AstAnnotator) : keeps s1 s2 -> keeps s2 s3 -> keeps s1 s3.
Proof.
  intros (P1 & A1 & C1 & (r1 & S1)) (P2 & A2 & C2 & (r2 & S2)).
  split; [| split; [| split]].
  - intros k H. apply P2, P1, H.
  - intros i name H. rewrite (A2 i name H). apply A1, H.
  - intros i. destruct (C2 i) as [E|E]; [rewrite E; apply C1 | right; exact E].
  - exists (r1 ++ r2)%list. rewrite S2, S1. symmetry. apply app_assoc.
Qed.

Lemma keeps_same (s s' : AstAnnotator) :
  props s' = props s -> attrs s' = attrs s -> _stack s' = _stack s -> keeps s s'.
Proof.
  intros Hp Ha Hs. unfold keeps. rewrite Hp, Ha, Hs. apply keeps_refl.
Qed.

Lemma keeps_moved (s s' : AstAnnotator) : moved s s' -> keeps s s'.
Proof. intros ->. apply keeps_same; reflexivity. Qed.

Lemma keeps_insert (s : AstAnnotator) (k : nat * string) (v : value) :
  keeps s (set_props (<[k := v]> (props s)) s).
Proof.
  destruct (keeps_refl s) as (_ & A & C & S).
  split; [| split; [exact A | split; [exact C | exact S]]].
  intros k' H. cbn. destruct (decide (k = k')) as [->|Hne].
  - rewrite lookup_insert_eq. eexists. reflexivity.
  - rewrite lookup_insert_ne by exact Hne. exact H.
Qed.

Lemma steps_parses {A} (m : M A) : parses m -> steps keeps m.
Proof. intros H s r s' E. eapply keeps_moved, H, E. Qed.

Lemma steps_ret {A} (a : A) : steps keeps (@ret TG A a).
Proof. intros s r s' [= _ <-]. apply keeps_refl. Qed.

Lemma steps_raise {A} e : steps keeps (@raise TG A e).
Proof. intros s r s' [= _ <-]. apply keeps_refl. Qed.

Lemma steps_bind {A B} (m : M A) (k : A -> M B) :
  steps keeps m -> (forall a, steps keeps (k a)) -> steps keeps (bind m k).
Proof.
  intros Hm Hk s r s'. unfold bind.
  destruct (m s) as [[a|e] s1] eqn:E; intros H.
  - eapply keeps_trans; [eapply Hm, E | eapply Hk, H].
  - injection H as _ <-. eapply Hm, E.
Qed.

Lemma steps_get : steps keeps (@get TG).
Proof. intros s r s' [= _ <-]. apply keeps_refl. Qed.

Lemma steps_getattr n name : steps keeps (@getattr TG n name).
Proof.
  intros s r s'. unfold getattr.
  destruct (lookup_attr s n name); intros [= _ <-]; apply keeps_refl.
Qed.

Lemma steps_getattr_default n name d : steps keeps (@getattr_default TG n name d).
Proof. intros s r s' [= _ <-]. apply keeps_refl. Qed.

Lemma steps_hasattr n name : steps keeps (@hasattr TG n name).
Proof. intros s r s' [= _ <-]. apply keeps_refl. Qed.

Lemma steps_prop n name : steps keeps (@prop TG n name).
Proof. intros s r s' [= _ <-]. apply keeps_refl. Qed.

Lemma steps_setprop n name v : steps keeps (@setprop TG n name v).
Proof. intros s r s' [= _ <-]. apply keeps_insert. Qed.

Lemma steps_appendprop n name v : steps keeps (@appendprop TG n name v).
Proof. intros s r s' [= _ <-]. apply keeps_insert. Qed.

(** The one assignment to an attribute of a node: [is_continued = True]. *)
Lemma steps_setattr_is_continued n :
  steps keeps (@setattr TG n "is_continued" (VBool true)).
Proof.
  intros s r s' [= _ <-]. destruct (keeps_refl s) as (P & _ & _ & S).
  split; [exact P | split; [| split; [| exact S]]].
  - intros i name Hne. cbn. apply lookup_insert_ne. intros [= _ H].
    apply Hne. symmetry. exact H.
  - intros i. cbn. destruct (decide (nid n = i)) as [->|Hne].
    + right. apply lookup_insert_eq.
    + left. apply lookup_insert_ne. intros [= H]. exact (Hne H).
Qed.

Lemma steps_set_indent i d : steps keeps (@modify TG (set_indent i d)).
Proof. intros s r s' [= _ <-]. apply keeps_same; reflexivity. Qed.

Lemma keeps_push (s : AstAnnotator) (n : node) :
  keeps s (set_stack (_stack s ++ [n])%list s).
Proof.
  destruct (keeps_refl s) as (P & A & C & _).
  split; [exact P | split; [exact A | split; [exact C |]]].
  exists [n]. reflexivity.
Qed.

Lemma steps_on_tokens {A} (op : TG -> outcome A * TG) : steps keeps (on_tokens op).
Proof. apply steps_parses, parses_on_tokens. Qed.

Lemma steps_token v : steps keeps (token tg v).
Proof. apply steps_parses, parses_token. Qed.

Lemma steps_ws max_lines : steps keeps (ws tg max_lines).
Proof. apply steps_parses, parses_ws. Qed.

Lemma steps_token_src t : steps keeps (@token_src TG t).
Proof. apply steps_parses, parses_token_src. Qed.

Lemma steps_for_enumerate_from {A} (l : list A) (body : nat -> A -> M unit) i :
  (forall i x, steps keeps (body i x)) -> steps keeps (for_enumerate_from i l body).
Proof.
  intros Hb. revert i. induction l as [|x l IH]; intros i; simpl.
  - apply steps_ret.
  - apply steps_bind; [apply Hb | intros _; apply IH].
Qed.

Lemma steps_for_enumerate {A} (l : list A) (body : nat -> A -> M unit) :
  (forall i x, steps keeps (body i x)) -> steps keeps (for_enumerate l body).
Proof. apply steps_for_enumerate_from. Qed.

Lemma steps_for_each {A} (l : list A) (body : A -> M unit) :
  (forall x, steps keeps (body x)) -> steps keeps (for_each l body).
Proof. intros H. apply steps_for_enumerate. intros _. exact H. Qed.

Lemma steps_try_except (body : M unit) :
  steps keeps body -> steps keeps (try_except body).
Proof.
  intros Hb s r s'. unfold try_except.
  destruct (body s) as [[a|e] s1] eqn:E.
  - intros [= _ <-]. eapply Hb, E.
  - destruct (caught_by_visit e); intros [= _ <-]; eapply Hb, E.
Qed.

(** One step of a proof that a method keeps what is recorded. *)
Ltac steps_step :=
  match goal with
  | |- steps keeps (bind _ _) => apply steps_bind; [| intros ?]
  | |- steps keeps (ret _) => apply steps_ret
  | |- steps keeps (raise _) => apply steps_raise
  | |- steps keeps get => apply steps_get
  | |- steps keeps (getattr _ _) => apply steps_getattr
  | |- steps keeps (getattr_default _ _ _) => apply steps_getattr_default
  | |- steps keeps (hasattr _ _) => apply steps_hasattr
  | |- steps keeps (prop _ _) => apply steps_prop
  | |- steps keeps (setprop _ _ _) => apply steps_setprop
  | |- steps keeps (appendprop _ _ _) => apply steps_appendprop
  | |- steps keeps (setattr _ _ _) => apply steps_setattr_is_continued
  | |- steps keeps (modify (set_indent _ _)) => apply steps_set_indent
  | |- steps keeps (on_tokens _) => apply steps_on_tokens
  | |- steps keeps (token _ _) => apply steps_token
  | |- steps keeps (ws _ _) => apply steps_ws
  | |- steps keeps (token_src _) => apply steps_token_src
  | |- steps keeps (for_enumerate _ _) => apply steps_for_enumerate; intros ? ?
  | |- steps keeps (for_each _ _) => apply steps_for_each; intros ?
  | |- steps keeps (if ?b then _ else _) => destruct b
  | |- steps keeps (match ?v with _ => _ end) => destruct v
  | |- steps keeps (let (_, _) := ?p in _) => destruct p
  | H : forall n, steps keeps (?v n) |- steps keeps (?v _) => apply H
  | |- steps keeps (fun s => (_, s)) =>
      let H := fresh in intros ? ? ? H; injection H as _ <-; apply keeps_refl
  end.

Lemma steps_attr n attr_name attr_vals deps :
  steps keeps (attr tg n attr_name attr_vals deps).
Proof.
  unfold attr, snapshot_deps, attr_part.
  apply steps_bind; [repeat steps_step | intros _].
  apply steps_bind; [apply steps_parses, parses_attr_parts | intros parts].
  apply steps_setprop.
Qed.

(** A decorated method keeps what is recorded, and leaves the prefix, and
    the suffix under the decorators that take one, on its node. *)
Lemma wrapped_keeps (suffix_ : bool) (m : node -> M unit) :
  wrapped tg suffix_ m -> forall n, steps keeps (m n).
Proof.
  intros (f & scope_ & max_suffix_lines & -> & Hf) n.
  unfold _gen_wrapper, scope, prefix, suffix.
  repeat first [ apply steps_attr | steps_step ].
Qed.

Lemma wrapped_body_marks (f : node -> M unit) (suffix_ : bool)
    (max_suffix_lines : option Z) (n : node) (s s' : AstAnnotator) :
  (forall n, steps keeps (f n)) ->
  (prefix tg n >> f n >>
   (if suffix_ then suffix tg n max_suffix_lines else ret tt)) s = (Ok tt, s') ->
  is_Some (props s' !! (nid n, "prefix"))
  /\ (suffix_ = true -> is_Some (props s' !! (nid n, "suffix"))).
Proof.
  intros Hf H.
  apply bind_inv_ok in H as ([] & s1 & H1 & H).
  apply bind_inv_ok in H as ([] & s2 & H2 & H).
  assert (Hp : is_Some (props s2 !! (nid n, "prefix"))).
  { apply (Hf _ _ _ _ H2). apply attr_result in H1 as (text & ->). cbn.
    rewrite lookup_insert_eq. eexists. reflexivity. }
  destruct suffix_.
  - pose proof (steps_attr _ _ _ _ _ _ _ H) as (Hk & _).
    split; [apply Hk, Hp |]. intros _.
    apply attr_result in H as (text & ->). cbn.
    rewrite lookup_insert_eq. eexists. reflexivity.
  - injection H as <-. split; [exact Hp | discriminate].
Qed.

Lemma wrapped_marks (suffix_ : bool) (m : node -> M unit) (n : node)
    (s s' : AstAnnotator) :
  wrapped tg suffix_ m ->
  m n s = (Ok tt, s') ->
  is_Some (props s' !! (nid n, "prefix"))
  /\ (suffix_ = true -> is_Some (props s' !! (nid n, "suffix"))).
Proof.
  intros (f & scope_ & max_suffix_lines & -> & Hf). unfold _gen_wrapper.
  destruct scope_; [| apply wrapped_body_marks, Hf].
  unfold scope. intros H.
  apply bind_inv_ok in H as ([] & s1 & H1 & H).
  apply bind_inv_ok in H as ([] & s2 & H2 & H).
  apply parses_on_tokens in H. rewrite H. cbn [props set_tokens].
  apply (wrapped_body_marks f suffix_ max_suffix_lines n s1 s2 Hf H2).
Qed.

Lemma visit_name_inj (c c' : string) : "visit_" +:+ c = "visit_" +:+ c' -> c = c'.
Proof. intros [= H]. exact H. Qed.

Lemma lookup_method_Forall_pair (P : string -> (node -> M unit) -> Prop) name l m :
  Forall (fun p => P (fst p) (snd p)) l ->
  lookup_method name l = Some m -> P name m.
Proof.
  induction 1 as [|[name' m'] l Hm _ IH]; simpl; [discriminate |].
  destruct (String.eqb_spec name name') as [->|_]; [intros [= <-]; exact Hm | exact IH].
Qed.

Section Kept.

Variable visit : node -> M unit.
Hypothesis keeps_visit : forall n, steps keeps (visit n).

Create HintDb kept.

#[local] Hint Unfold visit_value visit_attr visit_each if_attr do_token
  node_type_token generic_visit scope prefix suffix _gen_wrapper expression
  space_around space_left statement block_statement visit_comma_separated
  visit_generators visit_elts _comp_exp visit_or_token one_if len_attr
  py_split_dot py_repeat py_lt0 not_in_ExtSlice visit_If_orelse
  visit_With_keyword visit_With_open visit_With_3 visit_Raise_3
  indented optional_token py_len py_iter py_getitem py_sub1 getattr_value
  check_is_elif check_is_continued_with : kept.

Ltac kept_step :=
  first
    [ match goal with
      | |- steps keeps (attr _ _ _ _ _) => apply steps_attr
      end
    | steps_step ].

Lemma keeps_visit_Call_keywords count n i kw_idx num_items starargs_idx :
  steps keeps (visit_Call_keywords tg visit count n i kw_idx num_items starargs_idx).
Proof.
  revert i kw_idx. induction count as [|count IH]; intros i kw_idx; simpl.
  - apply steps_ret.
  - apply steps_bind; [autounfold with kept; repeat kept_step |]. intros kw_idx'.
    apply steps_bind; [autounfold with kept; repeat kept_step |]. intros _. apply IH.
Qed.

Tactic Notation "wmethod" reference(f) reference(w) :=
  unfold f, w; eexists _, _, _; split; [reflexivity |];
  intros n; autounfold with kept;
  repeat first [ apply keeps_visit_Call_keywords | kept_step ].

Tactic Notation "kmethod" reference(f) :=
  intros n; unfold f; autounfold with kept;
  repeat first [ apply keeps_visit_Call_keywords | kept_step ].

Lemma wrapped_visit_Module : wrapped tg false (visit_Module tg visit).
Proof. wmethod visit_Module block_statement. Qed.
Lemma keeps_visit_Module : forall n, steps keeps (visit_Module tg visit n).
Proof. exact (wrapped_keeps _ _ wrapped_visit_Module). Qed.
Lemma wrapped_visit_If : wrapped tg false (visit_If tg visit).
Proof. wmethod visit_If block_statement. Qed.
Lemma keeps_visit_If : forall n, steps keeps (visit_If tg visit n).
Proof. exact (wrapped_keeps _ _ wrapped_visit_If). Qed.
Lemma wrapped_visit_While : wrapped tg false (visit_While tg visit).
Proof. wmethod visit_While block_statement. Qed.
Lemma keeps_visit_While : forall n, steps keeps (visit_While tg visit n).
Proof. exact (wrapped_keeps _ _ wrapped_visit_While). Qed.
Lemma wrapped_visit_For : wrapped tg false (visit_For tg visit).
Proof. wmethod visit_For block_statement. Qed.
Lemma keeps_visit_For : forall n, steps keeps (visit_For tg visit n).
Proof. exact (wrapped_keeps _ _ wrapped_visit_For). Qed.
Lemma keeps_visit_With_3 : forall n, steps keeps (visit_With_3 tg visit n).
Proof. kmethod visit_With_3. Qed.
Lemma wrapped_visit_With : wrapped tg false (visit_With tg visit).
Proof. wmethod visit_With block_statement. Qed.
Lemma keeps_visit_With : forall n, steps keeps (visit_With tg visit n).
Proof. exact (wrapped_keeps _ _ wrapped_visit_With). Qed.
Lemma wrapped_visit_withitem : wrapped tg true (visit_withitem tg visit).
Proof. wmethod visit_withitem space_around. Qed.
Lemma keeps_visit_withitem : forall n, steps keeps (visit_withitem tg visit n).
Proof. exact (wrapped_keeps _ _ wrapped_visit_withitem). Qed.
Lemma wrapped_visit_ClassDef : wrapped tg false (visit_ClassDef tg visit).
Proof. wmethod visit_ClassDef block_statement. Qed.
Lemma keeps_visit_ClassDef : forall n, steps keeps (visit_ClassDef tg visit n).
Proof. exact (wrapped_keeps _ _ wrapped_visit_ClassDef). Qed.
Lemma wrapped_visit_FunctionDef : wrapped tg false (visit_FunctionDef tg visit).
Proof. wmethod visit_FunctionDef block_statement. Qed.
Lemma keeps_visit_FunctionDef : forall n, steps keeps (visit_FunctionDef tg visit n).
Proof. exact (wrapped_keeps _ _ wrapped_visit_FunctionDef). Qed.
Lemma wrapped_visit_TryFinally : wrapped tg false (visit_TryFinally tg visit).
Proof. wmethod visit_TryFinally block_statement. Qed.
Lemma keeps_visit_TryFinally : forall n, steps keeps (visit_TryFinally tg visit n).
Proof. exact (wrapped_keeps _ _ wrapped_visit_TryFinally). Qed.
Lemma wrapped_visit_TryExcept : wrapped tg false (visit_TryExcept tg visit).
Proof. wmethod visit_TryExcept block_statement. Qed.
Lemma keeps_visit_TryExcept : forall n, steps keeps (visit_TryExcept tg visit n).
Proof. exact (wrapped_keeps _ _ wrapped_visit_TryExcept). Qed.
Lemma wrapped_visit_Try : wrapped tg false (visit_Try tg visit).
Proof. wmethod visit_Try block_statement. Qed.
Lemma keeps_visit_Try : forall n, steps keeps (visit_Try tg visit n).
Proof. exact (wrapped_keeps _ _ wrapped_visit_Try). Qed.
Lemma wrapped_visit_ExceptHandler : wrapped tg false (visit_ExceptHandler tg visit).
Proof. wmethod visit_ExceptHandler block_statement. Qed.
Lemma keeps_visit_ExceptHandler : forall n, steps keeps (visit_ExceptHandler tg visit n).
Proof. exact (wrapped_keeps _ _ wrapped_visit_ExceptHandler). Qed.
Lemma keeps_visit_Raise_3 : forall n, steps keeps (visit_Raise_3 tg visit n).
Proof. kmethod visit_Raise_3. Qed.
Lemma wrapped_visit_Raise : wrapped tg true (visit_Raise tg visit).
Proof. wmethod visit_Raise statement. Qed.
Lemma keeps_visit_Raise : forall n, steps keeps (visit_Raise tg visit n).
Proof. exact (wrapped_keeps _ _ wrapped_visit_Raise). Qed.
Lemma wrapped_visit_Assert : wrapped tg true (visit_Assert tg visit).
Proof. wmethod visit_Assert statement. Qed.
Lemma keeps_visit_Assert : forall n, steps keeps (visit_Assert tg visit n).
Proof. exact (wrapped_keeps _ _ wrapped_visit_Assert). Qed.
Lemma wrapped_visit_Assign : wrapped tg true (visit_Assign tg visit).
Proof. wmethod visit_Assign statement. Qed.
Lemma keeps_visit_Assign : forall n, steps keeps (visit_Assign tg visit n).
Proof. exact (wrapped_keeps _ _ wrapped_visit_Assign). Qed.
Lemma wrapped_visit_AugAssign : wrapped tg true (visit_AugAssign tg NODE_TYPE_TO_TOKENS visit).
Proof. wmethod visit_AugAssign statement. Qed.
Lemma keeps_visit_AugAssign : forall n, steps keeps (visit_AugAssign tg NODE_TYPE_TO_TOKENS visit n).
Proof. exact (wrapped_keeps _ _ wrapped_visit_AugAssign). Qed.
Lemma wrapped_visit_Break : wrapped tg true (visit_Break tg).
Proof. wmethod visit_Break statement. Qed.
Lemma keeps_visit_Break : forall n, steps keeps (visit_Break tg n).
Proof. exact (wrapped_keeps _ _ wrapped_visit_Break). Qed.
Lemma wrapped_visit_Continue : wrapped tg true (visit_Continue tg).
Proof. wmethod visit_Continue statement. Qed.
Lemma keeps_visit_Continue : forall n, steps keeps (visit_Continue tg n).
Proof. exact (wrapped_keeps _ _ wrapped_visit_Continue). Qed.
Lemma wrapped_visit_Delete : wrapped tg true (visit_Delete tg visit).
Proof. wmethod visit_Delete statement. Qed.
Lemma keeps_visit_Delete : forall n, steps keeps (visit_Delete tg visit n).
Proof. exact (wrapped_keeps _ _ wrapped_visit_Delete). Qed.
Lemma wrapped_visit_Exec : wrapped tg true (visit_Exec tg visit).
Proof. wmethod visit_Exec statement. Qed.
Lemma keeps_visit_Exec : forall n, steps keeps (visit_Exec tg visit n).
Proof. exact (wrapped_keeps _ _ wrapped_visit_Exec). Qed.
Lemma wrapped_visit_Expr : wrapped tg true (visit_Expr tg visit).
Proof. wmethod visit_Expr statement. Qed.
Lemma keeps_visit_Expr : forall n, steps keeps (visit_Expr tg visit n).
Proof. exact (wrapped_keeps _ _ wrapped_visit_Expr). Qed.
Lemma wrapped_visit_Global : wrapped tg true (visit_Global tg).
Proof. wmethod visit_Global statement. Qed.
Lemma keeps_visit_Global : forall n, steps keeps (visit_Global tg n).
Proof. exact (wrapped_keeps _ _ wrapped_visit_Global). Qed.
Lemma wrapped_visit_Import : wrapped tg true (visit_Import tg visit).
Proof. wmethod visit_Import statement. Qed.
Lemma keeps_visit_Import : forall n, steps keeps (visit_Import tg visit n).
Proof. exact (wrapped_keeps _ _ wrapped_visit_Import). Qed.
Lemma wrapped_visit_ImportFrom : wrapped tg true (visit_ImportFrom tg visit).
Proof. wmethod visit_ImportFrom statement. Qed.
Lemma keeps_visit_ImportFrom : forall n, steps keeps (visit_ImportFrom tg visit n).
Proof. exact (wrapped_keeps _ _ wrapped_visit_ImportFrom). Qed.
Lemma wrapped_visit_Nonlocal : wrapped tg true (visit_Nonlocal tg).
Proof. wmethod visit_Nonlocal statement. Qed.
Lemma keeps_visit_Nonlocal : forall n, steps keeps (visit_Nonlocal tg n).
Proof. exact (wrapped_keeps _ _ wrapped_visit_Nonlocal). Qed.
Lemma wrapped_visit_Pass : wrapped tg true (visit_Pass tg).
Proof. wmethod visit_Pass statement. Qed.
Lemma keeps_visit_Pass : forall n, steps keeps (visit_Pass tg n).
Proof. exact (wrapped_keeps _ _ wrapped_visit_Pass). Qed.
Lemma wrapped_visit_Print : wrapped tg true (visit_Print tg visit).
Proof. wmethod visit_Print statement. Qed.
Lemma keeps_visit_Print : forall n, steps keeps (visit_Print tg visit n).
Proof. exact (wrapped_keeps _ _ wrapped_visit_Print). Qed.
Lemma wrapped_visit_Return : wrapped tg true (visit_Return tg visit).
Proof. wmethod visit_Return statement. Qed.
Lemma keeps_visit_Return : forall n, steps keeps (visit_Return tg visit n).
Proof. exact (wrapped_keeps _ _ wrapped_visit_Return). Qed.
Lemma wrapped_visit_Yield : wrapped tg true (visit_Yield tg visit).
Proof. wmethod visit_Yield statement. Qed.
Lemma keeps_visit_Yield : forall n, steps keeps (visit_Yield tg visit n).
Proof. exact (wrapped_keeps _ _ wrapped_visit_Yield). Qed.
Lemma wrapped_visit_Attribute : wrapped tg true (visit_Attribute tg visit).
Proof. wmethod visit_Attribute expression. Qed.
Lemma keeps_visit_Attribute : forall n, steps keeps (visit_Attribute tg visit n).
Proof. exact (wrapped_keeps _ _ wrapped_visit_Attribute). Qed.
Lemma wrapped_visit_BinOp : wrapped tg true (visit_BinOp tg visit).
Proof. wmethod visit_BinOp expression. Qed.
Lemma keeps_visit_BinOp : forall n, steps keeps (visit_BinOp tg visit n).
Proof. exact (wrapped_keeps _ _ wrapped_visit_BinOp). Qed.
Lemma wrapped_visit_BoolOp : wrapped tg true (visit_BoolOp tg NODE_TYPE_TO_TOKENS visit).
Proof. wmethod visit_BoolOp expression. Qed.
Lemma keeps_visit_BoolOp : forall n, steps keeps (visit_BoolOp tg NODE_TYPE_TO_TOKENS visit n).
Proof. exact (wrapped_keeps _ _ wrapped_visit_BoolOp). Qed.
Lemma wrapped_visit_Call : wrapped tg true (visit_Call tg find_starargs visit).
Proof. wmethod visit_Call expression. Qed.
Lemma keeps_visit_Call : forall n, steps keeps (visit_Call tg find_starargs visit n).
Proof. exact (wrapped_keeps _ _ wrapped_visit_Call). Qed.
Lemma wrapped_visit_Compare : wrapped tg true (visit_Compare tg visit).
Proof. wmethod visit_Compare expression. Qed.
Lemma keeps_visit_Compare : forall n, steps keeps (visit_Compare tg visit n).
Proof. exact (wrapped_keeps _ _ wrapped_visit_Compare). Qed.
Lemma wrapped_visit_Dict : wrapped tg true (visit_Dict tg visit).
Proof. wmethod visit_Dict expression. Qed.
Lemma keeps_visit_Dict : forall n, steps keeps (visit_Dict tg visit n).
Proof. exact (wrapped_keeps _ _ wrapped_visit_Dict). Qed.
Lemma wrapped_visit_DictComp : wrapped tg true (visit_DictComp tg visit).
Proof. wmethod visit_DictComp expression. Qed.
Lemma keeps_visit_DictComp : forall n, steps keeps (visit_DictComp tg visit n).
Proof. exact (wrapped_keeps _ _ wrapped_visit_DictComp). Qed.
Lemma wrapped_visit_GeneratorExp : wrapped tg true (visit_GeneratorExp tg visit).
Proof. wmethod visit_GeneratorExp expression. Qed.
Lemma keeps_visit_GeneratorExp : forall n, steps keeps (visit_GeneratorExp tg visit n).
Proof. exact (wrapped_keeps _ _ wrapped_visit_GeneratorExp). Qed.
Lemma wrapped_visit_IfExp : wrapped tg true (visit_IfExp tg visit).
Proof. wmethod visit_IfExp expression. Qed.
Lemma keeps_visit_IfExp : forall n, steps keeps (visit_IfExp tg visit n).
Proof. exact (wrapped_keeps _ _ wrapped_visit_IfExp). Qed.
Lemma wrapped_visit_Lambda : wrapped tg true (visit_Lambda tg visit).
Proof. wmethod visit_Lambda expression. Qed.
Lemma keeps_visit_Lambda : forall n, steps keeps (visit_Lambda tg visit n).
Proof. exact (wrapped_keeps _ _ wrapped_visit_Lambda). Qed.
Lemma wrapped_visit_List : wrapped tg true (visit_List tg visit).
Proof. wmethod visit_List expression. Qed.
Lemma keeps_visit_List : forall n, steps keeps (visit_List tg visit n).
Proof. exact (wrapped_keeps _ _ wrapped_visit_List). Qed.
Lemma wrapped_visit_ListComp : wrapped tg true (visit_ListComp tg visit).
Proof. wmethod visit_ListComp expression. Qed.
Lemma keeps_visit_ListComp : forall n, steps keeps (visit_ListComp tg visit n).
Proof. exact (wrapped_keeps _ _ wrapped_visit_ListComp). Qed.
Lemma wrapped_visit_Name : wrapped tg true (visit_Name tg).
Proof. wmethod visit_Name expression. Qed.
Lemma keeps_visit_Name : forall n, steps keeps (visit_Name tg n).
Proof. exact (wrapped_keeps _ _ wrapped_visit_Name). Qed.
Lemma wrapped_visit_NameConstant : wrapped tg true (visit_NameConstant tg).
Proof. wmethod visit_NameConstant expression. Qed.
Lemma keeps_visit_NameConstant : forall n, steps keeps (visit_NameConstant tg n).
Proof. exact (wrapped_keeps _ _ wrapped_visit_NameConstant). Qed.
Lemma wrapped_visit_Repr : wrapped tg true (visit_Repr tg visit).
Proof. wmethod visit_Repr expression. Qed.
Lemma keeps_visit_Repr : forall n, steps keeps (visit_Repr tg visit n).
Proof. exact (wrapped_keeps _ _ wrapped_visit_Repr). Qed.
Lemma wrapped_visit_Set : wrapped tg true (visit_Set tg visit).
Proof. wmethod visit_Set expression. Qed.
Lemma keeps_visit_Set : forall n, steps keeps (visit_Set tg visit n).
Proof. exact (wrapped_keeps _ _ wrapped_visit_Set). Qed.
Lemma wrapped_visit_SetComp : wrapped tg true (visit_SetComp tg visit).
Proof. wmethod visit_SetComp expression. Qed.
Lemma keeps_visit_SetComp : forall n, steps keeps (visit_SetComp tg visit n).
Proof. exact (wrapped_keeps _ _ wrapped_visit_SetComp). Qed.
Lemma wrapped_visit_Subscript : wrapped tg true (visit_Subscript tg visit).
Proof. wmethod visit_Subscript expression. Qed.
Lemma keeps_visit_Subscript : forall n, steps keeps (visit_Subscript tg visit n).
Proof. exact (wrapped_keeps _ _ wrapped_visit_Subscript). Qed.
Lemma wrapped_visit_Tuple : wrapped tg true (visit_Tuple tg visit).
Proof. wmethod visit_Tuple expression. Qed.
Lemma keeps_visit_Tuple : forall n, steps keeps (visit_Tuple tg visit n).
Proof. exact (wrapped_keeps _ _ wrapped_visit_Tuple). Qed.
Lemma wrapped_visit_UnaryOp : wrapped tg true (visit_UnaryOp tg visit).
Proof. wmethod visit_UnaryOp expression. Qed.
Lemma keeps_visit_UnaryOp : forall n, steps keeps (visit_UnaryOp tg visit n).
Proof. exact (wrapped_keeps _ _ wrapped_visit_UnaryOp). Qed.
Lemma wrapped_visit_operator : wrapped tg true (visit_operator tg NODE_TYPE_TO_TOKENS).
Proof. wmethod visit_operator space_around. Qed.
Lemma keeps_visit_operator : forall n, steps keeps (visit_operator tg NODE_TYPE_TO_TOKENS n).
Proof. exact (wrapped_keeps _ _ wrapped_visit_operator). Qed.
Lemma wrapped_visit_IsNot : wrapped tg true (visit_IsNot tg).
Proof. wmethod visit_IsNot space_around. Qed.
Lemma keeps_visit_IsNot : forall n, steps keeps (visit_IsNot tg n).
Proof. exact (wrapped_keeps _ _ wrapped_visit_IsNot). Qed.
Lemma wrapped_visit_NotIn : wrapped tg true (visit_NotIn tg).
Proof. wmethod visit_NotIn space_around. Qed.
Lemma keeps_visit_NotIn : forall n, steps keeps (visit_NotIn tg n).
Proof. exact (wrapped_keeps _ _ wrapped_visit_NotIn). Qed.
Lemma wrapped_visit_alias : wrapped tg false (visit_alias tg).
Proof. wmethod visit_alias space_left. Qed.
Lemma keeps_visit_alias : forall n, steps keeps (visit_alias tg n).
Proof. exact (wrapped_keeps _ _ wrapped_visit_alias). Qed.
Lemma wrapped_visit_arg : wrapped tg true (visit_arg tg visit).
Proof. wmethod visit_arg space_around. Qed.
Lemma keeps_visit_arg : forall n, steps keeps (visit_arg tg visit n).
Proof. exact (wrapped_keeps _ _ wrapped_visit_arg). Qed.
Lemma wrapped_visit_arguments : wrapped tg true (visit_arguments tg visit).
Proof. wmethod visit_arguments space_around. Qed.
Lemma keeps_visit_arguments : forall n, steps keeps (visit_arguments tg visit n).
Proof. exact (wrapped_keeps _ _ wrapped_visit_arguments). Qed.
Lemma wrapped_visit_comprehension : wrapped tg true (visit_comprehension tg visit).
Proof. wmethod visit_comprehension space_around. Qed.
Lemma keeps_visit_comprehension : forall n, steps keeps (visit_comprehension tg visit n).
Proof. exact (wrapped_keeps _ _ wrapped_visit_comprehension). Qed.
Lemma wrapped_visit_keyword : wrapped tg true (visit_keyword tg visit).
Proof. wmethod visit_keyword space_around. Qed.
Lemma keeps_visit_keyword : forall n, steps keeps (visit_keyword tg visit n).
Proof. exact (wrapped_keeps _ _ wrapped_visit_keyword). Qed.
Lemma wrapped_visit_Index : wrapped tg false (visit_Index tg visit).
Proof. wmethod visit_Index space_left. Qed.
Lemma keeps_visit_Index : forall n, steps keeps (visit_Index tg visit n).
Proof. exact (wrapped_keeps _ _ wrapped_visit_Index). Qed.
Lemma wrapped_visit_ExtSlice : wrapped tg false (visit_ExtSlice tg visit).
Proof. wmethod visit_ExtSlice space_left. Qed.
Lemma keeps_visit_ExtSlice : forall n, steps keeps (visit_ExtSlice tg visit n).
Proof. exact (wrapped_keeps _ _ wrapped_visit_ExtSlice). Qed.
Lemma wrapped_visit_Slice : wrapped tg false (visit_Slice tg visit).
Proof. wmethod visit_Slice space_left. Qed.
Lemma keeps_visit_Slice : forall n, steps keeps (visit_Slice tg visit n).
Proof. exact (wrapped_keeps _ _ wrapped_visit_Slice). Qed.
Lemma wrapped_visit_Num : wrapped tg true (visit_Num tg).
Proof. wmethod visit_Num expression. Qed.
Lemma keeps_visit_Num : forall n, steps keeps (visit_Num tg n).
Proof. exact (wrapped_keeps _ _ wrapped_visit_Num). Qed.
Lemma wrapped_visit_Str : wrapped tg true (visit_Str tg).
Proof. wmethod visit_Str expression. Qed.
Lemma keeps_visit_Str : forall n, steps keeps (visit_Str tg n).
Proof. exact (wrapped_keeps _ _ wrapped_visit_Str). Qed.
Lemma wrapped_visit_Ellipsis : wrapped tg true (visit_Ellipsis tg).
Proof. wmethod visit_Ellipsis space_around. Qed.
Lemma keeps_visit_Ellipsis : forall n, steps keeps (visit_Ellipsis tg n).
Proof. exact (wrapped_keeps _ _ wrapped_visit_Ellipsis). Qed.
Lemma keeps_generic_visit : forall n, steps keeps (generic_visit visit n).
Proof. kmethod generic_visit. Qed.

Lemma keeps_methods :
  Forall (fun m => forall n, steps keeps (snd m n))
         (methods tg NODE_TYPE_TO_TOKENS find_starargs visit).
Proof.
  unfold methods. apply Forall_app. split.
  - apply Forall_cons; split; [exact keeps_visit_Module |].
    apply Forall_cons; split; [exact keeps_visit_If |].
    apply Forall_cons; split; [exact keeps_visit_While |].
    apply Forall_cons; split; [exact keeps_visit_For |].
    apply Forall_cons; split; [exact keeps_visit_With |].
    apply Forall_cons; split; [exact keeps_visit_With_3 |].
    apply Forall_cons; split; [exact keeps_visit_withitem |].
    apply Forall_cons; split; [exact keeps_visit_ClassDef |].
    apply Forall_cons; split; [exact keeps_visit_FunctionDef |].
    apply Forall_cons; split; [exact keeps_visit_TryFinally |].
    apply Forall_cons; split; [exact keeps_visit_TryExcept |].
    apply Forall_cons; split; [exact keeps_visit_Try |].
    apply Forall_cons; split; [exact keeps_visit_ExceptHandler |].
    apply Forall_cons; split; [exact keeps_visit_Raise |].
    apply Forall_cons; split; [exact keeps_visit_Raise_3 |].
    apply Forall_cons; split; [exact keeps_visit_Assert |].
    apply Forall_cons; split; [exact keeps_visit_Assign |].
    apply Forall_cons; split; [exact keeps_visit_AugAssign |].
    apply Forall_cons; split; [exact keeps_visit_Break |].
    apply Forall_cons; split; [exact keeps_visit_Continue |].
    apply Forall_cons; split; [exact keeps_visit_Delete |].
    apply Forall_cons; split; [exact keeps_visit_Exec |].
    apply Forall_cons; split; [exact keeps_visit_Expr |].
    apply Forall_cons; split; [exact keeps_visit_Global |].
    apply Forall_cons; split; [exact keeps_visit_Import |].
    apply Forall_cons; split; [exact keeps_visit_ImportFrom |].
    apply Forall_cons; split; [exact keeps_visit_Nonlocal |].
    apply Forall_cons; split; [exact keeps_visit_Pass |].
    apply Forall_cons; split; [exact keeps_visit_Print |].
    apply Forall_cons; split; [exact keeps_visit_Return |].
    apply Forall_cons; split; [exact keeps_visit_Yield |].
    apply Forall_cons; split; [exact keeps_visit_Attribute |].
    apply Forall_cons; split; [exact keeps_visit_BinOp |].
    apply Forall_cons; split; [exact keeps_visit_BoolOp |].
    apply Forall_cons; split; [exact keeps_visit_Call |].
    apply Forall_cons; split; [exact keeps_visit_Compare |].
    apply Forall_cons; split; [exact keeps_visit_Dict |].
    apply Forall_cons; split; [exact keeps_visit_DictComp |].
    apply Forall_cons; split; [exact keeps_visit_GeneratorExp |].
    apply Forall_cons; split; [exact keeps_visit_IfExp |].
    apply Forall_cons; split; [exact keeps_visit_Lambda |].
    apply Forall_cons; split; [exact keeps_visit_List |].
    apply Forall_cons; split; [exact keeps_visit_ListComp |].
    apply Forall_cons; split; [exact keeps_visit_Name |].
    apply Forall_cons; split; [exact keeps_visit_NameConstant |].
    apply Forall_cons; split; [exact keeps_visit_Repr |].
    apply Forall_cons; split; [exact keeps_visit_Set |].
    apply Forall_cons; split; [exact keeps_visit_SetComp |].
    apply Forall_cons; split; [exact keeps_visit_Subscript |].
    apply Forall_cons; split; [exact keeps_visit_Tuple |].
    apply Forall_cons; split; [exact keeps_visit_UnaryOp |].
    apply Forall_cons; split; [exact keeps_visit_IsNot |].
    apply Forall_cons; split; [exact keeps_visit_NotIn |].
    apply Forall_cons; split; [exact keeps_visit_alias |].
    apply Forall_cons; split; [exact keeps_visit_arg |].
    apply Forall_cons; split; [exact keeps_visit_arguments |].
    apply Forall_cons; split; [exact keeps_visit_comprehension |].
    apply Forall_cons; split; [exact keeps_visit_keyword |].
    apply Forall_cons; split; [exact keeps_visit_Index |].
    apply Forall_cons; split; [exact keeps_visit_ExtSlice |].
    apply Forall_cons; split; [exact keeps_visit_Slice |].
    apply Forall_cons; split; [exact keeps_visit_Num |].
    apply Forall_cons; split; [exact keeps_visit_Str |].
    apply Forall_cons; split; [exact keeps_visit_Ellipsis |].
    constructor.
  - apply Forall_fmap, Forall_forall. intros c _. exact keeps_visit_operator.
Qed.

Lemma keeps_NodeVisitor_visit n :
  steps keeps (NodeVisitor_visit tg NODE_TYPE_TO_TOKENS find_starargs visit n).
Proof.
  unfold NodeVisitor_visit.
  destruct (lookup_method _ _) as [visitor|] eqn:E.
  - apply (lookup_method_Forall (fun m => forall n, steps keeps (m n)) _ _ _
             keeps_methods E).
  - apply keeps_generic_visit.
Qed.

Lemma decorated_methods :
  Forall (fun p => forall c, fst p = "visit_" +:+ c ->
            (among c with_prefix = true -> exists b, wrapped tg b (snd p))
            /\ (among c with_suffix = true -> wrapped tg true (snd p)))
         (methods tg NODE_TYPE_TO_TOKENS find_starargs visit).
Proof.
  unfold methods. apply Forall_app. split.
  - apply Forall_cons; split;
      [intros c Hc; apply (visit_name_inj "Module" c) in Hc; subst c;
       split; [intros _; exists false; exact wrapped_visit_Module | intros H; vm_compute in H; discriminate H] |].
    apply Forall_cons; split;
      [intros c Hc; apply (visit_name_inj "If" c) in Hc; subst c;
       split; [intros _; exists false; exact wrapped_visit_If | intros H; vm_compute in H; discriminate H] |].
    apply Forall_cons; split;
      [intros c Hc; apply (visit_name_inj "While" c) in Hc; subst c;
       split; [intros _; exists false; exact wrapped_visit_While | intros H; vm_compute in H; discriminate H] |].
    apply Forall_cons; split;
      [intros c Hc; apply (visit_name_inj "For" c) in Hc; subst c;
       split; [intros _; exists false; exact wrapped_visit_For | intros H; vm_compute in H; discriminate H] |].
    apply Forall_cons; split;
      [intros c Hc; apply (visit_name_inj "With" c) in Hc; subst c;
       split; [intros _; exists false; exact wrapped_visit_With | intros H; vm_compute in H; discriminate H] |].
    apply Forall_cons; split;
      [intros c Hc; apply (visit_name_inj "With_3" c) in Hc; subst c;
       split; intros H; vm_compute in H; discriminate H |].
    apply Forall_cons; split;
      [intros c Hc; apply (visit_name_inj "withitem" c) in Hc; subst c;
       split; [intros _; exists true; exact wrapped_visit_withitem | intros _; exact wrapped_visit_withitem] |].
    apply Forall_cons; split;
      [intros c Hc; apply (visit_name_inj "ClassDef" c) in Hc; subst c;
       split; [intros _; exists false; exact wrapped_visit_ClassDef | intros H; vm_compute in H; discriminate H] |].
    apply Forall_cons; split;
      [intros c Hc; apply (visit_name_inj "FunctionDef" c) in Hc; subst c;
       split; [intros _; exists false; exact wrapped_visit_FunctionDef | intros H; vm_compute in H; discriminate H] |].
    apply Forall_cons; split;
      [intros c Hc; apply (visit_name_inj "TryFinally" c) in Hc; subst c;
       split; [intros _; exists false; exact wrapped_visit_TryFinally | intros H; vm_compute in H; discriminate H] |].
    apply Forall_cons; split;
      [intros c Hc; apply (visit_name_inj "TryExcept" c) in Hc; subst c;
       split; [intros _; exists false; exact wrapped_visit_TryExcept | intros H; vm_compute in H; discriminate H] |].
    apply Forall_cons; split;
      [intros c Hc; apply (visit_name_inj "Try" c) in Hc; subst c;
       split; [intros _; exists false; exact wrapped_visit_Try | intros H; vm_compute in H; discriminate H] |].
    apply Forall_cons; split;
      [intros c Hc; apply (visit_name_inj "ExceptHandler" c) in Hc; subst c;
       split; [intros _; exists false; exact wrapped_visit_ExceptHandler | intros H; vm_compute in H; discriminate H] |].
    apply Forall_cons; split;
      [intros c Hc; apply (visit_name_inj "Raise" c) in Hc; subst c;
       split; [intros _; exists true; exact wrapped_visit_Raise | intros _; exact wrapped_visit_Raise] |].
    apply Forall_cons; split;
      [intros c Hc; apply (visit_name_inj "Raise_3" c) in Hc; subst c;
       split; intros H; vm_compute in H; discriminate H |].
    apply Forall_cons; split;
      [intros c Hc; apply (visit_name_inj "Assert" c) in Hc; subst c;
       split; [intros _; exists true; exact wrapped_visit_Assert | intros _; exact wrapped_visit_Assert] |].
    apply Forall_cons; split;
      [intros c Hc; apply (visit_name_inj "Assign" c) in Hc; subst c;
       split; [intros _; exists true; exact wrapped_visit_Assign | intros _; exact wrapped_visit_Assign] |].
    apply Forall_cons; split;
      [intros c Hc; apply (visit_name_inj "AugAssign" c) in Hc; subst c;
       split; [intros _; exists true; exact wrapped_visit_AugAssign | intros _; exact wrapped_visit_AugAssign] |].
    apply Forall_cons; split;
      [intros c Hc; apply (visit_name_inj "Break" c) in Hc; subst c;
       split; [intros _; exists true; exact wrapped_visit_Break | intros _; exact wrapped_visit_Break] |].
    apply Forall_cons; split;
      [intros c Hc; apply (visit_name_inj "Continue" c) in Hc; subst c;
       split; [intros _; exists true; exact wrapped_visit_Continue | intros _; exact wrapped_visit_Continue] |].
    apply Forall_cons; split;
      [intros c Hc; apply (visit_name_inj "Delete" c) in Hc; subst c;
       split; [intros _; exists true; exact wrapped_visit_Delete | intros _; exact wrapped_visit_Delete] |].
    apply Forall_cons; split;
      [intros c Hc; apply (visit_name_inj "Exec" c) in Hc; subst c;
       split; [intros _; exists true; exact wrapped_visit_Exec | intros _; exact wrapped_visit_Exec] |].
    apply Forall_cons; split;
      [intros c Hc; apply (visit_name_inj "Expr" c) in Hc; subst c;
       split; [intros _; exists true; exact wrapped_visit_Expr | intros _; exact wrapped_visit_Expr] |].
    apply Forall_cons; split;
      [intros c Hc; apply (visit_name_inj "Global" c) in Hc; subst c;
       split; [intros _; exists true; exact wrapped_visit_Global | intros _; exact wrapped_visit_Global] |].
    apply Forall_cons; split;
      [intros c Hc; apply (visit_name_inj "Import" c) in Hc; subst c;
       split; [intros _; exists true; exact wrapped_visit_Import | intros _; exact wrapped_visit_Import] |].
    apply Forall_cons; split;
      [intros c Hc; apply (visit_name_inj "ImportFrom" c) in Hc; subst c;
       split; [intros _; exists true; exact wrapped_visit_ImportFrom | intros _; exact wrapped_visit_ImportFrom] |].
    apply Forall_cons; split;
      [intros c Hc; apply (visit_name_inj "Nonlocal" c) in Hc; subst c;
       split; [intros _; exists true; exact wrapped_visit_Nonlocal | intros _; exact wrapped_visit_Nonlocal] |].
    apply Forall_cons; split;
      [intros c Hc; apply (visit_name_inj "Pass" c) in Hc; subst c;
       split; [intros _; exists true; exact wrapped_visit_Pass | intros _; exact wrapped_visit_Pass] |].
    apply Forall_cons; split;
      [intros c Hc; apply (visit_name_inj "Print" c) in Hc; subst c;
       split; [intros _; exists true; exact wrapped_visit_Print | intros _; exact wrapped_visit_Print] |].
    apply Forall_cons; split;
      [intros c Hc; apply (visit_name_inj "Return" c) in Hc; subst c;
       split; [intros _; exists true; exact wrapped_visit_Return | intros _; exact wrapped_visit_Return] |].
    apply Forall_cons; split;
      [intros c Hc; apply (visit_name_inj "Yield" c) in Hc; subst c;
       split; [intros _; exists true; exact wrapped_visit_Yield | intros _; exact wrapped_visit_Yield] |].
    apply Forall_cons; split;
      [intros c Hc; apply (visit_name_inj "Attribute" c) in Hc; subst c;
       split; [intros _; exists true; exact wrapped_visit_Attribute | intros _; exact wrapped_visit_Attribute] |].
    apply Forall_cons; split;
      [intros c Hc; apply (visit_name_inj "BinOp" c) in Hc; subst c;
       split; [intros _; exists true; exact wrapped_visit_BinOp | intros _; exact wrapped_visit_BinOp] |].
    apply Forall_cons; split;
      [intros c Hc; apply (visit_name_inj "BoolOp" c) in Hc; subst c;
       split; [intros _; exists true; exact wrapped_visit_BoolOp | intros _; exact wrapped_visit_BoolOp] |].
    apply Forall_cons; split;
      [intros c Hc; apply (visit_name_inj "Call" c) in Hc; subst c;
       split; [intros _; exists true; exact wrapped_visit_Call | intros _; exact wrapped_visit_Call] |].
    apply Forall_cons; split;
      [intros c Hc; apply (visit_name_inj "Compare" c) in Hc; subst c;
       split; [intros _; exists true; exact wrapped_visit_Compare | intros _; exact wrapped_visit_Compare] |].
    apply Forall_cons; split;
      [intros c Hc; apply (visit_name_inj "Dict" c) in Hc; subst c;
       split; [intros _; exists true; exact wrapped_visit_Dict | intros _; exact wrapped_visit_Dict] |].
    apply Forall_cons; split;
      [intros c Hc; apply (visit_name_inj "DictComp" c) in Hc; subst c;
       split; [intros _; exists true; exact wrapped_visit_DictComp | intros _; exact wrapped_visit_DictComp] |].
    apply Forall_cons; split;
      [intros c Hc; apply (visit_name_inj "GeneratorExp" c) in Hc; subst c;
       split; [intros _; exists true; exact wrapped_visit_GeneratorExp | intros _; exact wrapped_visit_GeneratorExp] |].
    apply Forall_cons; split;
      [intros c Hc; apply (visit_name_inj "IfExp" c) in Hc; subst c;
       split; [intros _; exists true; exact wrapped_visit_IfExp | intros _; exact wrapped_visit_IfExp] |].
    apply Forall_cons; split;
      [intros c Hc; apply (visit_name_inj "Lambda" c) in Hc; subst c;
       split; [intros _; exists true; exact wrapped_visit_Lambda | intros _; exact wrapped_visit_Lambda] |].
    apply Forall_cons; split;
      [intros c Hc; apply (visit_name_inj "List" c) in Hc; subst c;
       split; [intros _; exists true; exact wrapped_visit_List | intros _; exact wrapped_visit_List] |].
    apply Forall_cons; split;
      [intros c Hc; apply (visit_name_inj "ListComp" c) in Hc; subst c;
       split; [intros _; exists true; exact wrapped_visit_ListComp | intros _; exact wrapped_visit_ListComp] |].
    apply Forall_cons; split;
      [intros c Hc; apply (visit_name_inj "Name" c) in Hc; subst c;
       split; [intros _; exists true; exact wrapped_visit_Name | intros _; exact wrapped_visit_Name] |].
    apply Forall_cons; split;
      [intros c Hc; apply (visit_name_inj "NameConstant" c) in Hc; subst c;
       split; [intros _; exists true; exact wrapped_visit_NameConstant | intros _; exact wrapped_visit_NameConstant] |].
    apply Forall_cons; split;
      [intros c Hc; apply (visit_name_inj "Repr" c) in Hc; subst c;
       split; [intros _; exists true; exact wrapped_visit_Repr | intros _; exact wrapped_visit_Repr] |].
    apply Forall_cons; split;
      [intros c Hc; apply (visit_name_inj "Set" c) in Hc; subst c;
       split; [intros _; exists true; exact wrapped_visit_Set | intros _; exact wrapped_visit_Set] |].
    apply Forall_cons; split;
      [intros c Hc; apply (visit_name_inj "SetComp" c) in Hc; subst c;
       split; [intros _; exists true; exact wrapped_visit_SetComp | intros _; exact wrapped_visit_SetComp] |].
    apply Forall_cons; split;
      [intros c Hc; apply (visit_name_inj "Subscript" c) in Hc; subst c;
       split; [intros _; exists true; exact wrapped_visit_Subscript | intros _; exact wrapped_visit_Subscript] |].
    apply Forall_cons; split;
      [intros c Hc; apply (visit_name_inj "Tuple" c) in Hc; subst c;
       split; [intros _; exists true; exact wrapped_visit_Tuple | intros _; exact wrapped_visit_Tuple] |].
    apply Forall_cons; split;
      [intros c Hc; apply (visit_name_inj "UnaryOp" c) in Hc; subst c;
       split; [intros _; exists true; exact wrapped_visit_UnaryOp | intros _; exact wrapped_visit_UnaryOp] |].
    apply Forall_cons; split;
      [intros c Hc; apply (visit_name_inj "IsNot" c) in Hc; subst c;
       split; [intros _; exists true; exact wrapped_visit_IsNot | intros _; exact wrapped_visit_IsNot] |].
    apply Forall_cons; split;
      [intros c Hc; apply (visit_name_inj "NotIn" c) in Hc; subst c;
       split; [intros _; exists true; exact wrapped_visit_NotIn | intros _; exact wrapped_visit_NotIn] |].
    apply Forall_cons; split;
      [intros c Hc; apply (visit_name_inj "alias" c) in Hc; subst c;
       split; [intros _; exists false; exact wrapped_visit_alias | intros H; vm_compute in H; discriminate H] |].
    apply Forall_cons; split;
      [intros c Hc; apply (visit_name_inj "arg" c) in Hc; subst c;
       split; [intros _; exists true; exact wrapped_visit_arg | intros _; exact wrapped_visit_arg] |].
    apply Forall_cons; split;
      [intros c Hc; apply (visit_name_inj "arguments" c) in Hc; subst c;
       split; [intros _; exists true; exact wrapped_visit_arguments | intros _; exact wrapped_visit_arguments] |].
    apply Forall_cons; split;
      [intros c Hc; apply (visit_name_inj "comprehension" c) in Hc; subst c;
       split; [intros _; exists true; exact wrapped_visit_comprehension | intros _; exact wrapped_visit_comprehension] |].
    apply Forall_cons; split;
      [intros c Hc; apply (visit_name_inj "keyword" c) in Hc; subst c;
       split; [intros _; exists true; exact wrapped_visit_keyword | intros _; exact wrapped_visit_keyword] |].
    apply Forall_cons; split;
      [intros c Hc; apply (visit_name_inj "Index" c) in Hc; subst c;
       split; [intros _; exists false; exact wrapped_visit_Index | intros H; vm_compute in H; discriminate H] |].
    apply Forall_cons; split;
      [intros c Hc; apply (visit_name_inj "ExtSlice" c) in Hc; subst c;
       split; [intros _; exists false; exact wrapped_visit_ExtSlice | intros H; vm_compute in H; discriminate H] |].
    apply Forall_cons; split;
      [intros c Hc; apply (visit_name_inj "Slice" c) in Hc; subst c;
       split; [intros _; exists false; exact wrapped_visit_Slice | intros H; vm_compute in H; discriminate H] |].
    apply Forall_cons; split;
      [intros c Hc; apply (visit_name_inj "Num" c) in Hc; subst c;
       split; [intros _; exists true; exact wrapped_visit_Num | intros _; exact wrapped_visit_Num] |].
    apply Forall_cons; split;
      [intros c Hc; apply (visit_name_inj "Str" c) in Hc; subst c;
       split; [intros _; exists true; exact wrapped_visit_Str | intros _; exact wrapped_visit_Str] |].
    apply Forall_cons; split;
      [intros c Hc; apply (visit_name_inj "Ellipsis" c) in Hc; subst c;
       split; [intros _; exists true; exact wrapped_visit_Ellipsis | intros _; exact wrapped_visit_Ellipsis] |].
    constructor.
  - apply Forall_fmap, Forall_forall. intros c0 _ c _.
    split; intros _; [exists true |]; exact wrapped_visit_operator.
Qed.

Lemma has_method (c : string) :
  among c with_prefix = true ->
  is_Some (lookup_method ("visit_" +:+ c)
             (methods tg NODE_TYPE_TO_TOKENS find_starargs visit)).
Proof.
  intros H. apply existsb_exists in H as (x & Hin & Heq).
  apply String.eqb_eq in Heq. subst x. revert c Hin. apply List.Forall_forall.
  repeat (apply List.Forall_cons; [eexists; reflexivity |]).
  apply List.Forall_nil.
Qed.

Lemma NodeVisitor_visit_marks (n : node) (s s' : AstAnnotator) :
  NodeVisitor_visit tg NODE_TYPE_TO_TOKENS find_starargs visit n s = (Ok tt, s') ->
  (among (cls n) with_prefix = true -> is_Some (props s' !! (nid n, "prefix")))
  /\ (among (cls n) with_suffix = true -> is_Some (props s' !! (nid n, "suffix"))).
Proof.
  unfold NodeVisitor_visit. intros H.
  assert (Hsub : among (cls n) with_suffix = true -> among (cls n) with_prefix = true).
  { unfold among, with_prefix. rewrite !existsb_app. intros ->.
    rewrite !orb_true_r. reflexivity. }
  destruct (lookup_method _ _) as [m|] eqn:E.
  - pose proof (lookup_method_Forall_pair
                  (fun name m => forall c, name = "visit_" +:+ c ->
                     (among c with_prefix = true -> exists b, wrapped tg b m)
                     /\ (among c with_suffix = true -> wrapped tg true m))
                  _ _ _ decorated_methods E (cls n) eq_refl)
      as (Hp & Hs).
    split.
    + intros Hin. destruct (Hp Hin) as (b & Hw).
      apply (wrapped_marks _ _ _ _ _ Hw H).
    + intros Hin. apply (wrapped_marks _ _ _ _ _ (Hs Hin) H). reflexivity.
  - split; intros Hin; [| apply Hsub in Hin];
      destruct (has_method _ Hin) as (m & Hm); rewrite Hm in E; discriminate E.
Qed.

End Kept.

Lemma node_is_refl (n : node) : node_is n n = true.
Proof. apply Nat.eqb_refl. Qed.

(** [BaseVisitor.visit] on a node whose method returns: the node is popped. *)
Lemma assert_popped_pushed (n : node) (s : AstAnnotator) (st : list node) :
  _stack s = (st ++ [n])%list -> assert_popped n s = (Ok tt, set_stack st s).
Proof.
  intros H. unfold assert_popped.
  erewrite bind_ok by (apply stack_pop_pushed, H).
  rewrite node_is_refl. reflexivity.
Qed.

(** The method of the node and the pop after it, in a state with the node
    on top of the stack. *)
Lemma dispatch_outcome (visit : node -> M unit) (n : node) (pushed : AstAnnotator)
    (st : list node) :
  (forall n, steps keeps (visit n)) ->
  (forall n, restores (visit n)) ->
  _stack pushed = (st ++ [n])%list ->
  (exists s2,
     NodeVisitor_visit tg NODE_TYPE_TO_TOKENS find_starargs visit n pushed = (Ok tt, s2)
     /\ keeps pushed s2 /\ _stack s2 = (st ++ [n])%list
     /\ (NodeVisitor_visit tg NODE_TYPE_TO_TOKENS find_starargs visit n >>
         assert_popped n) pushed = (Ok tt, set_stack st s2))
  \/ (exists e s2,
        NodeVisitor_visit tg NODE_TYPE_TO_TOKENS find_starargs visit n pushed
        = (Raise e, s2)
        /\ keeps pushed s2
        /\ (NodeVisitor_visit tg NODE_TYPE_TO_TOKENS find_starargs visit n >>
            assert_popped n) pushed = (Raise e, s2)).
Proof.
  intros Hk Hr Hst.
  destruct (NodeVisitor_visit tg NODE_TYPE_TO_TOKENS find_starargs visit n pushed)
    as [[[]|e] s2] eqn:E.
  - left. exists s2. split; [reflexivity |].
    pose proof (keeps_NodeVisitor_visit visit Hk n _ _ _ E) as K.
    pose proof (restores_stack _ _ _ _ (restores_NodeVisitor_visit visit Hr n) E) as S.
    rewrite Hst in S.
    split; [exact K |]. split; [exact S |].
    erewrite bind_ok by exact E. apply assert_popped_pushed, S.
  - right. exists e, s2. split; [reflexivity |].
    split; [apply (keeps_NodeVisitor_visit visit Hk n _ _ _ E) |].
    unfold bind. rewrite E. reflexivity.
Qed.

Lemma keeps_popped (s s2 : AstAnnotator) (n : node) :
  keeps (set_stack (_stack s ++ [n])%list s) s2 ->
  keeps s (set_stack (_stack s) s2).
Proof.
  intros (P & A & C & _).
  split; [exact P | split; [exact A | split; [exact C |]]].
  exists []. cbn. symmetry. apply app_nil_r.
Qed.

Lemma keeps_BaseVisitor_visit (visit : node -> M unit) (n : node) :
  (forall n, steps keeps (visit n)) ->
  (forall n, restores (visit n)) ->
  steps keeps (BaseVisitor_visit tg NODE_TYPE_TO_TOKENS find_starargs visit n).
Proof.
  intros Hk Hr s r s' H. rewrite BaseVisitor_visit_unfold in H.
  destruct (dispatch_outcome visit n (set_stack (_stack s ++ [n])%list s)
              (_stack s) Hk Hr eq_refl)
    as [(s2 & _ & K & S & E)|(e & s2 & _ & K & E)];
    rewrite E in H; injection H as _ <-.
  - apply (keeps_popped s s2 n K).
  - apply (keeps_trans _ _ _ (keeps_push s n) K).
Qed.

Lemma keeps_AstAnnotator_visit (visit : node -> M unit) (n : node) :
  (forall n, steps keeps (visit n)) ->
  (forall n, restores (visit n)) ->
  steps keeps (AstAnnotator_visit tg NODE_TYPE_TO_TOKENS find_starargs visit n).
Proof.
  intros Hk Hr. unfold AstAnnotator_visit. apply steps_try_except.
  unfold visit_try.
  repeat first [ apply keeps_BaseVisitor_visit; assumption | steps_step ].
Qed.

Lemma keeps_visit_depth depth n : steps keeps (visit_at depth n).
Proof.
  revert n. induction depth as [|depth IH]; intros n; simpl.
  - apply steps_raise.
  - apply keeps_AstAnnotator_visit; [exact IH |].
    intros n'. apply restores_visit_depth.
Qed.

(** [visit], in its two outcomes: the method of the node returned and the
    node was popped, or the method raised and [visit] raises from the state
    the method left. *)
Lemma visit_outcome (depth : nat) (n : node) (s : AstAnnotator) :
  (exists s2,
     dispatch_at depth n (enter n s) = (Ok tt, s2)
     /\ keeps (enter n s) s2
     /\ visit_at (S depth) n s = (Ok tt, set_stack (_stack s) s2))
  \/ (exists e s2,
        dispatch_at depth n (enter n s) = (Raise e, s2)
        /\ keeps (enter n s) s2
        /\ visit_at (S depth) n s
           = (Raise (if caught_by_visit e then AnnotationError (Caught e) else e),
              s2)).
Proof.
  rewrite visit_enter. unfold try_except.
  destruct (dispatch_outcome (visit_at depth) n (enter n s) (_stack s)
              (keeps_visit_depth depth) (restores_visit_depth depth) eq_refl)
    as [(s2 & E1 & K & _ & E)|(e & s2 & E1 & K & E)]; rewrite E.
  - left. exists s2. split; [exact E1 |]. split; [exact K | reflexivity].
  - right. exists e, s2. split; [exact E1 |]. split; [exact K |].
    destruct (caught_by_visit e); reflexivity.
Qed.

(** X7: whatever [visit] does, and whether it returns or raises, it removes
    no property of any node, it assigns no attribute of any node except
    [is_continued], which it only ever sets to [True], and it leaves the
    stack it found below whatever is left on it.  So, but for that flag,
    every attribute of every node of the tree reads as before. *)
Theorem visit_keeps (depth : nat) (n : node) (s : AstAnnotator) :
  let s' := snd (visit_at depth n s) in
  keeps s s'
  /\ (forall n' name, name <> "is_continued" ->
        lookup_attr s' n' name = lookup_attr s n' name)
  /\ (forall n', lookup_attr s' n' "is_continued" = lookup_attr s n' "is_continued"
                 \/ lookup_attr s' n' "is_continued" = Some (VBool true)).
Proof.
  intros s'.
  assert (H : keeps s s').
  { subst s'. destruct (visit_at depth n s) as [r s1] eqn:E.
    eapply keeps_visit_depth, E. }
  split; [exact H |]. destruct H as (_ & Ha & Hc & _). split.
  - intros n' name Hne. unfold lookup_attr. rewrite (Ha _ _ Hne). reflexivity.
  - intros n'. unfold lookup_attr.
    destruct (Hc (nid n')) as [E|E]; rewrite E; [left | right]; reflexivity.
Qed.

(** X8: when [visit] returns from a node whose method is under one of the
    decorators, the node has the property [prefix]; under [statement],
    [expression] or [space_around] it has the property [suffix] as well.
    The classes are those with a method in the dispatch table, but for the
    two helper methods [visit_With_3] and [visit_Raise_3]. *)
Theorem decorated_leave_prefix (depth : nat) (n : node) (s s' : AstAnnotator) :
  visit_at depth n s = (Ok tt, s') ->
  (among (cls n) with_prefix = true -> is_Some (props s' !! (nid n, "prefix")))
  /\ (among (cls n) with_suffix = true -> is_Some (props s' !! (nid n, "suffix"))).
Proof.
  destruct depth as [|depth]; [discriminate |].
  rewrite visit_enter. intros H. apply try_except_ok in H.
  apply bind_inv_ok in H as ([] & s2 & H2 & H).
  assert (Hp : props s' = props s2).
  { unfold assert_popped, bind, stack_pop in H.
    destruct (rev (_stack s2)); [discriminate H |].
    destruct (node_is n n0); [| discriminate H].
    injection H as <-. reflexivity. }
  rewrite Hp.
  apply (NodeVisitor_visit_marks (visit_at depth) (keeps_visit_depth depth) _ _ _ H2).
Qed.


(** ** What [attr] writes *)

Lemma snapshot_lookup_frame (n : node) (deps : list string) (s0 : AstAnnotator)
    (p : gmap (nat * string) value) (k : nat * string) :
  (forall dep, dep ∈ deps -> k <> (nid n, dep +:+ "__src")) ->
  foldl (fun p dep =>
           <[(nid n, dep +:+ "__src") := default VNone (lookup_attr s0 n dep)]> p)
        p deps !! k
  = p !! k.
Proof.
  revert p. induction deps as [|d deps IH]; intros p Hn; simpl; [reflexivity |].
  rewrite IH by (intros dep Hin; apply Hn; right; exact Hin).
  apply lookup_insert_ne. intros H. apply (Hn d); [left | symmetry; exact H].
Qed.

(** [attr], in its two outcomes. *)
Lemma attr_outcome (n : node) (attr_name : string) (attr_vals : list attr_val)
    (deps : list string) (s : AstAnnotator) :
  (exists e t,
     attr tg n attr_name attr_vals deps s
     = (Raise e, set_tokens t (set_props (snapshot n deps s) s)))
  \/ (exists text t,
        attr tg n attr_name attr_vals deps s
        = (Ok tt,
           set_props (<[(nid n, attr_name) := VStr text]> (snapshot n deps s))
             (set_tokens t s))).
Proof.
  unfold attr. erewrite bind_ok by apply snapshot_deps_spec.
  unfold bind.
  destruct (attr_parts tg attr_vals _) as [[parts|e] s2] eqn:E;
    apply parses_attr_parts in E; rewrite E.
  - right. exists (String.concat EmptyString parts), (tokens s2). reflexivity.
  - left. exists e, (tokens s2). reflexivity.
Qed.

(** X9: [attr] writes the properties [<dep>__src] of its node for the names
    in [deps], and, only when all of [attr_vals] was parsed, the property
    [attr_name] of its node.  Nothing else changes but the position in the
    source: no other property of this or another node, no attribute, and
    neither the stack nor the indent.  When parsing fails the properties
    are exactly those of before with the [<dep>__src] stored. *)
Theorem attr_frame (n : node) (attr_name : string) (attr_vals : list attr_val)
    (deps : list string) (s : AstAnnotator) :
  let r := fst (attr tg n attr_name attr_vals deps s) in
  let s' := snd (attr tg n attr_name attr_vals deps s) in
  attrs s' = attrs s
  /\ context s' = context s
  /\ (forall k, k <> (nid n, attr_name) ->
        (forall dep, dep ∈ deps -> k <> (nid n, dep +:+ "__src")) ->
        props s' !! k = props s !! k)
  /\ (forall e, r = Raise e -> props s' = snapshot n deps s)
  /\ (r = Ok tt -> exists text,
        props s' = <[(nid n, attr_name) := VStr text]> (snapshot n deps s)).
Proof.
  intros r s'. subst r s'.
  destruct (attr_outcome n attr_name attr_vals deps s)
    as [(e & t & ->)|(text & t & ->)]; cbn [fst snd].
  - split; [reflexivity |]. split; [reflexivity |]. split; [| split].
    + intros k _ Hk. apply snapshot_lookup_frame, Hk.
    + reflexivity.
    + discriminate.
  - split; [reflexivity |]. split; [reflexivity |]. split; [| split].
    + intros k Hne Hk. cbn. rewrite lookup_insert_ne by (symmetry; exact Hne).
      apply snapshot_lookup_frame, Hk.
    + discriminate.
    + intros _. exists text. reflexivity.
Qed.

(** ** Every visited node is marked *)

(** X10: once [visit] has started on a node (the recursion limit permitting),
    the node has the properties [indent] and [indent_diff], whether the
    visit returns or raises: nothing that runs below removes them. *)
Theorem visited_has_indent (depth : nat) (n : node) (s : AstAnnotator) :
  let s' := snd (visit_at (S depth) n s) in
  is_Some (props s' !! (nid n, "indent"))
  /\ is_Some (props s' !! (nid n, "indent_diff")).
Proof.
  intros s'.
  assert (H : forall k, is_Some (props (enter n s) !! k) -> is_Some (props s' !! k)).
  { subst s'.
    destruct (visit_outcome depth n s) as [(s2 & _ & K & ->)|(e & s2 & _ & K & ->)];
      apply K. }
  split; apply H.
  - cbn [enter props set_props set_stack].
    rewrite lookup_insert_ne by (intros [= ]). rewrite lookup_insert_eq.
    eexists. reflexivity.
  - cbn [enter props set_props set_stack]. rewrite lookup_insert_eq.
    eexists. reflexivity.
Qed.

(** X11: [visit] does not unwind the stack when it fails: a call that
    raises (the recursion limit permitting) leaves its node on the stack,
    above the stack it was called with and below the nodes of the visits
    that failed inside it. *)
Theorem failed_visit_stack (depth : nat) (n : node) (s s' : AstAnnotator) (e : exn) :
  visit_at (S depth) n s = (Raise e, s') ->
  exists above, _stack s' = (_stack s ++ n :: above)%list.
Proof.
  intros H.
  destruct (visit_outcome depth n s) as [(s2 & _ & _ & E)|(e0 & s2 & _ & K & E)];
    rewrite E in H; [discriminate H |].
  injection H as _ <-. destruct K as (_ & _ & _ & (above & Hst)).
  exists above. rewrite Hst. cbn [enter _stack set_stack].
  rewrite <- app_assoc. reflexivity.
Qed.

(** ** The two optional-token methods *)

(** X12: [optional_token] with a non-empty [token_val] consumes what
    [_optional_token] consumes, and appends to the property the text
    [_optional_token] returns, provided a token with the text [token_val]
    has the type [_optional_token] is asked for; the empty text stands for
    no match. *)
Theorem optional_token_typed (token_type : nat) (n : node) (attr_name : string)
    (token_val : string) (s : AstAnnotator) :
  token_val <> EmptyString ->
  (forall t, peek tg (tokens s) = Some t -> src t = token_val -> type t = token_type) ->
  optional_token tg n attr_name token_val s
  = (let* text := _optional_token tg token_type token_val in
     if String.eqb text EmptyString then ret tt
     else appendprop n attr_name text) s.
Proof.
  intros Hne Hty. unfold optional_token, _optional_token, bind, get.
  cbv beta iota.
  destruct (peek tg (tokens s)) as [t|] eqn:Hp; [| reflexivity].
  destruct (String.eqb_spec (src t) token_val) as [Heq|Hneq].
  - rewrite (Hty t eq_refl Heq), Nat.eqb_refl. cbn [negb orb].
    destruct (on_tokens (next tg) s) as [[o|e] s1]; [| reflexivity].
    destruct (ws tg None s1) as [[w|e] s2]; [| reflexivity].
    unfold ret.
    destruct (String.eqb_spec (src t +:+ w) EmptyString) as [E|_]; [| reflexivity].
    exfalso. apply Hne. rewrite <- Heq.
    destruct (src t); [reflexivity | discriminate E].
  - rewrite orb_true_r. reflexivity.
Qed.

(** ** The keyword of an [if] statement *)

Lemma bind_raise {A B} (m : M A) (k : A -> M B) s e s' :
  m s = (Raise e, s') -> bind m k s = (Raise e, s').
Proof. intros H. unfold bind. rewrite H. reflexivity. Qed.

Lemma set_props_same (s : AstAnnotator) : set_props (props s) s = s.
Proof. destruct s. reflexivity. Qed.

(** [token] on a token with another text, and on a token with the text
    looked for that is no bracket. *)
Lemma token_other (v : string) (s : AstAnnotator) (t : Token) (T : TG) :
  next tg (tokens s) = (Ok (Some t), T) ->
  src t <> v ->
  token tg (VStr v) s
  = (Raise (AnnotationError (Expected (VStr v) (src t) (fst (start t)) (line t))),
     set_tokens T s).
Proof.
  intros Hnext Hne. unfold token.
  erewrite bind_ok by (unfold on_tokens; rewrite Hnext; reflexivity).
  cbv beta iota.
  rewrite src_eq_false by (intros [= H]; apply Hne; symmetry; exact H).
  reflexivity.
Qed.

Lemma token_plain (v : string) (s : AstAnnotator) (t : Token) (T : TG) :
  next tg (tokens s) = (Ok (Some t), T) ->
  src t = v ->
  str_in v "({[" = false ->
  str_in v ")}]" = false ->
  token tg (VStr v) s = (Ok v, set_tokens T s).
Proof.
  intros Hnext Heq Ho Hc. unfold token.
  erewrite bind_ok by (unfold on_tokens; rewrite Hnext; reflexivity).
  cbv beta iota. rewrite Heq. cbn [src_eq]. rewrite String.eqb_refl, Ho, Hc.
  reflexivity.
Qed.

(** X13: [visit_If] looks for [elif] when the property [is_elif] of the node
    is set and true, and for [if] otherwise; parsing the prefix does not
    disturb the property.  When the token after the prefix is another one,
    the method fails with the error of [token], having consumed that token;
    when it is the keyword, the keyword and the whitespace after it become
    the property [open_if], and the method goes on with the test. *)
Theorem visit_If_keyword (visit : node -> M unit) (n : node)
    (s s1 : AstAnnotator) (t : Token) (T : TG) :
  prefix tg n s = (Ok tt, s1) ->
  next tg (tokens s1) = (Ok (Some t), T) ->
  (src t <> if_keyword s n ->
   visit_If tg visit n s
   = (Raise (AnnotationError
               (Expected (VStr (if_keyword s n)) (src t) (fst (start t)) (line t))),
      set_tokens T s1))
  /\ (forall w T2,
        src t = if_keyword s n ->
        whitespace tg None T = (Ok w, T2) ->
        visit_If tg visit n s
        = visit_If_rest tg visit n
            (set_props (<[(nid n, "open_if") := VStr (if_keyword s n +:+ w)]> (props s1))
               (set_tokens T2 s1))).
Proof.
  intros Hpre Hnext.
  assert (Hk : if_keyword s1 n = if_keyword s n).
  { apply attr_result in Hpre as (text & ->). unfold if_keyword. cbn.
    rewrite lookup_insert_ne by (intros [= ]). reflexivity. }
  assert (Hrun : visit_If tg visit n s
                 = (attr tg n "open_if" [Tok (VStr (if_keyword s n)); Fws None] [] >>
                    visit_If_rest tg visit n) s1).
  { unfold visit_If, block_statement, _gen_wrapper.
    erewrite bind_ok by exact Hpre. rewrite bind_ret_tt.
    unfold bind at 1. unfold prop at 1. cbv beta iota.
    fold (if_keyword s1 n). rewrite Hk. reflexivity. }
  split.
  - intros Hne. rewrite Hrun. apply bind_raise. unfold attr.
    erewrite bind_ok by apply snapshot_deps_spec.
    unfold snapshot. cbn [foldl]. rewrite set_props_same.
    apply bind_raise. cbn [attr_parts attr_part]. apply bind_raise.
    apply token_other; assumption.
  - intros w T2 Heq Hws. rewrite Hrun.
    erewrite bind_ok; [reflexivity |]. unfold attr.
    erewrite bind_ok by apply snapshot_deps_spec.
    unfold snapshot. cbn [foldl]. rewrite set_props_same.
    cbn [attr_parts attr_part].
    erewrite bind_ok.
    2:{ erewrite bind_ok
          by (apply (token_plain _ _ t T Hnext Heq);
              unfold if_keyword; destruct (truthy _); reflexivity).
        erewrite bind_ok.
        2:{ erewrite bind_ok
              by (unfold ws, on_tokens; cbn [tokens set_tokens]; rewrite Hws;
                  reflexivity).
            reflexivity. }
        reflexivity. }
    unfold setprop, modify. destruct s1. reflexivity.
Qed.

(** ** The brackets of a subscript *)

Lemma not_in_ExtSlice_spec (s : AstAnnotator) :
  @not_in_ExtSlice TG s = (Ok (own_brackets (_stack s)), s).
Proof. reflexivity. Qed.

(** The second test of the stack gives what the first gave, when what runs
    between them leaves the stack as it found it. *)
Lemma bracketed_spec (n : node) (inner : M unit) (s : AstAnnotator) :
  restores inner ->
  (let* b := not_in_ExtSlice in
   (if b then attr tg n "index_open" [Tok (VStr "["); Fws None] [] else ret tt) >>
   inner >>
   let* b := not_in_ExtSlice in
   if b then attr tg n "index_close" [Fws None; Tok (VStr "]")] [] else ret tt) s
  = bracketed tg (own_brackets (_stack s)) n inner s.
Proof.
  intros Hin. erewrite bind_ok by apply not_in_ExtSlice_spec.
  unfold bracketed. apply bind_congr. intros [] s1 H1.
  assert (Hs1 : _stack s1 = _stack s).
  { destruct (own_brackets (_stack s)).
    - eapply restores_stack; [apply restores_attr | exact H1].
    - injection H1 as <-. reflexivity. }
  apply bind_congr. intros [] s2 H2.
  erewrite bind_ok by apply not_in_ExtSlice_spec.
  rewrite (restores_stack _ _ _ _ Hin H2), Hs1. reflexivity.
Qed.

Lemma restores_visit_attr (depth : nat) (n : node) (name : string) :
  restores (visit_attr (visit_at depth) n name).
Proof.
  unfold visit_attr. apply restores_bind; [apply restores_getattr |].
  intros v. apply restores_visit_value.
Qed.

Lemma restores_visit_Slice_parts (depth : nat) (n : node) :
  restores (visit_Slice_parts tg (visit_at depth) n).
Proof.
  unfold visit_Slice_parts, if_attr.
  repeat first [ apply restores_visit_attr | restores_step ].
Qed.

(** X14: [visit_Index] and [visit_Slice] test the stack twice, before the
    slot [index_open] and before the slot [index_close]; the two tests agree,
    because what is visited between them returns with the stack as it was.
    So the brackets are taken both or not at all, as the stack at the call
    decides: both when the node has a parent on the stack that is not an
    [ExtSlice]. *)
Theorem brackets_paired (depth : nat) (n : node) (s : AstAnnotator) :
  visit_Index tg (visit_at depth) n s
  = space_left tg
      (fun node => bracketed tg (own_brackets (_stack s)) node
                     (visit_attr (visit_at depth) node "value")) n s
  /\ visit_Slice tg (visit_at depth) n s
     = space_left tg
         (fun node => bracketed tg (own_brackets (_stack s)) node
                        (visit_Slice_parts tg (visit_at depth) node)) n s.
Proof.
  split.
  - unfold visit_Index, space_left, _gen_wrapper.
    apply bind_congr. intros [] s1 H1.
    rewrite !bind_ret_tt.
    rewrite <- (restores_stack _ _ _ _ (restores_attr _ _ _ _) H1).
    apply bracketed_spec, restores_visit_attr.
  - unfold visit_Slice, space_left, _gen_wrapper.
    apply bind_congr. intros [] s1 H1.
    rewrite !bind_ret_tt.
    rewrite <- (restores_stack _ _ _ _ (restores_attr _ _ _ _) H1).
    rewrite <- (bracketed_spec n _ s1 (restores_visit_Slice_parts depth n)).
    unfold visit_Slice_parts.
    apply bind_congr. intros b s2 _.
    apply bind_congr. intros [] s3 _.
    unfold bind.
    destruct (if_attr n "lower" _ s3) as [[[]|e] s4]; [| reflexivity].
    destruct (attr tg n "lowerspace" _ _ s4) as [[[]|e] s5]; [| reflexivity].
    destruct (if_attr n "upper" _ s5) as [[[]|e] s6]; [| reflexivity].
    destruct (if_attr n "step" _ s6) as [[[]|e] s7]; reflexivity.
Qed.

(** ** Complex literals *)

Lemma lookup_visit_Num (visit : node -> M unit) :
  lookup_method "visit_Num" (methods tg NODE_TYPE_TO_TOKENS find_starargs visit)
  = Some (visit_Num tg).
Proof. reflexivity. Qed.

Lemma visit_Num_complex (n : node) (s : AstAnnotator) (re im : Z * Z) :
  lookup_attr s n "n" = Some (VComplex re im) ->
  exists e, fst (visit_Num tg n s) = Raise e.
Proof.
  intros Hn. unfold visit_Num, expression, _gen_wrapper, scope.
  unfold bind at 1.
  destruct (on_tokens (scope_enter tg n) s) as [[[]|e] s1] eqn:E1;
    [| exists e; reflexivity].
  apply parses_on_tokens in E1.
  unfold bind at 1. unfold bind at 1.
  destruct (prefix tg n s1) as [[[]|e] s2] eqn:E2; [| exists e; reflexivity].
  apply attr_attrs in E2.
  assert (H2 : lookup_attr s2 n "n" = Some (VComplex re im)).
  { rewrite (lookup_attr_attrs _ _ _ _ E2), E1. exact Hn. }
  unfold bind at 1. unfold bind at 1.
  unfold getattr at 1. rewrite H2. cbn.
  exists (PyExc TypeError). reflexivity.
Qed.

(** X15: a [Num] node whose value is a complex number is never annotated:
    [visit_Num] compares the value with [0], which raises for a complex
    number, so [visit] on such a node raises, whatever the source holds. *)
Theorem complex_never_annotated (depth : nat) (n : node) (s : AstAnnotator)
    (re im : Z * Z) :
  cls n = "Num" ->
  lookup_attr s n "n" = Some (VComplex re im) ->
  exists e, fst (visit_at depth n s) = Raise e.
Proof.
  intros Hcls Hn. destruct depth as [|depth]; [eexists; reflexivity |].
  rewrite visit_enter. unfold try_except, NodeVisitor_visit.
  rewrite Hcls. change ("visit_" +:+ "Num") with "visit_Num".
  rewrite lookup_visit_Num. unfold bind at 1.
  destruct (visit_Num_complex n (enter n s) re im Hn) as (e & He).
  destruct (visit_Num tg n (enter n s)) as [r s1]. cbn [fst] in He. subst r.
  destruct (caught_by_visit e); eexists; reflexivity.
Qed.

End Properties.

(** * The properties on the examples *)

(** The loop body of the examples: [self.visit(stmt)]. *)
#[local] Abbreviation visit_stmt :=
  (visit_value (visit token_list example_tokens no_starargs 5)).

(** C1 on [with_inner]: with the line ["  pass"] the block is entered at
    indent ["  "]; with the line ["pass"] the annotation fails. *)
Lemma indented_strict_indent_witness :
  (exists diff,
     diff <> EmptyString /\ takewhile_blank with_line2 = EmptyString +:+ diff /\
     indented token_list with_inner "body" visit_stmt (with_at_pass with_line2)
     = indented_block token_list with_inner "body" visit_stmt
         [VNode (pass_node 5 2 2)] EmptyString EmptyString
         (set_indent (takewhile_blank with_line2) diff (with_at_pass with_line2)))
  /\ indented token_list with_inner "body" visit_stmt (with_at_pass ("pass" +:+ nl))
     = (Raise indent_error, with_at_pass ("pass" +:+ nl)).
Proof.
  split.
  - apply (proj1 (indented_strict_indent token_list with_inner "body" visit_stmt
                    (with_at_pass with_line2) (pass_node 5 2 2) []
                    (tok "pass" 2 2 with_line2) 2 with_line2
                    eq_refl eq_refl ltac:(intros _; discriminate) eq_refl eq_refl)).
    apply indent_check_spec. reflexivity.
  - apply (proj2 (indented_strict_indent token_list with_inner "body" visit_stmt
                    (with_at_pass ("pass" +:+ nl)) (pass_node 5 2 2) []
                    (tok "pass" 2 2 ("pass" +:+ nl)) 2 ("pass" +:+ nl)
                    eq_refl eq_refl ltac:(intros _; discriminate) eq_refl eq_refl)).
    intros H. apply indent_check_spec in H. discriminate H.
Defined.

(** C2 on [with_source]: expecting [while] where the source has [with]. *)
Lemma token_mismatch_witness :
  token token_list (VStr "while") (init with_source)
  = (Raise (AnnotationError (Expected (VStr "while") "with" 1 with_line1)),
     set_tokens (snd (advance with_source)) (init with_source)).
Proof.
  apply (token_mismatch token_list (VStr "while") (init with_source)
           (tok "with" 1 0 with_line1) (snd (advance with_source)) eq_refl).
  discriminate.
Defined.

(** C2 as stated fails: before the first and before the second [x] of the
    line [x x], whose columns differ, a mismatch raises the same error, so
    the error does not carry the column. *)
Lemma token_error_has_no_column :
  exists t1 t2 e,
    peek token_list (tokens xx_first) = Some t1
    /\ peek token_list (tokens xx_second) = Some t2
    /\ snd (start t1) <> snd (start t2)
    /\ fst (token token_list (VStr "y") xx_first) = Raise e
    /\ fst (token token_list (VStr "y") xx_second) = Raise e.
Proof.
  exists (tok "x" 1 0 xx_line), (tok "x" 1 2 xx_line),
    (AnnotationError (Expected (VStr "y") "x" 1 xx_line)).
  repeat split; try reflexivity. discriminate.
Qed.

(** C3 on the examples: before [elif], and before the comma. *)
Lemma resolvers_pure_witness :
  check_is_elif token_list (VNode if_inner) if_at_elif = (Ok true, if_at_elif)
  /\ check_is_continued_with token_list (VNode with_inner) with_at_comma
     = (Ok true, with_at_comma)
  /\ visit_If_orelse token_list (visit token_list example_tokens no_starargs 5)
       if_outer if_at_elif
     = visit token_list example_tokens no_starargs 5 if_inner
         (flag_elif if_inner if_at_elif)
  /\ visit_With_open token_list with_outer with_at_comma
     = attr token_list with_outer "with_comma" (ws_tok_ws ",") []
         (flag_continued with_inner with_at_comma).
Proof.
  pose proof (resolvers_pure token_list (fun t => eq_refl)) as (H1 & H2 & H3 & H4).
  split; [apply H1 |]. split; [apply H2 |].
  split; [apply (H3 _ if_outer if_inner if_at_elif eq_refl eq_refl) |].
  apply (H4 with_outer with_inner with_at_comma eq_refl eq_refl).
Defined.

(** C4 on [with a, b:]: at the comma, the outer node gets [with_comma] and
    the inner node is flagged; the inner node, once flagged, is visited
    without a [with] slot. *)
Lemma with_continued_witness :
  (visit_With_open token_list with_outer with_at_comma
   = attr token_list with_outer "with_comma" (ws_tok_ws ",") []
       (flag_continued with_inner with_at_comma)
   /\ forall s',
        visit_With_open token_list with_outer with_at_comma = (Ok tt, s') ->
        (exists text,
           props s' = <[(nid with_outer, "with_comma") := VStr text]>
                        (props with_at_comma))
        /\ props s' !! (nid with_outer, "open_block")
           = props with_at_comma !! (nid with_outer, "open_block")
        /\ attrs s' = <[(nid with_inner, "is_continued") := VBool true]>
                        (attrs with_at_comma)
        /\ lookup_attr s' with_inner "is_continued" = Some (VBool true))
  /\ visit_With token_list (visit token_list example_tokens no_starargs 5)
       with_inner (flag_continued with_inner with_at_b)
     = (prefix token_list with_inner >>
        visit_With_rest token_list
          (visit token_list example_tokens no_starargs 5) with_inner)
         (flag_continued with_inner with_at_b).
Proof.
  pose proof (with_continued token_list
                (visit token_list example_tokens no_starargs 5)
                with_outer with_inner with_at_comma (tok "," 1 6 with_line1)
                eq_refl eq_refl eq_refl) as (H1 & _ & H3 & _).
  split.
  - apply H1. reflexivity.
  - apply H3; reflexivity.
Defined.

(** C6 on the literal [1j]: the [TypeError] of the comparison leaves
    [visit] as an [AnnotationError]. *)
Lemma visit_normalizes_witness :
  caught_by_visit (AnnotationError (Caught (PyExc TypeError))) = false
  /\ fst (run 1 complex_node complex_source)
     = Raise (AnnotationError (Caught (PyExc TypeError))).
Proof.
  pose proof (visit_normalizes token_list example_tokens no_starargs 0
                complex_node (init complex_source)) as (_ & H2 & _).
  pose proof (visit_normalizes token_list example_tokens no_starargs 1
                complex_node (init complex_source)) as (H1 & _ & _).
  specialize (H2 (PyExc TypeError)
                (snd (visit_try token_list example_tokens no_starargs
                        (visit token_list example_tokens no_starargs 0)
                        complex_node (init complex_source)))
                eq_refl).
  split.
  - apply (H1 _ _ H2).
  - unfold run. rewrite H2. reflexivity.
Defined.

(** C6 as stated fails: with no token left, annotating an [Ellipsis] node
    raises the [AttributeError] of [self.tokens.peek().src], which [visit]
    does not turn into an [AnnotationError]. *)
Lemma attribute_error_escapes :
  fst (run 5 ellipsis_node no_tokens) = Raise (PyExc AttributeError).
Proof. reflexivity. Qed.

(** C7 on the slot [class_def] of [class C:], which depends on [name]. *)
Lemma attr_snapshot_witness :
  props (set_props (snapshot class_node ["name"] (init class_source))
           (init class_source))
    !! (nid class_node, "name" +:+ "__src") = Some (VStr "C")
  /\ attr token_list class_node "class_def"
       [Tok (VStr "class"); Fws None; Tok (VStr "C"); Fws None] ["name"]
       (init class_source)
     = (Ok tt,
        set_props
          (<[(nid class_node, "class_def") := VStr "class C"]>
             (snapshot class_node ["name"] (init class_source)))
          (set_tokens
             {| pending := [(EmptyString, tok ":" 1 7 class_line1);
                            (nl +:+ "  ", tok "pass" 2 2 with_line2)];
                loc := (1, 7); source_lines := [class_line1; with_line2] |}
             (init class_source))).
Proof.
  pose proof (attr_snapshot token_list class_node "class_def"
                [Tok (VStr "class"); Fws None; Tok (VStr "C"); Fws None] ["name"]
                (init class_source)) as (_ & _ & H3 & _ & H5).
  split.
  - apply (H3 "name"). apply list_elem_of_here.
  - apply (H5 ["class"; " "; "C"; EmptyString]
             (set_tokens
                {| pending := [(EmptyString, tok ":" 1 7 class_line1);
                               (nl +:+ "  ", tok "pass" 2 2 with_line2)];
                   loc := (1, 7); source_lines := [class_line1; with_line2] |}
                (set_props (snapshot class_node ["name"] (init class_source))
                   (init class_source)))).
    reflexivity.
Defined.

(** C8 on [with_source]: at the comma the optional comma is consumed with
    the blank after it; at [b] nothing happens. *)
Lemma optional_token_lookahead_witness :
  optional_token token_list with_outer "extracomma" "," with_at_b
  = (Ok tt, with_at_b)
  /\ optional_token token_list with_outer "extracomma" "," with_at_comma
     = (Ok tt,
        set_props (<[(nid with_outer, "extracomma") := VStr ", "]> ∅)
          (set_tokens (tokens with_at_b) with_at_comma)).
Proof.
  split.
  - apply (proj1 (optional_token_lookahead token_list with_outer "extracomma" ","
                    with_at_b)).
    intros t [= <-]. discriminate.
  - apply (proj2 (optional_token_lookahead token_list with_outer "extracomma" ","
                    with_at_comma)
             (tok "," 1 6 with_line1) (Some (tok "," 1 6 with_line1))
             (snd (advance (tokens with_at_comma))) " " (tokens with_at_b)
             eq_refl eq_refl eq_refl eq_refl).
Defined.

(** C9 on [with a, b:]: the pass over the whole tree ends on the empty
    stack. *)
Lemma stack_balanced_witness :
  _stack (snd (run 5 with_outer with_source)) = [].
Proof.
  apply (stack_balanced token_list example_tokens no_starargs 5 with_outer
           (init with_source) (snd (run 5 with_outer with_source))).
  - vm_compute. reflexivity.
  - reflexivity.
Defined.

(** C10 on [with a, b:]: the inner [with] is the only statement of the body
    and starts on the line of the header. *)
Lemma indented_same_line_witness :
  indented token_list with_outer "body" visit_stmt with_at_b
  = visit_stmt (VNode with_inner) with_at_b.
Proof.
  apply (indented_same_line token_list with_outer "body" visit_stmt with_at_b
           (VNode with_inner) (tok "b" 1 8 with_line1) eq_refl eq_refl eq_refl).
Defined.

(** * The further properties on the examples *)

(** X5 on the body of [with_inner], entered at the indent of ["  pass"]. *)
Lemma indented_block_suffix_witness :
  exists diff s2 block_suffix,
    takewhile_blank with_line2 = _indent (with_at_pass with_line2) +:+ diff
    /\ for_each [VNode (pass_node 5 2 2)] visit_stmt
         (set_indent (takewhile_blank with_line2) diff (with_at_pass with_line2))
       = (Ok tt, s2)
    /\ block_whitespace token_list (takewhile_blank with_line2) (tokens s2)
       = (Ok block_suffix,
          tokens (snd (indented token_list with_inner "body" visit_stmt
                         (with_at_pass with_line2))))
    /\ props (snd (indented token_list with_inner "body" visit_stmt
                     (with_at_pass with_line2)))
       = <[(nid with_inner, "block_suffix_" +:+ "body") := VStr block_suffix]>
           (props s2)
    /\ _indent (snd (indented token_list with_inner "body" visit_stmt
                       (with_at_pass with_line2)))
       = _indent (with_at_pass with_line2)
    /\ _indent_diff (snd (indented token_list with_inner "body" visit_stmt
                            (with_at_pass with_line2)))
       = _indent_diff (with_at_pass with_line2)
    /\ _stack (snd (indented token_list with_inner "body" visit_stmt
                      (with_at_pass with_line2)))
       = _stack (with_at_pass with_line2).
Proof.
  apply (indented_block_suffix token_list example_tokens no_starargs 5
           with_inner "body" (with_at_pass with_line2)
           (snd (indented token_list with_inner "body" visit_stmt
                   (with_at_pass with_line2)))
           (pass_node 5 2 2) [] (tok "pass" 2 2 with_line2) 2 with_line2
           eq_refl eq_refl ltac:(intros _; discriminate) eq_refl eq_refl).
  vm_compute. reflexivity.
Defined.

(** X6 on [with a, b:]. *)
Lemma visit_restores_indent_witness :
  _indent (snd (run 5 with_outer with_source)) = _indent (init with_source)
  /\ _indent_diff (snd (run 5 with_outer with_source))
     = _indent_diff (init with_source).
Proof.
  apply (visit_restores_indent token_list example_tokens no_starargs 5
           with_outer (init with_source) (snd (run 5 with_outer with_source))).
  vm_compute. reflexivity.
Defined.

(** X3 on [global x, y]. *)
Lemma identifiers_commas_witness :
  literals (identifiers (VStr <$> ["x"; "y"])) = "x,y".
Proof.
  apply (proj2 (identifiers_commas "x" ["y"])).
  intros H. apply list_elem_of_singleton in H. discriminate H.
Defined.

(** X4: [with_inner] has no [orelse]; no token is left in [no_tokens]; the
    [orelse] of [if_inner] is empty. *)
Lemma indented_edges_witness :
  indented token_list with_inner "orelse" visit_stmt (with_at_pass with_line2)
  = (Raise (PyExc AttributeError), with_at_pass with_line2)
  /\ indented token_list with_inner "body" visit_stmt (init no_tokens)
     = (Raise (PyExc AttributeError), init no_tokens)
  /\ indented token_list if_inner "orelse" visit_stmt if_at_elif
     = (Raise (PyExc IndexError), if_at_elif).
Proof.
  split; [| split].
  - apply (proj1 (indented_edges token_list with_inner "orelse" visit_stmt
                    (with_at_pass with_line2))).
    reflexivity.
  - apply (proj1 (proj2 (indented_edges token_list with_inner "body" visit_stmt
                           (init no_tokens)))
             (VList [VNode (pass_node 5 2 2)])); reflexivity.
  - apply (proj2 (proj2 (indented_edges token_list if_inner "orelse" visit_stmt
                           if_at_elif))
             (tok "elif" 3 0 if_line3)); reflexivity.
Defined.

(** X8 on [with a, b:], a block statement, and on its [pass], a
    statement. *)
Lemma decorated_leave_prefix_witness :
  is_Some (props (snd (run 5 with_outer with_source)) !! (nid with_outer, "prefix"))
  /\ is_Some (props (snd (visit token_list example_tokens no_starargs 5
                            (pass_node 5 2 2) (with_at_pass with_line2)))
              !! (nid (pass_node 5 2 2), "suffix")).
Proof.
  split.
  - apply (proj1 (decorated_leave_prefix token_list example_tokens no_starargs 5
                    with_outer (init with_source)
                    (snd (run 5 with_outer with_source))
                    ltac:(vm_compute; reflexivity))).
    reflexivity.
  - apply (proj2 (decorated_leave_prefix token_list example_tokens no_starargs 5
                    (pass_node 5 2 2) (with_at_pass with_line2)
                    (snd (visit token_list example_tokens no_starargs 5
                            (pass_node 5 2 2) (with_at_pass with_line2)))
                    ltac:(vm_compute; reflexivity))).
    reflexivity.
Defined.

(** X12 at the comma of [with a, b:], a token of type [1]. *)
Lemma optional_token_typed_witness :
  optional_token token_list with_outer "extracomma" "," with_at_comma
  = (let* text := _optional_token token_list 1 "," in
     if String.eqb text EmptyString then ret tt
     else appendprop with_outer "extracomma" text) with_at_comma.
Proof.
  apply (optional_token_typed token_list 1 with_outer "extracomma" ","
           with_at_comma).
  - discriminate.
  - intros t [= <-] _. reflexivity.
Defined.

(** X13 before [elif b:]: the node as it is expects [if] and fails; the
    node flagged [is_elif] matches [elif]. *)
Lemma visit_If_keyword_witness :
  visit_If token_list (visit token_list example_tokens no_starargs 5) if_inner if_at_elif
  = (Raise (AnnotationError (Expected (VStr "if") "elif" 3 if_line3)),
     set_tokens (snd (advance (tokens (snd (prefix token_list if_inner if_at_elif)))))
       (snd (prefix token_list if_inner if_at_elif)))
  /\ visit_If token_list (visit token_list example_tokens no_starargs 5) if_inner (flag_elif if_inner if_at_elif)
     = visit_If_rest token_list (visit token_list example_tokens no_starargs 5) if_inner
         (set_props
            (<[(nid if_inner, "open_if") := VStr ("elif" +:+ " ")]>
               (props (snd (prefix token_list if_inner
                              (flag_elif if_inner if_at_elif)))))
            (set_tokens
               (snd (whitespace token_list None
                       (snd (advance
                               (tokens (snd (prefix token_list if_inner
                                               (flag_elif if_inner if_at_elif))))))))
               (snd (prefix token_list if_inner (flag_elif if_inner if_at_elif))))).
Proof.
  split.
  - apply (proj1 (visit_If_keyword token_list (visit token_list example_tokens no_starargs 5) if_inner if_at_elif
                    (snd (prefix token_list if_inner if_at_elif))
                    (tok "elif" 3 0 if_line3)
                    (snd (advance (tokens (snd (prefix token_list if_inner
                                                  if_at_elif)))))
                    eq_refl eq_refl)).
    discriminate.
  - apply (proj2 (visit_If_keyword token_list (visit token_list example_tokens no_starargs 5) if_inner
                    (flag_elif if_inner if_at_elif)
                    (snd (prefix token_list if_inner (flag_elif if_inner if_at_elif)))
                    (tok "elif" 3 0 if_line3)
                    (snd (advance (tokens (snd (prefix token_list if_inner
                                                  (flag_elif if_inner if_at_elif))))))
                    eq_refl eq_refl)
             " "); reflexivity.
Defined.

(** X15 on the literal [1j]. *)
Lemma complex_never_annotated_witness :
  exists e, fst (run 5 complex_node complex_source) = Raise e.
Proof.
  apply (complex_never_annotated token_list example_tokens no_starargs 5
           complex_node (init complex_source) (0, 0) (1, 0) eq_refl eq_refl).
Defined.

(** X11 on the literal [1j]: the failed visit leaves the node on the
    stack. *)
Lemma failed_visit_stack_witness :
  exists above,
    _stack (snd (run 5 complex_node complex_source)) = ([] ++ complex_node :: above)%list.
Proof.
  apply (failed_visit_stack token_list example_tokens no_starargs 4 complex_node
           (init complex_source) (snd (run 5 complex_node complex_source))
           (AnnotationError (Caught (PyExc TypeError)))).
  vm_compute. reflexivity.
Defined.
